(** * Batch audio enhancement ([src/xtts/clean_audio.py])

    A shallow embedding of the [AudioEnhancer] class: the single-file
    processor [denoise_and_enhance], the directory batch runner
    [process_directory] and the output verifier [verify_output], together
    with the properties the specification states about them.

    The Python code is effectful: it reads and writes the file system,
    prints to standard output and calls an opaque enhancement model.  The
    embedding threads one explicit [world] (file system, standard output,
    and the list of library calls made so far) through a small state and
    exception monad.  The libraries the script delegates to (torchaudio,
    resemble_enhance, soundfile) are a [Backend] record of functions, so
    every theorem holds for all decoders, models and encoders. *)

From Stdlib Require Import Floats.PrimFloat Floats.FloatOps Floats.SpecFloat.
From Stdlib Require Import ZArith Ascii String.
From stdpp Require Import base option list gmap strings pretty.

Set Warnings "-inexact-float,-clear-no-such-hyp".
Local Open Scope string_scope.
Local Open Scope list_scope.

(** ** Python strings *)

Module PyStr.

(** [str.lower] and [str.upper] on ASCII text: only the letters A-Z and
    a-z have a case. *)
Definition lower_ascii (c : ascii) : ascii :=
  let n := nat_of_ascii c in
  if (65 <=? n)%nat && (n <=? 90)%nat then ascii_of_nat (n + 32) else c.

Definition upper_ascii (c : ascii) : ascii :=
  let n := nat_of_ascii c in
  if (97 <=? n)%nat && (n <=? 122)%nat then ascii_of_nat (n - 32) else c.

Fixpoint lower (s : string) : string :=
  match s with
  | EmptyString => EmptyString
  | String c rest => String (lower_ascii c) (lower rest)
  end.

Fixpoint upper (s : string) : string :=
  match s with
  | EmptyString => EmptyString
  | String c rest => String (upper_ascii c) (upper rest)
  end.

(** [s.endswith(suffix)]. *)
Definition endswith (s suffix : string) : bool :=
  let n := String.length s in
  let m := String.length suffix in
  (m <=? n)%nat && String.eqb (String.substring (n - m) m s) suffix.

(** [s.split(sep)] for a one-character separator; [cur] is the piece
    being read. *)
Fixpoint split_go (sep : ascii) (s cur : string) : list string :=
  match s with
  | EmptyString => [cur]
  | String c rest =>
      if Ascii.eqb c sep then cur :: split_go sep rest EmptyString
      else split_go sep rest (cur +:+ String c EmptyString)
  end.

Definition split (sep : ascii) (s : string) : list string :=
  split_go sep s EmptyString.

End PyStr.

(** ** pathlib paths

    A [Path] is the list of its components ([Path.parts]).  Relative
    paths are relative to the working directory, which is the root [[]]
    of the modelled tree; an absolute path starts with the component
    ["/"].  Symbolic links and [".."] components are not modelled. *)

Abbreviation path := (list string).

Module PyPath.

Definition keep_part (c : string) : bool :=
  negb (String.eqb c "") && negb (String.eqb c ".").

(** [Path(s)]: split on the slash; empty and ["."] components vanish. *)
Definition Path (s : string) : path :=
  (if String.prefix "/" s then ["/"] else [])
    ++ List.filter keep_part (PyStr.split "/" s).

(** [p.name]: the final component. *)
Definition name (p : path) : string := List.last p "".

(** [p / child] for a single component. *)
Definition joinpath (p : path) (child : string) : path := p ++ [child].

(** [str(p)]. *)
Definition str (p : path) : string :=
  match p with
  | "/" :: rest => "/" +:+ String.concat "/" rest
  | _ => String.concat "/" p
  end.

(** [q] lies strictly below [p]. *)
Fixpoint below (p q : path) : bool :=
  match p, q with
  | [], [] => false
  | [], _ :: _ => true
  | _ :: _, [] => false
  | a :: p', b :: q' => String.eqb a b && below p' q'
  end.

(** The glob pattern [*.fmt] against a file name, for a format that
    holds no glob metacharacter: the name ends in [.fmt].  pathlib's
    star also matches names that start with a dot. *)
Definition fnmatch_ext (audio_format : string) (file_name : string) : bool :=
  PyStr.endswith file_name ("." +:+ audio_format).

End PyPath.

(** ** Exceptions

    Every failure the libraries report is an instance of Python's
    [Exception]; the model keeps its text, [str(e)].  Signals outside
    that class (a keyboard interrupt, [SystemExit]) terminate the
    process from outside and are not part of the model. *)

Inductive exn := Exception (msg : string).

Definition exn_str (e : exn) : string := let 'Exception msg := e in msg.

Abbreviation result A := (exn + A)%type.

(** ** Python numbers passed as [nfe] *)

Inductive pynum :=
  | PyInt (z : Z)
  | PyFloat (f : float).

(** [int(x)]: the identity on an int; a float is truncated toward zero,
    and NaN and the infinities are refused. *)
Definition py_int (x : pynum) : result Z :=
  match x with
  | PyInt z => inr z
  | PyFloat f =>
      match Prim2SF f with
      | S754_zero _ => inr 0%Z
      | S754_infinity _ => inl (Exception "cannot convert float infinity to integer")
      | S754_nan => inl (Exception "cannot convert float NaN to integer")
      | S754_finite s m e =>
          let mag := if (0 <=? e)%Z then Z.shiftl (Z.pos m) e
                     else Z.shiftr (Z.pos m) (- e) in
          inr (if s then (- mag)%Z else mag)
      end
  end.

(** ** The libraries behind the script

    What the script takes from torchaudio, resemble_enhance and soundfile.
    Samples are the numbers a tensor holds; their arithmetic is the
    library's (floating point), so it is a parameter.  A waveform as
    loaded is a list of channels, each a list of samples; a mono buffer
    is a list of samples. *)

Inductive os_error := ENOENT | EEXIST | EISDIR | ENOTDIR.

(** What [sf.write] does with the data it is given. *)
Inductive write_outcome (C : Type) :=
  | Written (c : C)
      (* the whole file is encoded and stored *)
  | Refused (e : exn)
      (* rejected before the file is opened (unknown format, bad rate) *)
  | Interrupted (c : C) (e : exn).
      (* opened and cut short: a truncated file [c] stays behind *)

Arguments Written {C} c.
Arguments Refused {C} e.
Arguments Interrupted {C} c e.

Record Backend := {
  sample : Type;
  sample_add : sample -> sample -> sample;
  sample_div : sample -> nat -> sample;
  content : Type;
  (* torchaudio.load on the bytes of a file: channels and sample rate *)
  decode : content -> result (list (list sample) * Z);
  (* resemble_enhance.enhancer.inference.denoise(dwav, sr, device) *)
  denoise_model : list sample -> Z -> string -> result (list sample * Z);
  (* enhance(dwav, sr, device, nfe=, solver=, lambd=, tau=) *)
  enhance_model :
    list sample -> Z -> string -> Z -> string -> float -> float ->
    result (list sample * Z);
  (* soundfile's encoder for (data, samplerate, format) *)
  encode : list sample -> Z -> string -> write_outcome content;
  (* the exception a library raises for an operating-system error *)
  os_exn : os_error -> path -> exn
}.

(** ** File system *)

Inductive node (C : Type) :=
  | File (c : C)
  | Dir.

Arguments File {C} c.
Arguments Dir {C}.

Definition is_file {C} (n : option (node C)) : bool :=
  match n with Some (File _) => true | _ => false end.

Definition is_dir {C} (n : option (node C)) : bool :=
  match n with Some Dir => true | _ => false end.

Section Model.

Variable B : Backend.

Abbreviation buffer := (list (sample B)).
Abbreviation tensor := (list (list (sample B))).
Abbreviation fsmap := (gmap path (node (content B))).

(** The working directory [[]] always exists. *)
Definition lookup_node (fs : fsmap) (p : path) : option (node (content B)) :=
  match p with
  | [] => Some Dir
  | _ => fs !! p
  end.

(** The calls made into the libraries, with their arguments. *)
Inductive event :=
  | EvLoad (audio_path : path)
  | EvDenoise (dwav : buffer) (sr : Z) (device : string)
  | EvEnhance (dwav : buffer) (sr : Z) (device : string)
      (nfe : Z) (solver : string) (lambd tau : float)
  | EvWrite (file : path) (data : buffer) (samplerate : Z) (format : string).

Record world := World {
  fs : fsmap;
  stdout : list string;
  calls : list event
}.

(** ** State and exception monad *)

Definition M (A : Type) : Type := world -> world * result A.

#[global] Instance M_ret : MRet M := fun A a w => (w, inr a).

#[global] Instance M_bind : MBind M := fun A A' f m w =>
  match m w with
  | (w', inr a) => f a w'
  | (w', inl e) => (w', inl e)
  end.

Definition raise {A} (e : exn) : M A := fun w => (w, inl e).

Definition lift {A} (r : result A) : M A := fun w => (w, r).

(** [try: body except Exception as e: handler(e)]. *)
Definition try_except {A} (body : M A) (handler : exn -> M A) : M A := fun w =>
  match body w with
  | (w', inr a) => (w', inr a)
  | (w', inl e) => handler e w'
  end.

Definition print (line : string) : M unit := fun w =>
  (World (fs w) (stdout w ++ [line]) (calls w), inr tt).

Definition emit (ev : event) : M unit := fun w =>
  (World (fs w) (stdout w) (calls w ++ [ev]), inr tt).

Definition get_fs : M fsmap := fun w => (w, inr (fs w)).

Definition put_fs (fs' : fsmap) : M unit := fun w =>
  (World fs' (stdout w) (calls w), inr tt).

(** ** Library calls *)

(** What reading [audio_path] gives: the decoded file, or the error for
    a missing path or a directory. *)
Definition read_audio (fs : fsmap) (audio_path : path) : result (tensor * Z) :=
  match lookup_node fs audio_path with
  | Some (File c) => decode B c
  | Some Dir => inl (os_exn B EISDIR audio_path)
  | None => inl (os_exn B ENOENT audio_path)
  end.

(** [torchaudio.load(audio_path)]. *)
Definition torchaudio_load (audio_path : path) : M (tensor * Z) :=
  emit (EvLoad audio_path);;
  fs ← get_fs;
  lift (read_audio fs audio_path).

(** [dwav.mean(dim=0)]: the channels are added sample by sample and the
    sums divided by the number of channels. *)
Definition mean_dim0 (dwav : tensor) : buffer :=
  match dwav with
  | [] => []
  | ch0 :: chs =>
      let total := fold_left (zip_with (sample_add B)) chs ch0 in
      (fun s => sample_div B s (length dwav)) <$> total
  end.

Definition denoise (dwav : buffer) (sr : Z) (device : string) : M (buffer * Z) :=
  emit (EvDenoise dwav sr device);;
  lift (denoise_model B dwav sr device).

Definition enhance (dwav : buffer) (sr : Z) (device : string)
    (nfe : Z) (solver : string) (lambd tau : float) : M (buffer * Z) :=
  emit (EvEnhance dwav sr device nfe solver lambd tau);;
  lift (enhance_model B dwav sr device nfe solver lambd tau).

(** Opening [file] for writing and filling it with [c]: its directory
    must exist and [file] must not be a directory; an existing file is
    replaced. *)
Definition store (file : path) (c : content B) : M unit :=
  fs ← get_fs;
  if is_dir (lookup_node fs (removelast file)) then
    if is_dir (lookup_node fs file) then raise (os_exn B EISDIR file)
    else put_fs (<[file := File c]> fs)
  else if is_file (lookup_node fs (removelast file)) then
    raise (os_exn B ENOTDIR file)
  else raise (os_exn B ENOENT file).

(** [sf.write(file, data, samplerate, format=format)]. *)
Definition sf_write (file : path) (data : buffer) (samplerate : Z)
    (format : string) : M unit :=
  emit (EvWrite file data samplerate format);;
  match encode B data samplerate format with
  | Written c => store file c
  | Refused e => raise e
  | Interrupted c e => store file c;; raise e
  end.

(** [p.mkdir(parents=True, exist_ok=True)]: every missing directory on
    the way to [p] is created.  A regular file at [p] is the error "file
    exists", one further up the error "not a directory"; either way
    nothing is created.  [seen] is the part of the path already walked,
    [todo] the rest. *)
Fixpoint mkdir_from (fs : fsmap) (seen todo : path) : result fsmap :=
  match todo with
  | [] => inr fs
  | c :: rest =>
      let p : path := PyPath.joinpath seen c in
      match fs !! p with
      | Some (File _) =>
          inl (os_exn B (match rest with [] => EEXIST | _ => ENOTDIR end)
                 (p ++ rest))
      | Some Dir => mkdir_from fs p rest
      | None => mkdir_from (<[p := Dir]> fs) p rest
      end
  end.

Definition mkdir (p : path) : M unit :=
  fs ← get_fs;
  fs' ← lift (mkdir_from fs [] p);
  put_fs fs'.

(** [p.exists()]. *)
Definition exists_ (p : path) : M bool :=
  fs ← get_fs; mret (bool_decide (is_Some (lookup_node fs p))).

(** [list(root.rglob('*.' + audio_format))]: every entry strictly below
    [root], of any kind, whose name matches.  The order is the one the
    file system lists them in. *)
Definition rglob_fs (fs : fsmap) (root : path) (audio_format : string) : list path :=
  if is_dir (lookup_node fs root) then
    filter
      (fun p : path => PyPath.below root p
                       && PyPath.fnmatch_ext audio_format (PyPath.name p))
      (map_to_list fs).*1
  else [].

Definition rglob (root : path) (audio_format : string) : M (list path) :=
  fs ← get_fs; mret (rglob_fs fs root audio_format).

(** ** class AudioEnhancer *)

Record AudioEnhancer := { device : string }.

(** [__init__]: the device is chosen once, from [torch.cuda.is_available()]. *)
Definition init (cuda_is_available : bool) : M AudioEnhancer :=
  let self := {| device := if cuda_is_available then "cuda" else "cpu" |} in
  print ("Using device: " +:+ device self);;
  mret self.

(** [denoise_and_enhance(self, audio_path, solver, nfe, tau, denoising)].
    Moving the results to host memory ([.cpu().numpy()]) does not change
    the samples and is left out. *)
Definition denoise_and_enhance (self : AudioEnhancer) (audio_path : path)
    (solver : string) (nfe : pynum) (tau : float) (denoising : bool)
    : M ((Z * buffer) * (Z * buffer)) :=
  let solver := PyStr.lower solver in
  nfe ← lift (py_int nfe);
  let lambd := if denoising then 0.9%float else 0.1%float in
  '(dwav, sr) ← torchaudio_load audio_path;
  let dwav := mean_dim0 dwav in
  '(wav_denoised, new_sr) ← denoise dwav sr (device self);
  '(wav_enhanced, new_sr) ← enhance dwav sr (device self) nfe solver lambd tau;
  mret ((new_sr, wav_denoised), (new_sr, wav_enhanced)).

(** The statements inside the [try] of [process_directory], for one
    [audio_file]. *)
Definition try_body (self : AudioEnhancer) (output_path : path)
    (audio_format solver : string) (nfe : pynum) (tau : float)
    (denoising use_enhanced : bool) (audio_file : path) : M unit :=
  '(denoised_output, enhanced_output) ←
    denoise_and_enhance self audio_file solver nfe tau denoising;
  let '(sample_rate, audio_array) :=
    if use_enhanced then enhanced_output else denoised_output in
  let output_filename := PyPath.joinpath output_path (PyPath.name audio_file) in
  sf_write output_filename audio_array sample_rate (PyStr.lower audio_format).

(** The [for audio_file in audio_files] loop: the [except] clause prints
    and continues, the counter grows only when the [try] block ends. *)
Fixpoint for_audio_files (self : AudioEnhancer) (output_path : path)
    (audio_format solver : string) (nfe : pynum) (tau : float)
    (denoising use_enhanced : bool)
    (audio_files : list path) (successful_count : nat) : M nat :=
  match audio_files with
  | [] => mret successful_count
  | audio_file :: rest =>
      successful_count ←
        try_except
          (try_body self output_path audio_format solver nfe tau
             denoising use_enhanced audio_file;;
           mret (S successful_count))
          (fun e =>
             print ("Error processing " +:+ PyPath.name audio_file +:+ ": "
                    +:+ exn_str e);;
             mret successful_count);
      for_audio_files self output_path audio_format solver nfe tau
        denoising use_enhanced rest successful_count
  end.

(** [process_directory(self, input_dir, output_dir, audio_format, solver,
    nfe, tau, denoising, use_enhanced)].  The progress bar of [tqdm] goes
    to standard error and is left out. *)
Definition process_directory (self : AudioEnhancer) (input_dir output_dir : string)
    (audio_format solver : string) (nfe : pynum) (tau : float)
    (denoising use_enhanced : bool) : M nat :=
  let input_path := PyPath.Path input_dir in
  let output_path := PyPath.Path output_dir in
  mkdir output_path;;
  audio_files ← rglob input_path audio_format;
  print ("Found " +:+ pretty (length audio_files) +:+ " "
         +:+ PyStr.upper audio_format +:+ " files to process");;
  match audio_files with
  | [] => print "No audio files found!";; mret 0
  | _ =>
      successful_count ←
        for_audio_files self output_path audio_format solver nfe tau
          denoising use_enhanced audio_files 0;
      print ("Successfully processed " +:+ pretty successful_count +:+ "/"
             +:+ pretty (length audio_files) +:+ " audio files");;
      mret successful_count
  end.

(** [verify_output(self, output_dir, audio_format)]. *)
Definition verify_output (self : AudioEnhancer) (output_dir : string)
    (audio_format : string) : M nat :=
  let output_path := PyPath.Path output_dir in
  found ← exists_ output_path;
  if negb found then
    print ("Output directory " +:+ output_dir +:+ " does not exist!");;
    mret 0
  else
    processed_files ← rglob output_path audio_format;
    print ("Found " +:+ pretty (length processed_files) +:+ " processed "
           +:+ PyStr.upper audio_format +:+ " files in output directory");;
    mret (length processed_files).

(** [main()], with its [CONFIG]. *)
Definition main (cuda_is_available : bool) : M unit :=
  enhancer ← init cuda_is_available;
  successful_count ←
    process_directory enhancer "./dataset/wavs" "./dataset/wavs_enhanced"
      "wav" "Midpoint" (PyInt 64) 0.7%float true true;
  if (0 <? successful_count)%nat then
    verify_output enhancer "./dataset/wavs_enhanced" "wav";; mret tt
  else print "No files were successfully processed!".

(** ** The iterations of a batch

    One record per iteration of the loop: the file, the world before the
    [try] block, the world when the block ended or raised, and how it
    ended, and the world the loop goes on from: after a failure that is
    the world in which the error line has been printed. *)

Record attempt := {
  att_file : path;
  att_before : world;
  att_after : world;
  att_result : result unit;
  att_next : world
}.

Definition error_line (audio_file : path) (e : exn) : string :=
  "Error processing " +:+ PyPath.name audio_file +:+ ": " +:+ exn_str e.

(** The world the loop goes on from after the iteration for
    [audio_file]. *)
Definition next_world (self : AudioEnhancer) (output_path : path)
    (audio_format solver : string) (nfe : pynum) (tau : float)
    (denoising use_enhanced : bool) (audio_file : path) (w : world) : world :=
  let r := try_body self output_path audio_format solver nfe tau
             denoising use_enhanced audio_file w in
  match r.2 with
  | inr _ => r.1
  | inl e => (print (error_line audio_file e) r.1).1
  end.

Fixpoint attempts (self : AudioEnhancer) (output_path : path)
    (audio_format solver : string) (nfe : pynum) (tau : float)
    (denoising use_enhanced : bool)
    (audio_files : list path) (w : world) : list attempt :=
  match audio_files with
  | [] => []
  | audio_file :: rest =>
      let r := try_body self output_path audio_format solver nfe tau
                 denoising use_enhanced audio_file w in
      let next := next_world self output_path audio_format solver nfe tau
                    denoising use_enhanced audio_file w in
      {| att_file := audio_file; att_before := w;
         att_after := r.1; att_result := r.2; att_next := next |}
      :: attempts self output_path audio_format solver nfe tau
           denoising use_enhanced rest next
  end.

Definition att_ok (a : attempt) : bool :=
  match att_result a with inr _ => true | inl _ => false end.

Definition succeeded (atts : list attempt) : list attempt :=
  filter (fun a => att_ok a) atts.

Definition failed (atts : list attempt) : list attempt :=
  filter (fun a => negb (att_ok a)) atts.

(** The lines the [except] clause prints for a run, in order. *)
Definition error_lines (atts : list attempt) : list string :=
  flat_map
    (fun a => match att_result a with
              | inl e => [error_line (att_file a) e]
              | inr _ => []
              end)
    atts.

(** The world a loop over [atts] that started in [w] ends in. *)
Definition loop_end (atts : list attempt) (w : world) : world :=
  from_option att_next w (last atts).

(** Where an iteration writes: [output_path / audio_file.name]. *)
Definition output_filename (output_path audio_file : path) : path :=
  PyPath.joinpath output_path (PyPath.name audio_file).

(** Every entry strictly below [root]. *)
Definition ls_below (fs : fsmap) (root : path) : list path :=
  filter (fun p : path => PyPath.below root p) (map_to_list fs).*1.

(** The file system is a tree: every entry sits in a directory. *)
Definition tree (fs : fsmap) : Prop :=
  forall (p : path) (c : string),
    is_Some (fs !! (p ++ [c])) -> is_dir (lookup_node fs p) = true.

(** The samples the channels of [dwav] hold at frame [t]. *)
Definition column (t : nat) (dwav : tensor) : list (sample B) :=
  omap (fun ch : buffer => ch !! t) dwav.

(** The world with more library calls recorded, or more lines printed. *)
Definition add_calls (w : world) (evs : list event) : world :=
  World (fs w) (stdout w) (calls w ++ evs).

Definition add_lines (w : world) (lines : list string) : world :=
  World (fs w) (stdout w ++ lines) (calls w).

Definition found_line (n : nat) (audio_format : string) : string :=
  "Found " +:+ pretty n +:+ " " +:+ PyStr.upper audio_format
  +:+ " files to process".

Definition summary_line (successful_count n : nat) : string :=
  "Successfully processed " +:+ pretty successful_count +:+ "/"
  +:+ pretty n +:+ " audio files".

(** The last line of a run that scanned [files]. *)
Definition closing_line (files : list path) (successful_count : nat) : string :=
  match files with
  | [] => "No audio files found!"
  | _ => summary_line successful_count (length files)
  end.

End Model.

Arguments World {B} _ _ _.
Arguments fs {B} _.
Arguments stdout {B} _.
Arguments calls {B} _.
Arguments att_file {B} _.
Arguments att_before {B} _.
Arguments att_after {B} _.
Arguments att_result {B} _.
Arguments att_next {B} _.
Arguments att_ok {B} _.
Arguments succeeded {B} _.
Arguments failed {B} _.
Arguments error_lines {B} _.
Arguments loop_end {B} _ _.
Arguments add_calls {B} _ _.
Arguments add_lines {B} _ _.
Arguments EvLoad {B} _.
Arguments EvDenoise {B} _ _ _.
Arguments EvEnhance {B} _ _ _ _ _ _ _.
Arguments EvWrite {B} _ _ _ _.

(** ** A small concrete backend

    Used to run the model on concrete directories: samples are integers,
    a stored file is a string, the text ["corrupt"] does not decode, every
    other file decodes to two channels built from its length.  The
    denoiser and the enhancer answer with different sample rates. *)

Module Stub.

Definition decode (c : string) : result (list (list Z) * Z) :=
  if String.eqb c "corrupt" then inl (Exception "Error opening file: invalid data")
  else
    let n := Z.of_nat (String.length c) in
    inr ([[n; 2 * n; 4]; [n + 2; 0; 8]]%Z, 16000%Z).

Definition denoise_model (dwav : list Z) (sr : Z) (device : string)
    : result (list Z * Z) :=
  inr (map (fun s => s - 1)%Z dwav, 44100%Z).

Definition enhance_model (dwav : list Z) (sr : Z) (device : string)
    (nfe : Z) (solver : string) (lambd tau : float) : result (list Z * Z) :=
  if (nfe <=? 0)%Z then inl (Exception "nfe must be positive")
  else inr (map (fun s => s + nfe)%Z dwav, 48000%Z).

Definition encode (data : list Z) (samplerate : Z) (format : string)
    : write_outcome string :=
  if String.eqb format "wav" then
    Written (format +:+ "@" +:+ pretty samplerate +:+ ":"
             +:+ String.concat "," (map pretty data))
  else Refused (Exception ("Unknown format: " +:+ format)).

Definition os_exn (err : os_error) (p : path) : exn :=
  Exception
    (match err with
     | ENOENT => "No such file or directory: "
     | EEXIST => "File exists: "
     | EISDIR => "Is a directory: "
     | ENOTDIR => "Not a directory: "
     end +:+ PyPath.str p).

Definition backend : Backend :=
  Build_Backend Z Z.add (fun s n => (s / Z.of_nat n)%Z)
    string decode denoise_model enhance_model encode os_exn.

Definition empty_world (files : gmap path (node string)) : world backend :=
  World (B := backend) files [] [].

Definition self : AudioEnhancer := {| device := "cpu" |}.

(** Two recordings with the same name in different sub-directories. *)
Definition twins : gmap path (node string) :=
  list_to_map
    [ (["input"], Dir);
      (["input"; "a"], Dir);
      (["input"; "a"; "x.wav"], File "first");
      (["input"; "b"], Dir);
      (["input"; "b"; "x.wav"], File "second!") ].

(** Three recordings, the second of which does not decode. *)
Definition mixed : gmap path (node string) :=
  list_to_map
    [ (["input"], Dir);
      (["input"; "a.wav"], File "good");
      (["input"; "b.wav"], File "corrupt");
      (["input"; "sub"], Dir);
      (["input"; "sub"; "c.wav"], File "fine too") ].

(** One recording two directories down. *)
Definition nested : gmap path (node string) :=
  list_to_map
    [ (["input"], Dir);
      (["input"; "a"], Dir);
      (["input"; "a"; "b"], Dir);
      (["input"; "a"; "b"; "x.wav"], File "deep") ].

(** Two recordings with different names. *)
Definition distinct : gmap path (node string) :=
  list_to_map
    [ (["input"], Dir);
      (["input"; "a"], Dir);
      (["input"; "a"; "x.wav"], File "first");
      (["input"; "b"], Dir);
      (["input"; "b"; "y.wav"], File "second!") ].

(** Nothing with the extension. *)
Definition no_audio : gmap path (node string) :=
  list_to_map
    [ (["input"], Dir);
      (["input"; "notes.txt"], File "todo") ].

(** One recording, and an output directory that already holds a file. *)
Definition stale : gmap path (node string) :=
  list_to_map
    [ (["input"], Dir);
      (["input"; "x.wav"], File "new");
      (["output"], Dir);
      (["output"; "old.wav"], File "left over") ].

(** One recording, and a regular file where the output directory should
    go. *)
Definition blocked : gmap path (node string) :=
  list_to_map
    [ (["input"], Dir);
      (["input"; "x.wav"], File "new");
      (["output"], File "not a directory") ].

(** The data set [main] expects, with one recording in it. *)
Definition dataset : gmap path (node string) :=
  list_to_map
    [ (["dataset"], Dir);
      (["dataset"; "wavs"], Dir);
      (["dataset"; "wavs"; "clip.wav"], File "speech") ].

(** [process_directory] with the configuration of [main], on the
    directories ["input"] and ["output"]. *)
Definition batch (files : gmap path (node string)) : world backend * result nat :=
  process_directory backend self "input" "output" "wav" "Midpoint"
    (PyInt 64) 0.7%float true true (empty_world files).

(** The world [mkdir] leaves when the run starts in [files]. *)
Definition prepared (files : gmap path (node string)) : world backend :=
  (mkdir backend (PyPath.Path "output") (empty_world files)).1.

(** The iterations of [batch files]. *)
Definition batch_attempts (files : gmap path (node string)) : list (attempt backend) :=
  let found := rglob_fs backend (fs (prepared files)) (PyPath.Path "input") "wav" in
  attempts backend self (PyPath.Path "output") "wav" "Midpoint" (PyInt 64)
    0.7%float true true found
    (add_lines (prepared files) [found_line (length found) "wav"]).

End Stub.

(** * Data set export ([src/xtts/generate_data.py])

    The script that produces the directory the enhancer later reads: it
    checks the environment, loads a data set, splits it, and writes every
    sample of each split as a WAV file next to a CSV file of metadata.
    It runs on the same [world]; what it takes from numpy, scipy, csv and
    datasets is a [DataLib] record. *)

(** ** The environment check (lines 10-33) *)

Definition required_env_vars : list string :=
  ["AWS_ACCESS_KEY_ID"; "AWS_SECRET_ACCESS_KEY"; "AWS_ENDPOINT_URL_S3"].

(** The truth value of [os.environ.get(var)]: a variable that is unset, or
    set to the empty string, is false. *)
Definition truthy (value : option string) : bool :=
  match value with
  | Some v => negb (String.eqb v "")
  | None => false
  end.

(** The loop that collects [missing_vars]. *)
Definition missing_vars (environ : gmap string string) : list string :=
  fold_left
    (fun missing var => if truthy (environ !! var) then missing else missing ++ [var])
    required_env_vars [].

Definition newline : string := String (ascii_of_nat 10) EmptyString.

Definition error_message (missing_vars : list string) : string :=
  let error_message :=
    "Missing required environment variables: "
    +:+ String.concat ", " missing_vars +:+ newline in
  let error_message :=
    error_message
    +:+ "Please export these variables before running the script:" +:+ newline in
  fold_left
    (fun error_message var =>
       error_message +:+ "export " +:+ var +:+ "=<your_value>" +:+ newline)
    missing_vars error_message.

Record storage_options := {
  so_key : string;
  so_secret : string;
  so_endpoint_url : string
}.

(** [os.environ[var]]: a missing variable is a [KeyError]. *)
Definition environ_getitem (environ : gmap string string) (var : string)
    : result string :=
  match environ !! var with
  | Some v => inr v
  | None => inl (Exception ("'" +:+ var +:+ "'"))
  end.

(** Lines 16-33: the [EnvironmentError], or the storage options. *)
Definition check_environment (environ : gmap string string)
    : result storage_options :=
  let missing := missing_vars environ in
  match missing with
  | _ :: _ => inl (Exception (error_message missing))
  | [] =>
      match environ_getitem environ "AWS_ACCESS_KEY_ID" with
      | inl e => inl e
      | inr k =>
          match environ_getitem environ "AWS_SECRET_ACCESS_KEY" with
          | inl e => inl e
          | inr s =>
              match environ_getitem environ "AWS_ENDPOINT_URL_S3" with
              | inl e => inl e
              | inr u =>
                  inr {| so_key := k; so_secret := s; so_endpoint_url := u |}
              end
          end
      end
  end.

(** ** Text of a sample (lines 69-73) *)

(** The character classes [\d] and [\s] on ASCII text. *)
Inductive char_class := Digits | Whitespace.

Definition in_class (c : char_class) (a : ascii) : bool :=
  let n := nat_of_ascii a in
  match c with
  | Digits => (48 <=? n)%nat && (n <=? 57)%nat
  | Whitespace =>
      ((9 <=? n)%nat && (n <=? 13)%nat) || ((28 <=? n)%nat && (n <=? 32)%nat)
  end.

(** Matching [^c1+c2+...] at the start of [s], the way a backtracking
    engine does: each class takes as many characters as it can and gives
    some back when the rest of the pattern does not match.  The result
    is the text after the match. *)
Fixpoint re_match_plus (s : string) (pattern : list char_class) : option string :=
  match pattern with
  | [] => Some s
  | c :: rest =>
      match s with
      | EmptyString => None
      | String a s' =>
          if in_class c a then
            match re_match_plus s' (c :: rest) with
            | Some after => Some after
            | None => re_match_plus s' rest
            end
          else None
      end
  end.

(** [re.sub(r'^\d+\s+', '', text)]: the anchored pattern can match at the
    start only, so at most one piece is removed. *)
Definition clean_text (text : string) : string :=
  match re_match_plus text [Digits; Whitespace] with
  | Some after => after
  | None => text
  end.

(** [s.replace(" ", "")]. *)
Fixpoint remove_spaces (s : string) : string :=
  match s with
  | EmptyString => EmptyString
  | String a s' =>
      if Ascii.eqb a " " then remove_spaces s' else String a (remove_spaces s')
  end.

(** [f"@{speaker_name.replace(' ', '').upper()}"]. *)
Definition speaker_tag (speaker_name : string) : string :=
  "@" +:+ PyStr.upper (remove_spaces speaker_name).

Fixpoint zeros (n : nat) : string :=
  match n with
  | O => EmptyString
  | S n' => String "0" (zeros n')
  end.

(** [f"{i:06d}"]: decimal, padded with zeros on the left to six
    characters. *)
Definition format_06d (i : nat) : string :=
  let digits := pretty i in
  zeros (6 - String.length digits) +:+ digits.

Definition wav_filename (i : nat) : string := format_06d i +:+ ".wav".

(** [output_dir], [wavs_dir] and the two metadata paths (lines 48-53);
    [os.path.join] adds a component. *)
Definition output_dir : path := PyPath.Path "dataset".
Definition wavs_dir : path := PyPath.joinpath output_dir "wavs".
Definition metadata_train_path : path := PyPath.joinpath output_dir "metadata_train.csv".
Definition metadata_eval_path : path := PyPath.joinpath output_dir "metadata_eval.csv".

Definition wav_path (i : nat) : path := PyPath.joinpath wavs_dir (wav_filename i).

(** ** Reading the texts back

    What the theorems about the texts are stated with. *)

(** Every character of [s] satisfies [p]. *)
Fixpoint all_chars (p : ascii -> bool) (s : string) : bool :=
  match s with
  | EmptyString => true
  | String a s' => p a && all_chars p s'
  end.

(** [s] starts with a character of class [c]. *)
Definition starts_in (c : char_class) (s : string) : bool :=
  match s with
  | EmptyString => false
  | String a _ => in_class c a
  end.



(** The number a decimal text stands for. *)
Definition digit_value (a : ascii) : N := N.of_nat (nat_of_ascii a - 48).

Fixpoint decimal (s : string) : N :=
  match s with
  | EmptyString => 0
  | String a s' => digit_value a * 10 ^ N.of_nat (String.length s') + decimal s'
  end.

(** ** The libraries behind the export *)

(** One element of a split, as lines 65-71 read it:
    [sample['audio']['array']], [sample['audio']['sampling_rate']],
    [sample['text']] and [sample['speaker_name']]. *)
Record ds_sample (A : Type) := {
  ds_audio_array : A;
  ds_sampling_rate : Z;
  ds_text : string;
  ds_speaker_name : string
}.

Arguments ds_audio_array {A} _.
Arguments ds_sampling_rate {A} _.
Arguments ds_text {A} _.
Arguments ds_speaker_name {A} _.

Record DataLib (B : Backend) := {
  audio : Type;
  wave : Type;
  dataset : Type;
  (* np.array(audio_array, dtype=np.float32) *)
  np_float32 : audio -> result wave;
  (* what scipy.io.wavfile.write makes of (rate, data); scipy opens the
     file before it looks at the data, so its failures are of the kind
     Interrupted *)
  wavfile_write : Z -> wave -> write_outcome (content B);
  (* the text csv.writer(csvfile, delimiter='|') produces for the rows *)
  csv_encode : list (list string) -> content B;
  (* load_from_disk(PATH, storage_options=storage_options) *)
  load_from_disk : string -> storage_options -> result dataset;
  (* ds.train_test_split(test_size=, seed=): the splits by name.  An
     element of a split is the sample, or the exception that reading it
     in lines 65-71 raises (the audio does not decode, a field is
     missing or is not text); nothing has been printed or written by
     then *)
  train_test_split :
    dataset -> float -> Z ->
    result (string -> option (list (result (ds_sample audio))))
}.

Arguments audio {B} _.
Arguments wave {B} _.
Arguments dataset {B} _.
Arguments np_float32 {B} _ _.
Arguments wavfile_write {B} _ _ _.
Arguments csv_encode {B} _ _.
Arguments load_from_disk {B} _ _ _.
Arguments train_test_split {B} _ _ _ _.

Section GenerateData.

Variable B : Backend.
Variable L : DataLib B.

Abbreviation item := (result (ds_sample (audio L))).

(** [scipy.io.wavfile.write(wav_path, sampling_rate, data)]. *)
Definition scipy_write (file : path) (rate : Z) (data : wave L) : M B unit :=
  match wavfile_write L rate data with
  | Written c => store B file c
  | Refused e => raise B e
  | Interrupted c e => store B file c;; raise B e
  end.

(** The metadata row of sample [i]. *)
Definition csv_row (i : nat) (sample : ds_sample (audio L)) : list string :=
  [ "wavs/" +:+ wav_filename i;
    clean_text (ds_text sample);
    speaker_tag (ds_speaker_name sample) ].

(** The statements inside the [try] of [export_data] for index [i]; the
    value is the row handed to [writer.writerow].  Nothing after
    [writerow] can raise, so the row is written exactly when the block
    ends normally. *)
Definition export_sample (i : nat) (dataset_i : item) : M B (list string) :=
  sample ← lift B dataset_i;
  let audio_array := ds_audio_array sample in
  let sampling_rate := ds_sampling_rate sample in
  let text := clean_text (ds_text sample) in
  let speaker := speaker_tag (ds_speaker_name sample) in
  print B speaker;;
  let wav_filename := wav_filename i in
  let wav_path := PyPath.joinpath wavs_dir wav_filename in
  data ← lift B (np_float32 L audio_array);
  scipy_write wav_path sampling_rate data;;
  let row := ["wavs/" +:+ wav_filename; text; speaker] in
  print B speaker;;
  print B ("Exported " +:+ pretty i);;
  mret row.

(** The [try] statement of the loop body: [rows] is what the writer has
    been given so far. *)
Definition export_iteration (i : nat) (dataset_i : item)
    (rows : list (list string)) : M B (list (list string)) :=
  try_except B
    (row ← export_sample i dataset_i; mret (rows ++ [row]))
    (fun e =>
       print B ("Skipped " +:+ pretty i +:+ "  : " +:+ exn_str e);;
       mret rows).

(** [while i < len(dataset)]: [todo] are the samples from index [i]
    on. *)
Fixpoint export_loop (todo : list item) (i : nat) (rows : list (list string))
    : M B (list (list string)) :=
  match todo with
  | [] => mret rows
  | dataset_i :: rest =>
      rows ← export_iteration i dataset_i rows;
      export_loop rest (S i) rows
  end.

(** Leaving the [with] block: the rows given to the writer are in the
    file. *)
Definition close_csv (csv_path : path) (rows : list (list string)) : M B unit :=
  fs ← get_fs B;
  put_fs B (<[csv_path := File (csv_encode L rows)]> fs).

(** [export_data(split, csv_path)], for the splits [ds].  Opening the
    file creates or empties it; a split that [ds] does not have is a
    [KeyError], raised with the header already written. *)
Definition export_data (ds : string -> option (list item))
    (split : string) (csv_path : path) : M B unit :=
  store B csv_path (csv_encode L []);;
  let header := ["audio_file"; "text"; "speaker_name"] in
  match ds split with
  | None =>
      close_csv csv_path [header];;
      raise B (Exception ("'" +:+ split +:+ "'"))
  | Some dataset =>
      rows ← export_loop dataset 0 [header];
      close_csv csv_path rows
  end.

(** The script: lines 10-37, 48-50 and 89-90. *)
Definition generate_data (environ : gmap string string) : M B unit :=
  storage_options ← lift B (check_environment environ);
  ds ← lift B (load_from_disk L "s3://burkimbia/audios/final_dataset"
                 storage_options);
  ds ← lift B (train_test_split L ds 0.002%float 42%Z);
  mkdir B wavs_dir;;
  export_data ds "train" metadata_train_path;;
  export_data ds "test" metadata_eval_path.

(** ** The export in closed form

    When the WAV files can be opened, what the loop does with a sample
    depends on the sample alone. *)

(** The sample and its encoded recording, or the exception that makes
    the loop skip it. *)
Definition converted (dataset_i : item) : result (ds_sample (audio L) * content B) :=
  match dataset_i with
  | inl e => inl e
  | inr sample =>
      match np_float32 L (ds_audio_array sample) with
      | inl e => inl e
      | inr data =>
          match wavfile_write L (ds_sampling_rate sample) data with
          | Written c => inr (sample, c)
          | Refused e => inl e
          | Interrupted _ e => inl e
          end
      end
  end.

(** What is in the WAV file afterwards, if it was opened at all. *)
Definition wav_after (dataset_i : item) : option (content B) :=
  match dataset_i with
  | inl _ => None
  | inr sample =>
      match np_float32 L (ds_audio_array sample) with
      | inl _ => None
      | inr data =>
          match wavfile_write L (ds_sampling_rate sample) data with
          | Written c => Some c
          | Refused _ => None
          | Interrupted c _ => Some c
          end
      end
  end.

Definition skip_line (i : nat) (e : exn) : string :=
  "Skipped " +:+ pretty i +:+ "  : " +:+ exn_str e.

(** The lines one iteration prints. *)
Definition sample_lines (i : nat) (dataset_i : item) : list string :=
  match dataset_i with
  | inl e => [skip_line i e]
  | inr sample =>
      let speaker := speaker_tag (ds_speaker_name sample) in
      match converted dataset_i with
      | inl e => [speaker; skip_line i e]
      | inr _ => [speaker; speaker; "Exported " +:+ pretty i]
      end
  end.

(** Rows, lines and files of the samples [todo], numbered from [i]. *)
Fixpoint rows_from (todo : list item) (i : nat) : list (list string) :=
  match todo with
  | [] => []
  | dataset_i :: rest =>
      match converted dataset_i with
      | inr (sample, _) => csv_row i sample :: rows_from rest (S i)
      | inl _ => rows_from rest (S i)
      end
  end.

Fixpoint lines_from (todo : list item) (i : nat) : list string :=
  match todo with
  | [] => []
  | dataset_i :: rest => sample_lines i dataset_i ++ lines_from rest (S i)
  end.

Fixpoint wavs_from (todo : list item) (i : nat)
    (fs : gmap path (node (content B))) : gmap path (node (content B)) :=
  match todo with
  | [] => fs
  | dataset_i :: rest =>
      wavs_from rest (S i)
        match wav_after dataset_i with
        | Some c => <[wav_path i := File c]> fs
        | None => fs
        end
  end.

Definition header : list string := ["audio_file"; "text"; "speaker_name"].

(** The sub-directories of [root]: none of them may sit where a WAV file
    is to go. *)
Definition dirs_below (fs : gmap path (node (content B))) (root : path) : list path :=
  filter (fun q : path => is_dir (fs !! q)) (ls_below B fs root).

(** The WAV files can be written: [wavs_dir] is a directory and holds
    no directory. *)
Definition wavs_ready (fs : gmap path (node (content B))) : bool :=
  is_dir (lookup_node B fs wavs_dir)
  && match dirs_below fs wavs_dir with [] => true | _ :: _ => false end.

(** [file] can be opened for writing: its directory exists and [file]
    is not a directory. *)
Definition can_open (fs : gmap path (node (content B))) (file : path) : bool :=
  is_dir (lookup_node B fs (removelast file))
  && negb (is_dir (lookup_node B fs file)).

End GenerateData.

Arguments csv_row {B} _ _ _.
Arguments scipy_write {B} _ _ _ _.
Arguments export_sample {B} _ _ _.
Arguments export_iteration {B} _ _ _ _.
Arguments export_loop {B} _ _ _ _.
Arguments close_csv {B} _ _ _.
Arguments export_data {B} _ _ _ _.
Arguments generate_data {B} _ _.
Arguments converted {B} _ _.
Arguments wav_after {B} _ _.
Arguments sample_lines {B} _ _ _.
Arguments rows_from {B} _ _ _.
Arguments lines_from {B} _ _ _.
Arguments wavs_from {B} _ _ _ _.

(** ** A small concrete data library

    Recordings are lists of integers.  The WAV writer fails on a
    negative sampling rate, leaving an empty file, and on a recording of
    more than four samples, which does not fit on the disk.  The data
    set on disk holds five samples, the last of which becomes the test
    split. *)

Module StubData.

Definition np_float32 (audio_array : list Z) : result (list Z) := inr audio_array.

Definition wavfile_write (rate : Z) (data : list Z) : write_outcome string :=
  if (rate <? 0)%Z then Interrupted "" (Exception "argument out of range")
  else if (4 <? length data)%nat then
    Interrupted "RIFF" (Exception "No space left on device")
  else Written ("RIFF@" +:+ pretty rate +:+ ":" +:+ String.concat "," (map pretty data)).

Definition crlf : string :=
  String (ascii_of_nat 13) (String (ascii_of_nat 10) EmptyString).

Definition csv_encode (rows : list (list string)) : string :=
  String.concat "" (map (fun row => String.concat "|" row +:+ crlf) rows).

Definition recording (audio_array : list Z) (rate : Z) (text speaker_name : string)
    : ds_sample (list Z) :=
  {| ds_audio_array := audio_array; ds_sampling_rate := rate;
     ds_text := text; ds_speaker_name := speaker_name |}.

Definition greeting : ds_sample (list Z) :=
  recording [1; 2; 3]%Z 16000 "12  ne y windga" "Awa Sawadogo".

Definition bad_rate : ds_sample (list Z) :=
  recording [4; 5]%Z (-1) "laafi bala" "issa".

Definition too_long : ds_sample (list Z) :=
  recording [1; 1; 1; 1; 1; 1]%Z 16000 "7 yibeogo" "Awa  Sawadogo".

Definition held_out : ds_sample (list Z) :=
  recording [9]%Z 22050 "3 wend na kond" "Issa".

Definition corpus : list (result (ds_sample (list Z))) :=
  [ inr greeting; inl (Exception "Error decoding audio"); inr bad_rate;
    inr too_long; inr held_out ].

Definition load_from_disk (PATH : string) (options : storage_options)
    : result (list (result (ds_sample (list Z)))) :=
  if String.eqb (so_endpoint_url options) "https://down.example" then
    inl (Exception "Could not connect to the endpoint URL")
  else inr corpus.

Definition train_test_split (ds : list (result (ds_sample (list Z))))
    (test_size : float) (seed : Z)
    : result (string -> option (list (result (ds_sample (list Z))))) :=
  match ds with
  | [] | [_] => inl (Exception "the resulting train set will be empty")
  | _ =>
      inr (fun split =>
             if String.eqb split "train" then Some (take (length ds - 1) ds)
             else if String.eqb split "test" then Some (drop (length ds - 1) ds)
             else None)
  end.

Definition lib : DataLib Stub.backend :=
  Build_DataLib Stub.backend (list Z) (list Z)
    (list (result (ds_sample (list Z))))
    np_float32 wavfile_write csv_encode load_from_disk train_test_split.

Definition environ : gmap string string :=
  {[ "AWS_ACCESS_KEY_ID" := "AKIA"; "AWS_SECRET_ACCESS_KEY" := "s3cr3t";
     "AWS_ENDPOINT_URL_S3" := "https://s3.example" ]}.

(** One variable unset, one set to the empty text. *)
Definition partial_environ : gmap string string :=
  {[ "AWS_ACCESS_KEY_ID" := "AKIA"; "AWS_ENDPOINT_URL_S3" := "" ]}.

Definition options : storage_options :=
  {| so_key := "AKIA"; so_secret := "s3cr3t";
     so_endpoint_url := "https://s3.example" |}.

Definition splits : string -> option (list (result (ds_sample (list Z)))) :=
  fun split =>
    match train_test_split corpus 0.002%float 42%Z with
    | inr ds => ds split
    | inl _ => None
    end.

Definition train : list (result (ds_sample (list Z))) := take 4 corpus.

Definition test : list (result (ds_sample (list Z))) := drop 4 corpus.

(** An empty working directory, and one in which [dataset/wavs] exists. *)
Definition fresh : world Stub.backend := Stub.empty_world ∅.

Definition ready : world Stub.backend :=
  Stub.empty_world {[ ["dataset"] := Dir; ["dataset"; "wavs"] := Dir ]}.

End StubData.

(** * Properties *)

(** ** Strings and paths *)

Lemma lower_ascii_idem (c : ascii) :
  PyStr.lower_ascii (PyStr.lower_ascii c) = PyStr.lower_ascii c.
Proof. destruct c as [[] [] [] [] [] [] [] []]; reflexivity. Qed.

Lemma lower_idem (s : string) : PyStr.lower (PyStr.lower s) = PyStr.lower s.
Proof.
  induction s as [|c s IH]; simpl; [reflexivity|].
  by rewrite lower_ascii_idem, IH.
Qed.

Lemma lower_length (s : string) : String.length (PyStr.lower s) = String.length s.
Proof. induction s as [|c s IH]; simpl; congruence. Qed.

Lemma py_int_of_int (z : Z) : py_int (PyInt z) = inr z.
Proof. reflexivity. Qed.

Lemma blend_weights_differ : 0.9%float <> 0.1%float.
Proof.
  intros H.
  apply (f_equal (fun x => PrimFloat.ltb x 0.5%float)) in H.
  vm_compute in H. discriminate.
Qed.

Lemma below_spec (p q : path) :
  PyPath.below p q = true <-> exists c rest, q = (p ++ c :: rest)%list.
Proof.
  revert q. induction p as [|a p IH]; intros [|b q]; simpl.
  - split; [discriminate|]. intros (c & rest & H). discriminate.
  - split; [eauto|done].
  - split; [discriminate|]. intros (c & rest & H). discriminate.
  - rewrite andb_true_iff, String.eqb_eq, IH. split.
    + intros [-> (c & rest & ->)]. eauto.
    + intros (c & rest & H). injection H as -> ->. eauto.
Qed.

Lemma below_joinpath (p : path) (c : string) :
  PyPath.below p (PyPath.joinpath p c) = true.
Proof. apply below_spec. by exists c, []. Qed.

Lemma below_irrefl (p : path) : PyPath.below p p = false.
Proof.
  induction p as [|a p IH]; simpl; [done|].
  by rewrite IH, andb_false_r.
Qed.

Lemma below_length (p q : path) :
  PyPath.below p q = true -> length p < length q.
Proof.
  intros (c & rest & ->)%below_spec. rewrite length_app. simpl. lia.
Qed.

Lemma name_joinpath (p : path) (c : string) :
  PyPath.name (PyPath.joinpath p c) = c.
Proof. unfold PyPath.name, PyPath.joinpath. apply last_last. Qed.

Lemma removelast_joinpath (p : path) (c : string) :
  removelast (PyPath.joinpath p c) = p.
Proof. unfold PyPath.joinpath. apply removelast_last. Qed.

Lemma joinpath_inj (p : path) (c d : string) :
  PyPath.joinpath p c = PyPath.joinpath p d -> c = d.
Proof. unfold PyPath.joinpath. intros H. by simplify_list_eq. Qed.

Lemma joinpath_neq (p : path) (c : string) : PyPath.joinpath p c <> p.
Proof.
  intros H. pose proof (below_joinpath p c) as Hb.
  rewrite H, below_irrefl in Hb. discriminate.
Qed.

Lemma joinpath_nonempty (p : path) (c : string) : PyPath.joinpath p c <> [].
Proof. unfold PyPath.joinpath. by destruct p. Qed.

(** ** Lists without repetition *)

Lemma remove_dups_length_le (l : list string) :
  length (remove_dups l) <= length l.
Proof.
  induction l as [|x l IH]; simpl; [done|].
  destruct (decide_rel elem_of x l); simpl; lia.
Qed.

Lemma remove_dups_length_lt (l : list string) :
  ~ NoDup l -> length (remove_dups l) < length l.
Proof.
  induction l as [|x l IH]; intros Hdup; simpl.
  - destruct Hdup. constructor.
  - pose proof (remove_dups_length_le l).
    destruct (decide_rel elem_of x l) as [Hin|Hnin]; simpl; [lia|].
    assert (~ NoDup l) as Hl by (intros Hl; apply Hdup; by constructor).
    specialize (IH Hl). lia.
Qed.

Lemma remove_dups_NoDup_id (l : list string) : NoDup l -> remove_dups l = l.
Proof.
  induction 1 as [|x l Hx _ IH]; simpl; [done|].
  destruct (decide_rel elem_of x l); [done|]. by rewrite IH.
Qed.

Lemma NoDup_joinpath (p : path) (names : list string) :
  NoDup names -> NoDup (PyPath.joinpath p <$> names).
Proof.
  apply NoDup_fmap_2_strong. intros c d _ _. apply joinpath_inj.
Qed.

(** ** The single-file processor *)

Section Processor.

Variable B : Backend.

Implicit Types (w : world B) (self : AudioEnhancer) (p q : path).

Ltac run :=
  unfold mbind, M_bind, mret, M_ret, raise, lift, print, emit, get_fs, put_fs;
  simpl.

Lemma add_calls_app w (evs evs' : list (event B)) :
  add_calls (add_calls w evs) evs' = add_calls w (evs ++ evs').
Proof. unfold add_calls. simpl. by rewrite <- app_assoc. Qed.

Lemma torchaudio_load_eq p w :
  torchaudio_load B p w = (add_calls w [EvLoad p], read_audio B (fs w) p).
Proof. reflexivity. Qed.

(** What a call of the processor does, stage by stage: each stage that
    fails ends the call with the calls made so far. *)
Lemma denoise_and_enhance_eq self p solver nfe tau denoising w :
  denoise_and_enhance B self p solver nfe tau denoising w =
  match py_int nfe with
  | inl e => (w, inl e)
  | inr n =>
    match read_audio B (fs w) p with
    | inl e => (add_calls w [EvLoad p], inl e)
    | inr (dwav, sr) =>
      let mono := mean_dim0 B dwav in
      let lambd := if denoising then 0.9%float else 0.1%float in
      match denoise_model B mono sr (device self) with
      | inl e =>
          (add_calls w [EvLoad p; EvDenoise mono sr (device self)], inl e)
      | inr (wav_denoised, _) =>
        let evs :=
          [EvLoad p; EvDenoise mono sr (device self);
           EvEnhance mono sr (device self) n (PyStr.lower solver) lambd tau] in
        match enhance_model B mono sr (device self) n (PyStr.lower solver)
                lambd tau with
        | inl e => (add_calls w evs, inl e)
        | inr (wav_enhanced, new_sr) =>
            (add_calls w evs,
             inr ((new_sr, wav_denoised), (new_sr, wav_enhanced)))
        end
      end
    end
  end.
Proof.
  unfold denoise_and_enhance, torchaudio_load, denoise, enhance, add_calls.
  run.
  destruct (py_int nfe) as [e|n]; [done|].
  destruct (read_audio B (fs w) p) as [e|[dwav sr]]; [done|]. simpl.
  destruct (denoise_model _ _ _ _) as [e|[wd srd]];
    [by rewrite <- app_assoc|]. simpl.
  destruct (enhance_model _ _ _ _ _ _ _ _) as [e|[we sre]];
    by rewrite <- !app_assoc.
Qed.

Lemma store_eq (file : path) (c : content B) w :
  store B file c w =
  if is_dir (lookup_node B (fs w) (removelast file)) then
    if is_dir (lookup_node B (fs w) file) then (w, inl (os_exn B EISDIR file))
    else (World (<[file := File c]> (fs w)) (stdout w) (calls w), inr tt)
  else if is_file (lookup_node B (fs w) (removelast file)) then
    (w, inl (os_exn B ENOTDIR file))
  else (w, inl (os_exn B ENOENT file)).
Proof.
  unfold store. run.
  destruct (is_dir (lookup_node B (fs w) (removelast file))).
  - by destruct (is_dir (lookup_node B (fs w) file)).
  - by destruct (is_file (lookup_node B (fs w) (removelast file))).
Qed.

Lemma sf_write_eq (file : path) (data : list (sample B)) (sr : Z) (fmt : string) w :
  sf_write B file data sr fmt w =
  let w1 := add_calls w [EvWrite file data sr fmt] in
  match encode B data sr fmt with
  | Written c => store B file c w1
  | Refused e => (w1, inl e)
  | Interrupted c e =>
      match store B file c w1 with
      | (w2, inr _) => (w2, inl e)
      | (w2, inl e') => (w2, inl e')
      end
  end.
Proof.
  unfold sf_write. run.
  by destruct (encode B data sr fmt) as [c|e|c e].
Qed.

Lemma try_body_eq self (out : path) fmt solver nfe tau denoising use_enhanced
    (audio_file : path) w :
  try_body B self out fmt solver nfe tau denoising use_enhanced audio_file w =
  match denoise_and_enhance B self audio_file solver nfe tau denoising w with
  | (w1, inl e) => (w1, inl e)
  | (w1, inr (denoised_output, enhanced_output)) =>
      let chosen := if use_enhanced then enhanced_output else denoised_output in
      sf_write B (output_filename out audio_file) chosen.2 chosen.1
        (PyStr.lower fmt) w1
  end.
Proof.
  unfold try_body. run.
  destruct (denoise_and_enhance _ _ _ _ _ _ _ _) as [w1 [e|[[srd wd] [sre we]]]];
    [done|].
  by destruct use_enhanced.
Qed.

(** *** Down-mixing *)

Lemma column_cons (t : nat) (ch : list (sample B)) (chs : list (list (sample B))) x :
  ch !! t = Some x -> column B t (ch :: chs) = x :: column B t chs.
Proof. unfold column. simpl. by intros ->. Qed.

(** Adding the channels [chs] onto [acc], sample by sample, adds at each
    frame the samples the channels hold there, in channel order. *)
Lemma fold_channels (frames : nat) (chs : list (list (sample B))) :
  Forall (fun ch => length ch = frames) chs ->
  forall acc : list (sample B),
    length acc = frames ->
    length (fold_left (zip_with (sample_add B)) chs acc) = frames /\
    forall t x, acc !! t = Some x ->
      length (column B t chs) = length chs /\
      fold_left (zip_with (sample_add B)) chs acc !! t
      = Some (fold_left (sample_add B) (column B t chs) x).
Proof.
  induction 1 as [|ch chs Hch _ IH]; intros acc Hacc; cbn [fold_left].
  - split; [done|]. intros t x Hx. by split.
  - destruct (IH (zip_with (sample_add B) acc ch)) as [Hlen Hat].
    { rewrite length_zip_with. lia. }
    split; [done|]. intros t x Hx.
    destruct (lookup_lt_is_Some_2 ch t) as [y Hy].
    { apply lookup_lt_Some in Hx. lia. }
    rewrite (column_cons _ _ _ _ Hy). cbn [fold_left length].
    destruct (Hat t (sample_add B x y)) as [Hcol ->].
    { rewrite lookup_zip_with, Hx, Hy. done. }
    split; [by rewrite Hcol|done].
Qed.

Lemma mean_dim0_spec (frames : nat) (dwav : list (list (sample B))) :
  dwav <> [] ->
  Forall (fun ch => length ch = frames) dwav ->
  length (mean_dim0 B dwav) = frames /\
  forall t, t < frames ->
    exists x0 xs,
      column B t dwav = x0 :: xs /\
      length (x0 :: xs) = length dwav /\
      mean_dim0 B dwav !! t
      = Some (sample_div B (fold_left (sample_add B) xs x0) (length dwav)).
Proof.
  destruct dwav as [|ch0 chs]; [done|]. intros _ Hall.
  apply Forall_cons in Hall as [H0 Hchs].
  destruct (fold_channels frames chs Hchs ch0 H0) as [Hlen Hat].
  unfold mean_dim0. split; [by rewrite length_fmap|].
  intros t Ht.
  destruct (lookup_lt_is_Some_2 ch0 t) as [x0 Hx0]; [lia|].
  destruct (Hat t x0 Hx0) as [Hcol Hsum].
  exists x0, (column B t chs).
  split; [by apply column_cons|].
  split; [simpl; by rewrite Hcol|].
  by rewrite list_lookup_fmap, Hsum.
Qed.

(** A mono file is its own down-mix, up to the division by one. *)
Lemma mean_dim0_mono (ch : list (sample B)) :
  mean_dim0 B [ch] = (fun s => sample_div B s 1) <$> ch.
Proof. reflexivity. Qed.

(** *** Claims about [denoise_and_enhance] *)

(** C3: in every call of the single-file processor, whatever is passed to
    the enhance operation is the normalized configuration: the integer
    that [int(nfe)] gives, the lower-cased solver, the blend weight 0.9
    when [denoising] is true and 0.1 when it is false (it depends on no
    other argument), [tau] as it was passed in, and the device of the
    enhancer.  And the enhance operation is reached whenever the budget
    converts to an integer, the file loads and the denoise pass returns:
    the library calls of the call are then the load, the denoise pass and
    that one enhance pass. *)
Theorem enhance_receives_normalized_parameters
    self p (solver : string) (nfe : pynum) (tau : float) (denoising : bool) w :
  let r := denoise_and_enhance B self p solver nfe tau denoising w in
  let lambd := if denoising then 0.9%float else 0.1%float in
  (exists evs : list (event B),
     calls r.1 = calls w ++ evs /\
     forall dwav sr dev n s l t,
       EvEnhance dwav sr dev n s l t ∈ evs ->
       py_int nfe = inr n /\ s = PyStr.lower solver /\ l = lambd /\ t = tau /\
       dev = device self) /\
  (forall (n : Z) (dwav : list (list (sample B))) (sr : Z)
          (wav_denoised : list (sample B)) (sr_d : Z),
     py_int nfe = inr n ->
     read_audio B (fs w) p = inr (dwav, sr) ->
     denoise_model B (mean_dim0 B dwav) sr (device self)
     = inr (wav_denoised, sr_d) ->
     calls r.1
     = calls w ++
       [ EvLoad p;
         EvDenoise (mean_dim0 B dwav) sr (device self);
         EvEnhance (mean_dim0 B dwav) sr (device self)
           n (PyStr.lower solver) lambd tau ]).
Proof.
  intros r lambd. subst r. rewrite denoise_and_enhance_eq. split.
  - assert (forall (evs : list (event B))
                   (res : result ((Z * list (sample B)) * (Z * list (sample B)))),
              (forall dwav sr dev n s l t,
                 EvEnhance dwav sr dev n s l t ∈ evs ->
                 py_int nfe = inr n /\ s = PyStr.lower solver /\ l = lambd /\
                 t = tau /\ dev = device self) ->
              exists evs', calls (add_calls w evs, res).1 = calls w ++ evs' /\
                forall dwav sr dev n s l t,
                  EvEnhance dwav sr dev n s l t ∈ evs' ->
                  py_int nfe = inr n /\ s = PyStr.lower solver /\ l = lambd /\
                  t = tau /\ dev = device self) as Hshape by eauto.
    destruct (py_int nfe) as [e|n] eqn:Hn.
    { exists []. split; [by rewrite app_nil_r|]. by intros ??????? ?%not_elem_of_nil. }
    destruct (read_audio B (fs w) p) as [e|[dwav sr]].
    { apply Hshape. intros ??????? Hin.
      apply list_elem_of_singleton in Hin. discriminate. }
    simpl.
    destruct (denoise_model _ _ _ _) as [e|[wd srd]].
    { apply Hshape. intros ??????? Hin.
      repeat (apply elem_of_cons in Hin as [Hin|Hin]; [discriminate|]).
      by apply not_elem_of_nil in Hin. }
    destruct (enhance_model _ _ _ _ _ _ _ _) as [e|[we sre]];
      (apply Hshape; intros ??????? Hin;
       do 2 (apply elem_of_cons in Hin as [Hin|Hin]; [discriminate|]);
       apply list_elem_of_singleton in Hin; inversion Hin; by subst).
  - intros n dwav sr wd srd Hn Hload Hden.
    rewrite Hn, Hload. simpl. rewrite Hden.
    by destruct (enhance_model _ _ _ _ _ _ _ _) as [e|[we sre]].
Qed.

(** C4: for a file that loads as [dwav] (at least one channel, all of
    [frames] samples), the buffer handed on is the mean over the channels:
    it has [frames] samples, and sample [t] is the sum of what every
    channel holds at [t], divided by the number of channels.  The denoise
    operation is called exactly once, right after the load, on that
    buffer; when it returns, the enhance operation is called exactly once,
    on the same buffer (not on the denoised one); nothing else is called. *)
Theorem downmix_then_both_passes_on_same_buffer
    self p (solver : string) (nfe : pynum) (tau : float) (denoising : bool) w
    (n : Z) (dwav : list (list (sample B))) (sr : Z) (frames : nat) :
  py_int nfe = inr n ->
  read_audio B (fs w) p = inr (dwav, sr) ->
  dwav <> [] ->
  Forall (fun ch => length ch = frames) dwav ->
  let mono := mean_dim0 B dwav in
  (length mono = frames /\
   forall t, t < frames ->
     exists x0 xs,
       column B t dwav = x0 :: xs /\
       length (x0 :: xs) = length dwav /\
       mono !! t
       = Some (sample_div B (fold_left (sample_add B) xs x0) (length dwav))) /\
  calls (denoise_and_enhance B self p solver nfe tau denoising w).1
  = calls w ++
    EvLoad p :: EvDenoise mono sr (device self) ::
    match denoise_model B mono sr (device self) with
    | inr _ =>
        [EvEnhance mono sr (device self) n (PyStr.lower solver)
           (if denoising then 0.9%float else 0.1%float) tau]
    | inl _ => []
    end.
Proof.
  intros Hn Hload Hne Hall mono. split; [by apply mean_dim0_spec|].
  rewrite denoise_and_enhance_eq, Hn, Hload. simpl. fold mono.
  destruct (denoise_model B mono sr (device self)) as [e|[wd srd]]; [done|].
  by destruct (enhance_model _ _ _ _ _ _ _ _) as [e|[we sre]].
Qed.

(** C9: when both passes return, the pair the processor returns carries
    the sample rate of the enhance pass in both halves; the rate the
    denoise pass returned is dropped.  In "denoised only" mode
    ([use_enhanced] false) the batch runner therefore hands the denoised
    samples to the writer together with the enhance pass's rate. *)
Theorem both_results_carry_enhance_sample_rate
    self p (out : path) (fmt solver : string) (nfe : pynum) (tau : float)
    (denoising : bool) w
    (n : Z) (dwav : list (list (sample B))) (sr : Z)
    (wav_denoised wav_enhanced : list (sample B)) (sr_d sr_e : Z) :
  py_int nfe = inr n ->
  read_audio B (fs w) p = inr (dwav, sr) ->
  denoise_model B (mean_dim0 B dwav) sr (device self) = inr (wav_denoised, sr_d) ->
  enhance_model B (mean_dim0 B dwav) sr (device self) n (PyStr.lower solver)
    (if denoising then 0.9%float else 0.1%float) tau = inr (wav_enhanced, sr_e) ->
  (denoise_and_enhance B self p solver nfe tau denoising w).2
  = inr ((sr_e, wav_denoised), (sr_e, wav_enhanced)) /\
  last (calls (try_body B self out fmt solver nfe tau denoising false p w).1)
  = Some (EvWrite (output_filename out p) wav_denoised sr_e (PyStr.lower fmt)).
Proof.
  intros Hn Hload Hden Henh.
  rewrite try_body_eq, denoise_and_enhance_eq, Hn, Hload. simpl.
  rewrite Hden, Henh. split; [done|]. simpl.
  rewrite sf_write_eq. simpl.
  set (w1 := add_calls (add_calls w _) _).
  assert (last (calls w1) = Some (EvWrite (output_filename out p) wav_denoised
                                    sr_e (PyStr.lower fmt))) as Hlast.
  { unfold w1. rewrite add_calls_app. simpl. by rewrite last_app. }
  destruct (encode B wav_denoised sr_e (PyStr.lower fmt)) as [c|e|c e];
    [| done |]; rewrite store_eq;
    repeat match goal with |- context [if ?b then _ else _] => destruct b end;
    done.
Qed.

End Processor.

(** ** Directories *)

Section Directories.

Variable B : Backend.

Implicit Types (w : world B) (m : gmap path (node (content B))) (p q : path).

Lemma ls_below_elem m (root q : path) :
  q ∈ ls_below B m root <-> is_Some (m !! q) /\ PyPath.below root q = true.
Proof.
  unfold ls_below. rewrite list_elem_of_filter, Is_true_true.
  rewrite list_elem_of_fmap. split.
  - intros [Hb ([q' n] & -> & Hin)]. simpl in *.
    apply elem_of_map_to_list in Hin. eauto.
  - intros [[n Hn] Hb]. split; [done|].
    exists (q, n). split; [done|]. by apply elem_of_map_to_list.
Qed.

Lemma ls_below_NoDup m (root : path) : NoDup (ls_below B m root).
Proof. apply NoDup_filter, NoDup_fst_map_to_list. Qed.

Lemma ls_below_nil m (root : path) :
  ls_below B m root = [] <-> forall q, PyPath.below root q = true -> m !! q = None.
Proof.
  split.
  - intros Hnil q Hb. destruct (m !! q) as [n|] eqn:Hq; [|done].
    assert (q ∈ ls_below B m root) as Hin by (apply ls_below_elem; eauto).
    rewrite Hnil in Hin. by apply not_elem_of_nil in Hin.
  - intros Hnone. destruct (ls_below B m root) as [|q l] eqn:Hl; [done|].
    assert (q ∈ ls_below B m root) as Hin by (rewrite Hl; left).
    apply ls_below_elem in Hin as [[n Hn] Hb].
    rewrite (Hnone q Hb) in Hn. discriminate.
Qed.

Lemma rglob_fs_elem m (root : path) (fmt : string) q :
  q ∈ rglob_fs B m root fmt <->
  is_dir (lookup_node B m root) = true /\ is_Some (m !! q) /\
  PyPath.below root q = true /\ PyPath.fnmatch_ext fmt (PyPath.name q) = true.
Proof.
  unfold rglob_fs. destruct (is_dir (lookup_node B m root)).
  - rewrite list_elem_of_filter, Is_true_true, andb_true_iff.
    rewrite list_elem_of_fmap. split.
    + intros [[Hb Hm] ([q' n] & -> & Hin)]. simpl in *.
      apply elem_of_map_to_list in Hin. eauto.
    + intros (_ & [n Hn] & Hb & Hm). split; [done|].
      exists (q, n). split; [done|]. by apply elem_of_map_to_list.
  - split; [by intros ?%not_elem_of_nil|]. by intros [? _].
Qed.

Lemma rglob_fs_NoDup m (root : path) (fmt : string) : NoDup (rglob_fs B m root fmt).
Proof.
  unfold rglob_fs. destruct (is_dir _); [|constructor].
  apply NoDup_filter, NoDup_fst_map_to_list.
Qed.

(** The matches of [rglob] are the entries below the root whose name
    matches. *)
Lemma rglob_fs_ls_below m (root : path) (fmt : string) :
  is_dir (lookup_node B m root) = true ->
  rglob_fs B m root fmt
  = filter (fun q : path => PyPath.fnmatch_ext fmt (PyPath.name q))
      (ls_below B m root).
Proof.
  intros Hd. unfold rglob_fs, ls_below. rewrite Hd.
  induction ((map_to_list m).*1) as [|q l IH]; [done|].
  rewrite !filter_cons.
  destruct (PyPath.below root q); simpl; [|done].
  rewrite filter_cons.
  destruct (PyPath.fnmatch_ext fmt (PyPath.name q)); simpl; by rewrite IH.
Qed.

(** *** [mkdir(parents=True, exist_ok=True)] *)

Lemma mkdir_eq p w :
  mkdir B p w =
  match mkdir_from B (fs w) [] p with
  | inl e => (w, inl e)
  | inr m' => (World m' (stdout w) (calls w), inr tt)
  end.
Proof.
  unfold mkdir, mbind, M_bind, get_fs, put_fs, lift. simpl.
  by destruct (mkdir_from B (fs w) [] p).
Qed.

(** A successful [mkdir] changes the tree only by adding directories on
    the way to its target. *)
Lemma mkdir_from_lookup (todo : path) : forall m (seen : path) m',
  mkdir_from B m seen todo = inr m' ->
  forall q,
    m' !! q = m !! q \/
    (m !! q = None /\ m' !! q = Some Dir /\
     exists c pre post, todo = pre ++ c :: post /\ q = seen ++ pre ++ [c]).
Proof.
  induction todo as [|c rest IH]; intros m seen m' Hm q; simpl in Hm.
  - left. congruence.
  - unfold PyPath.joinpath in Hm.
    destruct (m !! (seen ++ [c])) as [[x|]|] eqn:Hp; [done| |].
    + destruct (IH _ _ _ Hm q) as [Heq|(Hn & Hd & c' & pre & post & -> & ->)];
        [by left|].
      right. split_and!; [done..|].
      exists c', (c :: pre), post. by rewrite <- app_assoc.
    + destruct (IH _ _ _ Hm q) as [Heq|(Hn & Hd & c' & pre & post & -> & ->)].
      * destruct (decide (q = seen ++ [c])) as [->|Hne].
        -- right. rewrite Heq, lookup_insert_eq. split_and!; [done..|].
           by exists c, [], rest.
        -- left. by rewrite Heq, lookup_insert_ne.
      * destruct (decide ((seen ++ [c]) ++ pre ++ [c'] = seen ++ [c])) as [Heq|Hne].
        { rewrite Heq, lookup_insert_eq in Hn. discriminate. }
        rewrite lookup_insert_ne in Hn by done.
        right. split_and!; [done..|].
        exists c', (c :: pre), post. by rewrite <- app_assoc.
Qed.

Lemma mkdir_from_keeps_dirs (todo : path) m (seen : path) m' q :
  mkdir_from B m seen todo = inr m' -> m !! q = Some Dir -> m' !! q = Some Dir.
Proof.
  intros Hm Hq.
  destruct (mkdir_from_lookup _ _ _ _ Hm q) as [->|(Hn & _)]; congruence.
Qed.

(** After a successful [mkdir] every directory on the way exists. *)
Lemma mkdir_from_creates (todo : path) : forall m (seen : path) m',
  mkdir_from B m seen todo = inr m' ->
  forall c pre post, todo = pre ++ c :: post ->
    m' !! (seen ++ pre ++ [c]) = Some Dir.
Proof.
  induction todo as [|c rest IH]; intros m seen m' Hm c' pre post Htodo.
  - by destruct pre.
  - simpl in Hm. unfold PyPath.joinpath in Hm.
    destruct pre as [|c0 pre]; simplify_eq/=.
    + destruct (m !! (seen ++ [c'])) as [[x|]|] eqn:Hp; [done| |].
      * by eapply mkdir_from_keeps_dirs.
      * eapply mkdir_from_keeps_dirs; [done|]. apply lookup_insert_eq.
    + destruct (m !! (seen ++ [c0])) as [[x|]|] eqn:Hp; [done| |];
        specialize (IH _ _ _ Hm c' pre post eq_refl);
        by rewrite <- app_assoc in IH.
Qed.

Lemma mkdir_from_target m (out : path) m' :
  mkdir_from B m [] out = inr m' -> is_dir (lookup_node B m' out) = true.
Proof.
  intros Hm. destruct out as [|c out] using rev_ind; [done|].
  unfold lookup_node.
  rewrite (mkdir_from_creates _ _ _ _ Hm c out [] eq_refl : m' !! (out ++ [c]) = _).
  by destruct (out ++ [c]).
Qed.

(** No regular file is added or removed. *)
Lemma mkdir_from_files m (out : path) m' q (c : content B) :
  mkdir_from B m [] out = inr m' ->
  m' !! q = Some (File c) <-> m !! q = Some (File c).
Proof.
  intros Hm.
  destruct (mkdir_from_lookup _ _ _ _ Hm q) as [->|(Hn & Hd & _)]; [done|].
  rewrite Hn, Hd. split; discriminate.
Qed.

(** Nothing appears below the target. *)
Lemma mkdir_from_below m (out : path) m' :
  mkdir_from B m [] out = inr m' ->
  ls_below B m' out = [] <-> ls_below B m out = [].
Proof.
  intros Hm. rewrite !ls_below_nil.
  split; intros Hnone q Hb; specialize (Hnone q Hb);
    destruct (mkdir_from_lookup _ _ _ _ Hm q)
      as [Heq|(Hn & Hd & c & pre & post & -> & ->)];
    try congruence.
  all: apply below_length in Hb; rewrite !length_app in Hb; simpl in Hb; lia.
Qed.

(** Calling it again changes nothing and does not fail. *)
Lemma mkdir_from_idempotent (todo : path) : forall m (seen : path),
  (forall c pre post, todo = pre ++ c :: post -> m !! (seen ++ pre ++ [c]) = Some Dir) ->
  mkdir_from B m seen todo = inr m.
Proof.
  induction todo as [|c rest IH]; intros m seen Hall; simpl; [done|].
  unfold PyPath.joinpath.
  rewrite (Hall c [] rest eq_refl : m !! (seen ++ [c]) = _).
  apply IH. intros c' pre post ->.
  rewrite <- app_assoc. by apply (Hall c' (c :: pre) post).
Qed.

Lemma mkdir_idempotent (out : path) w w1 :
  mkdir B out w = (w1, inr tt) -> mkdir B out w1 = (w1, inr tt).
Proof.
  rewrite !mkdir_eq.
  destruct (mkdir_from B (fs w) [] out) as [e|m'] eqn:Hm; [done|].
  intros [= <-]. simpl.
  rewrite mkdir_from_idempotent; [done|].
  intros c pre post Hout. by eapply mkdir_from_creates.
Qed.

Lemma lookup_node_keeps_dir m m' q :
  (m !! q = Some Dir -> m' !! q = Some Dir) ->
  is_dir (lookup_node B m q) = true -> is_dir (lookup_node B m' q) = true.
Proof.
  destruct q as [|c q]; [done|]. simpl. intros Hkeep Hd.
  destruct (m !! (c :: q)) as [[x|]|]; try done. by rewrite Hkeep.
Qed.

(** [mkdir] keeps the file system a tree. *)
Lemma mkdir_from_tree m (out : path) m' :
  mkdir_from B m [] out = inr m' -> tree B m -> tree B m'.
Proof.
  intros Hm Htree p c Hq.
  destruct (mkdir_from_lookup _ _ _ _ Hm (p ++ [c]))
    as [Heq|(_ & _ & c' & pre & post & Hout & Hnew)].
  - rewrite Heq in Hq. apply (lookup_node_keeps_dir m); [|by eapply Htree].
    by eapply mkdir_from_keeps_dirs.
  - simpl in Hnew. apply app_inj_tail in Hnew as [-> ->].
    destruct pre as [|c0 pre] using rev_ind; [done|]. clear IHpre.
    rewrite <- app_assoc in Hout. simpl in Hout.
    pose proof (mkdir_from_creates _ _ _ _ Hm c0 pre _ Hout) as Hd.
    simpl in Hd. unfold lookup_node. rewrite Hd. by destruct (pre ++ [c0]).
Qed.

(** Storing a regular file in an existing directory, at a path that is
    not a directory, keeps the file system a tree. *)
Lemma store_tree m (file : path) (c : content B) :
  file <> [] ->
  is_dir (lookup_node B m (removelast file)) = true ->
  is_dir (lookup_node B m file) = false ->
  tree B m -> tree B (<[file := File c]> m).
Proof.
  intros Hne Hparent Htarget Htree p c' Hq.
  assert (forall q, q <> file -> is_dir (lookup_node B m q) = true ->
                    is_dir (lookup_node B (<[file := File c]> m) q) = true) as Hkeep.
  { intros q Hqf. apply lookup_node_keeps_dir. by rewrite lookup_insert_ne. }
  destruct (decide (p ++ [c'] = file)) as [<-|Hother].
  - rewrite removelast_last in Hparent. apply Hkeep; [|done].
    intros Heq. apply (f_equal length) in Heq. rewrite length_app in Heq.
    simpl in Heq. lia.
  - rewrite lookup_insert_ne in Hq by done.
    apply Hkeep; [|by eapply Htree].
    intros ->. specialize (Htree _ _ Hq). congruence.
Qed.

End Directories.

(** ** The batch runner *)

Section Batch.

Variable B : Backend.
Variables (self : AudioEnhancer) (out : path) (fmt solver : string).
Variables (nfe : pynum) (tau : float) (denoising use_enhanced : bool).

Implicit Types (w : world B) (f : path) (a : attempt B).

Local Abbreviation body := (try_body B self out fmt solver nfe tau denoising use_enhanced).
Local Abbreviation iterations :=
  (attempts B self out fmt solver nfe tau denoising use_enhanced).
Local Abbreviation loop :=
  (for_audio_files B self out fmt solver nfe tau denoising use_enhanced).

(** *** One iteration *)

Lemma store_effect (file : path) (c : content B) w :
  (store B file c w).1 = w /\ (exists e, (store B file c w).2 = inl e) \/
  (store B file c w = (World (<[file := File c]> (fs w)) (stdout w) (calls w), inr tt)
   /\ is_dir (lookup_node B (fs w) (removelast file)) = true
   /\ is_dir (lookup_node B (fs w) file) = false).
Proof.
  rewrite store_eq.
  destruct (is_dir (lookup_node B (fs w) (removelast file)));
    [|destruct (is_file _); left; eauto].
  destruct (is_dir (lookup_node B (fs w) file)); [left; eauto|by right].
Qed.

(** What the [try] block does to the world: it prints nothing, it records
    library calls, and it changes the file system at most at the
    flattened output path, where it leaves a regular file (and only if
    the output directory is a directory and the path is not one).  When
    the block ends normally the file there is the encoded result. *)
Lemma try_body_effect f w :
  exists (evs : list (event B)) (m' : gmap path (node (content B))),
    (body f w).1 = World m' (stdout w) (calls w ++ evs) /\
    (forall file data sr fmt',
        EvWrite file data sr fmt' ∈ evs ->
        file = output_filename out f /\ fmt' = PyStr.lower fmt) /\
    (m' = fs w \/
     exists c, m' = <[output_filename out f := File c]> (fs w) /\
       is_dir (lookup_node B (fs w) out) = true /\
       is_dir (lookup_node B (fs w) (output_filename out f)) = false) /\
    ((body f w).2 = inr tt ->
     exists data sr c,
       encode B data sr (PyStr.lower fmt) = Written c /\
       m' = <[output_filename out f := File c]> (fs w) /\
       last evs = Some (EvWrite (output_filename out f) data sr (PyStr.lower fmt)) /\
       is_dir (lookup_node B (fs w) out) = true).
Proof.
  rewrite try_body_eq, denoise_and_enhance_eq.
  assert (forall evs0 : list (event B),
             (forall file data sr fmt', EvWrite file data sr fmt' ∈ evs0 -> False) ->
             forall e : exn,
             let r : world B * result unit := (add_calls w evs0, inl e) in
             exists evs m', r.1 = World m' (stdout w) (calls w ++ evs) /\
               (forall file data sr fmt', EvWrite file data sr fmt' ∈ evs ->
                  file = output_filename out f /\ fmt' = PyStr.lower fmt) /\
               (m' = fs w \/
     exists c, m' = <[output_filename out f := File c]> (fs w) /\
       is_dir (lookup_node B (fs w) out) = true /\
       is_dir (lookup_node B (fs w) (output_filename out f)) = false) /\
               (r.2 = inr tt -> exists data sr c,
                  encode B data sr (PyStr.lower fmt) = Written c /\
                  m' = <[output_filename out f := File c]> (fs w) /\
                  last evs = Some (EvWrite (output_filename out f) data sr (PyStr.lower fmt)) /\
                  is_dir (lookup_node B (fs w) out) = true)) as Hfail.
  { intros evs0 Hno e. exists evs0, (fs w). simpl.
    split_and!; [done| |by left|done].
    intros ???? Hin. by destruct (Hno _ _ _ _ Hin). }
  destruct (py_int nfe) as [e|n].
  { destruct (Hfail [] (fun _ _ _ _ H => not_elem_of_nil _ H) e)
      as (evs & m' & H1 & H2).
    exists evs, m'. split; [|done].
    rewrite <- H1. unfold add_calls. simpl. rewrite app_nil_r. by destruct w. }
  destruct (read_audio B (fs w) f) as [e|[dwav sr]].
  { apply Hfail. set_solver. }
  simpl.
  destruct (denoise_model _ _ _ _) as [e|[wd srd]].
  { apply Hfail. set_solver. }
  destruct (enhance_model _ _ _ _ _ _ _ _) as [e|[we sre]].
  { apply Hfail. set_solver. }
  set (evs0 := [EvLoad f; _; _]).
  set (chosen := if use_enhanced then (sre, we) else (sre, wd)).
  rewrite sf_write_eq. simpl. rewrite add_calls_app.
  set (ev := EvWrite (output_filename out f) chosen.2 chosen.1 (PyStr.lower fmt)).
  set (w1 := add_calls w (evs0 ++ [ev])).
  assert (forall file data sr fmt', EvWrite file data sr fmt' ∈ evs0 ++ [ev] ->
            file = output_filename out f /\ fmt' = PyStr.lower fmt) as Hev.
  { unfold evs0, ev. set_solver. }
  assert (removelast (output_filename out f) = out) as Hparent
    by apply removelast_joinpath.
  destruct (encode B chosen.2 chosen.1 (PyStr.lower fmt)) as [c|e|c e] eqn:Henc.
  - destruct (store_effect (output_filename out f) c w1)
      as [[H1 [e H2]]|(H1 & H2 & H3)].
    + exists (evs0 ++ [ev]), (fs w). rewrite H1, H2.
      split_and!; [done|done|by left|done].
    + rewrite Hparent in H2.
      exists (evs0 ++ [ev]), (<[output_filename out f := File c]> (fs w)).
      rewrite H1. split_and!; [done|done|right; eauto|].
      intros _. exists chosen.2, chosen.1, c.
      split_and!; [done|done|by rewrite last_snoc|done].
  - exists (evs0 ++ [ev]), (fs w). split_and!; [done|done|by left|done].
  - destruct (store_effect (output_filename out f) c w1)
      as [[H1 [e' H2]]|(H1 & H2 & H3)].
    + exists (evs0 ++ [ev]), (fs w).
      destruct (store B _ c w1) as [w2 [e''|[]]]; simpl in *; [|done].
      subst w2. split_and!; [done|done|by left|done].
    + rewrite Hparent in H2.
      exists (evs0 ++ [ev]), (<[output_filename out f := File c]> (fs w)).
      rewrite H1. split_and!; [done|done|right; eauto|done].
Qed.

Lemma try_body_stdout f w : stdout (body f w).1 = stdout w.
Proof. destruct (try_body_effect f w) as (evs & m' & -> & _). done. Qed.

Lemma try_body_fs f w :
  fs (body f w).1 = fs w \/
  exists c, fs (body f w).1 = <[output_filename out f := File c]> (fs w).
Proof.
  destruct (try_body_effect f w) as (evs & m' & -> & _ & [H|(c & H & _)] & _);
    [by left|right; eauto].
Qed.

Lemma try_body_keeps_files f w q :
  is_file (fs w !! q) = true -> is_file (fs (body f w).1 !! q) = true.
Proof.
  intros Hq. destruct (try_body_fs f w) as [->|[c ->]]; [done|].
  destruct (decide (output_filename out f = q)) as [->|Hne].
  - by rewrite lookup_insert_eq.
  - by rewrite lookup_insert_ne.
Qed.

Lemma try_body_elsewhere f w q :
  q <> output_filename out f -> fs (body f w).1 !! q = fs w !! q.
Proof.
  intros Hq. destruct (try_body_fs f w) as [->|[c ->]]; [done|].
  by rewrite lookup_insert_ne.
Qed.

Lemma try_body_tree f w : tree B (fs w) -> tree B (fs (body f w).1).
Proof.
  intros Htree.
  destruct (try_body_effect f w)
    as (evs & m' & -> & _ & [->|(c & -> & Hout & Htarget)] & _); [done|].
  simpl. apply store_tree; [apply joinpath_nonempty| |done|done].
  unfold output_filename. by rewrite removelast_joinpath.
Qed.

(** When the iteration budget converts, the first thing an iteration
    does is to load its file. *)
Lemma try_body_loads f w (n : Z) :
  py_int nfe = inr n ->
  exists evs : list (event B), calls (body f w).1 = calls w ++ EvLoad f :: evs.
Proof.
  intros Hn. rewrite try_body_eq, denoise_and_enhance_eq, Hn.
  destruct (read_audio B (fs w) f) as [e|[dwav sr]]; [by eexists|]. simpl.
  destruct (denoise_model _ _ _ _) as [e|[wd srd]]; [by eexists|].
  destruct (enhance_model _ _ _ _ _ _ _ _) as [e|[we sre]]; [by eexists|].
  rewrite sf_write_eq. simpl. rewrite add_calls_app.
  destruct (encode _ _ _ _) as [c|e|c e]; rewrite ?store_eq;
    repeat match goal with |- context [if ?b then _ else _] => destruct b end;
    by eexists.
Qed.

(** *** The loop *)

Local Abbreviation next_world :=
  (next_world B self out fmt solver nfe tau denoising use_enhanced).

Lemma attempts_cons f (files : list path) w :
  iterations (f :: files) w
  = {| att_file := f; att_before := w; att_after := (body f w).1;
       att_result := (body f w).2; att_next := next_world f w |}
    :: iterations files (next_world f w).
Proof. reflexivity. Qed.

Lemma loop_end_cons a (atts : list (attempt B)) w :
  loop_end (a :: atts) w = loop_end atts (att_next a).
Proof. unfold loop_end. rewrite last_cons. by destruct (last atts). Qed.

Lemma next_world_fs f w : fs (next_world f w) = fs (body f w).1.
Proof. unfold next_world. by destruct (body f w).2. Qed.

Lemma next_world_calls f w : calls (next_world f w) = calls (body f w).1.
Proof. unfold next_world. by destruct (body f w).2. Qed.

Lemma attempts_files (files : list path) w :
  att_file <$> iterations files w = files.
Proof.
  revert w. induction files as [|f files IH]; intros w; [done|].
  rewrite attempts_cons, fmap_cons. simpl. by rewrite IH.
Qed.

Lemma attempts_length (files : list path) w :
  length (iterations files w) = length files.
Proof. by rewrite <- (attempts_files files w) at 2; rewrite length_fmap. Qed.

(** The loop never raises: it ends in the world of its last iteration,
    with the counter advanced once per iteration whose [try] block ended
    normally. *)
Lemma loop_eq (files : list path) : forall (n : nat) w,
  loop files n w
  = (loop_end (iterations files w) w,
     inr (n + length (succeeded (iterations files w)))).
Proof.
  induction files as [|f files IH]; intros n w.
  - simpl. unfold mret, M_ret, loop_end, succeeded. simpl.
    by rewrite Nat.add_0_r.
  - rewrite attempts_cons, loop_end_cons. simpl att_next.
    unfold succeeded. rewrite filter_cons. unfold att_ok at 1. simpl att_result.
    cbn [for_audio_files]. unfold mbind, M_bind, try_except, next_world.
    destruct (body f w) as [w1 [e|[]]] eqn:Hb; simpl.
    + rewrite IH. done.
    + rewrite IH. unfold succeeded. simpl. by rewrite Nat.add_succ_r.
Qed.

Lemma succeeded_failed_length (atts : list (attempt B)) :
  length (succeeded atts) + length (failed atts) = length atts.
Proof.
  unfold succeeded, failed.
  induction atts as [|a atts IH]; [done|].
  rewrite !filter_cons. destruct (att_ok a); simpl; lia.
Qed.

Lemma att_ok_true a : att_ok a = true <-> att_result a = inr tt.
Proof. unfold att_ok. destruct (att_result a) as [e|[]]; naive_solver. Qed.

Lemma failed_nil_all_ok (atts : list (attempt B)) :
  failed atts = [] <-> Forall (fun a => att_result a = inr tt) atts.
Proof.
  unfold failed. induction atts as [|a atts IH].
  - split; [constructor|done].
  - rewrite filter_cons, Forall_cons, <- att_ok_true.
    destruct (att_ok a); simpl.
    + rewrite IH. naive_solver.
    + split; [done|]. by intros [? _].
Qed.

(** Every recorded iteration is a run of the [try] block on its file. *)
Lemma attempt_sound (files : list path) : forall w a,
  a ∈ iterations files w ->
  att_file a ∈ files /\
  att_after a = (body (att_file a) (att_before a)).1 /\
  att_result a = (body (att_file a) (att_before a)).2.
Proof.
  induction files as [|f files IH]; intros w a Ha.
  - by apply not_elem_of_nil in Ha.
  - rewrite attempts_cons in Ha. apply elem_of_cons in Ha as [->|Ha].
    + simpl. split; [left|done].
    + destruct (IH _ _ Ha) as (? & ? & ?). split; [by right|done].
Qed.

(** An iteration that ended normally asked, last of all, for the write to
    the flattened path, and stored the encoded result there. *)
Lemma attempt_written (files : list path) w a :
  a ∈ iterations files w ->
  att_result a = inr tt ->
  exists data sr c,
    last (calls (att_after a))
    = Some (EvWrite (output_filename out (att_file a)) data sr (PyStr.lower fmt)) /\
    encode B data sr (PyStr.lower fmt) = Written c /\
    fs (att_after a)
    = <[output_filename out (att_file a) := File c]> (fs (att_before a)).
Proof.
  intros Ha Hok.
  destruct (attempt_sound _ _ _ Ha) as (_ & Hafter & Hres).
  destruct (try_body_effect (att_file a) (att_before a))
    as (evs & m' & Hw & _ & _ & Hwritten).
  rewrite <- Hres in Hwritten.
  destruct (Hwritten Hok) as (data & sr & c & Henc & -> & Hlast & _).
  exists data, sr, c. rewrite <- Hafter in Hw. rewrite Hw. simpl.
  split_and!; [|done|done].
  by rewrite last_app, Hlast.
Qed.

(** The lines printed during the loop are the error lines, in order. *)
Lemma loop_stdout (files : list path) : forall w,
  stdout (loop_end (iterations files w) w)
  = stdout w ++ error_lines (iterations files w).
Proof.
  induction files as [|f files IH]; intros w.
  - unfold loop_end, error_lines. simpl. by rewrite app_nil_r.
  - rewrite attempts_cons, loop_end_cons. simpl att_next.
    rewrite IH. unfold error_lines at 2. simpl. unfold next_world.
    destruct (body f w).2 as [e|[]] eqn:Hr; simpl.
    + by rewrite try_body_stdout, <- app_assoc.
    + by rewrite try_body_stdout.
Qed.

(** A regular file, once there, is still a regular file at the end. *)
Lemma loop_keeps_files (files : list path) q : forall w,
  is_file (fs w !! q) = true ->
  is_file (fs (loop_end (iterations files w) w) !! q) = true.
Proof.
  induction files as [|f files IH]; intros w Hq; [done|].
  rewrite attempts_cons, loop_end_cons. simpl att_next.
  apply IH. rewrite next_world_fs. by apply try_body_keeps_files.
Qed.

(** The loop touches the file system only at flattened output paths. *)
Lemma loop_elsewhere (files : list path) q : forall w,
  (forall f, f ∈ files -> q <> output_filename out f) ->
  fs (loop_end (iterations files w) w) !! q = fs w !! q.
Proof.
  induction files as [|f files IH]; intros w Hq; [done|].
  rewrite attempts_cons, loop_end_cons. simpl att_next.
  rewrite IH by (intros f' Hf'; apply Hq; by right).
  rewrite next_world_fs. apply try_body_elsewhere, Hq. left.
Qed.

(** Every write the loop asks for names a flattened output path. *)
Lemma loop_calls (files : list path) : forall w,
  exists evs : list (event B),
    calls (loop_end (iterations files w) w) = calls w ++ evs /\
    forall file data sr fmt',
      EvWrite file data sr fmt' ∈ evs ->
      exists f, f ∈ files /\ file = output_filename out f.
Proof.
  induction files as [|f files IH]; intros w.
  - exists []. split; [by rewrite app_nil_r|]. by intros ???? ?%not_elem_of_nil.
  - rewrite attempts_cons, loop_end_cons. simpl att_next.
    destruct (IH (next_world f w)) as (evs2 & -> & H2).
    rewrite next_world_calls.
    destruct (try_body_effect f w) as (evs1 & m' & -> & H1 & _). simpl.
    exists (evs1 ++ evs2). split; [by rewrite app_assoc|].
    intros file data sr fmt' [Hin|Hin]%elem_of_app.
    + exists f. split; [left|]. by destruct (H1 _ _ _ _ Hin).
    + destruct (H2 _ _ _ _ Hin) as (f' & ? & ?). exists f'. split; [by right|done].
Qed.

Lemma loop_tree (files : list path) : forall w,
  tree B (fs w) -> tree B (fs (loop_end (iterations files w) w)).
Proof.
  induction files as [|f files IH]; intros w Htree; [done|].
  rewrite attempts_cons, loop_end_cons. simpl att_next.
  apply IH. rewrite next_world_fs. by apply try_body_tree.
Qed.

(** With a budget that converts, every file of the list is loaded. *)
Lemma loop_loads (files : list path) (n : Z) : forall w f,
  py_int nfe = inr n ->
  f ∈ files -> EvLoad f ∈ calls (loop_end (iterations files w) w).
Proof.
  induction files as [|f0 files IH]; intros w f Hn Hf.
  - by apply not_elem_of_nil in Hf.
  - rewrite attempts_cons, loop_end_cons. simpl att_next.
    apply elem_of_cons in Hf as [->|Hf]; [|by apply IH].
    destruct (loop_calls files (next_world f0 w)) as (evs & -> & _).
    rewrite next_world_calls.
    destruct (try_body_loads f0 w n Hn) as (evs' & ->). set_solver.
Qed.

(** What an iteration wrote is not lost: the path still holds a regular
    file when the loop ends. *)
Lemma loop_keeps_outputs (files : list path) q : forall w a,
  a ∈ iterations files w ->
  is_file (fs (att_after a) !! q) = true ->
  is_file (fs (loop_end (iterations files w) w) !! q) = true.
Proof.
  induction files as [|f files IH]; intros w a Ha Hq.
  - by apply not_elem_of_nil in Ha.
  - rewrite attempts_cons in Ha. rewrite attempts_cons, loop_end_cons.
    simpl att_next. apply elem_of_cons in Ha as [->|Ha].
    + apply loop_keeps_files. by rewrite next_world_fs.
    + by eapply IH.
Qed.

(** The last iteration for a name decides what the output path holds. *)
Lemma loop_last_writer (files : list path) : forall w (before after : list (attempt B)) a,
  iterations files w = before ++ a :: after ->
  (forall a', a' ∈ after -> PyPath.name (att_file a') <> PyPath.name (att_file a)) ->
  fs (loop_end (iterations files w) w) !! output_filename out (att_file a)
  = fs (att_after a) !! output_filename out (att_file a).
Proof.
  induction files as [|f files IH]; intros w before after a Hsplit Hlater.
  - by destruct before.
  - rewrite attempts_cons in Hsplit. rewrite attempts_cons, loop_end_cons.
    simpl att_next. destruct before as [|a0 before]; simplify_eq/=.
    + rewrite loop_elsewhere; [by rewrite next_world_fs|].
      intros f' Hf' Heq. apply joinpath_inj in Heq.
      rewrite <- (attempts_files files (next_world f w)) in Hf'.
      apply list_elem_of_fmap in Hf' as (a' & -> & Ha').
      by apply (Hlater a' Ha').
    + by eapply IH.
Qed.

(** When no iteration fails, the entries of the tree at the end are those
    of the start together with one flattened output per input name, and
    each output path holds a regular file. *)
Lemma loop_all_ok_entries (files : list path) : forall w,
  failed (iterations files w) = [] ->
  (forall q,
     is_Some (fs (loop_end (iterations files w) w) !! q) <->
     is_Some (fs w !! q) \/ exists f, f ∈ files /\ q = output_filename out f) /\
  (forall f, f ∈ files ->
     is_file (fs (loop_end (iterations files w) w) !! output_filename out f) = true).
Proof.
  induction files as [|f files IH]; intros w Hok.
  - split; [|by intros f ?%not_elem_of_nil].
    intros q. split; [by left|]. intros [?|(f & ?%not_elem_of_nil & _)]; done.
  - rewrite attempts_cons in Hok. rewrite attempts_cons, loop_end_cons.
    simpl att_next. apply failed_nil_all_ok, Forall_cons in Hok as [Hr Hok].
    simpl in Hr. apply failed_nil_all_ok in Hok.
    destruct (IH _ Hok) as [Hdom Hfiles].
    destruct (try_body_effect f w) as (evs & m' & Hw & _ & _ & Hwritten).
    destruct (Hwritten Hr) as (data & sr & c & _ & -> & _).
    assert (fs (next_world f w) = <[output_filename out f := File c]> (fs w)) as Hfs.
    { rewrite next_world_fs, Hw. done. }
    split.
    + intros q. rewrite Hdom, Hfs. rewrite lookup_insert_is_Some.
      split.
      * intros [[<-|[_ ?]]|(f' & ? & ->)].
        -- right. exists f. split; [left|done].
        -- by left.
        -- right. exists f'. split; [by right|done].
      * intros [Hq|(f' & [->|Hf']%elem_of_cons & ->)].
        -- left. destruct (decide (output_filename out f = q)); [by left|by right].
        -- left. by left.
        -- right. eauto.
    + intros f' [->|Hf']%elem_of_cons; [|by apply Hfiles].
      apply loop_keeps_files. by rewrite Hfs, lookup_insert_eq.
Qed.

End Batch.

(** ** Claims about [process_directory] and [verify_output] *)

Section Runner.

Variable B : Backend.
Variables (self : AudioEnhancer) (input_dir output_dir fmt solver : string).
Variables (nfe : pynum) (tau : float) (denoising use_enhanced : bool).

Implicit Types (w : world B) (f q : path) (a : attempt B).

Local Abbreviation out := (PyPath.Path output_dir).
Local Abbreviation inp := (PyPath.Path input_dir).
Local Abbreviation run :=
  (process_directory B self input_dir output_dir fmt solver nfe tau
     denoising use_enhanced).
Local Abbreviation iterations :=
  (attempts B self out fmt solver nfe tau denoising use_enhanced).

(** A run whose [mkdir] fails raises what [mkdir] raised; otherwise it
    scans, loops and returns the counter. *)
Lemma process_directory_eq w :
  run w =
  match mkdir B out w with
  | (w1, inl e) => (w1, inl e)
  | (w1, inr _) =>
      let files := rglob_fs B (fs w1) inp fmt in
      let w2 := add_lines w1 [found_line (length files) fmt] in
      let atts := iterations files w2 in
      (add_lines (loop_end atts w2)
         [closing_line files (length (succeeded atts))],
       inr (length (succeeded atts)))
  end.
Proof.
  unfold process_directory. unfold mbind at 1. unfold M_bind at 1.
  destruct (mkdir B out w) as [w1 [e|[]]]; [done|].
  unfold rglob, mbind, M_bind, get_fs, mret, M_ret, print. simpl.
  destruct (rglob_fs B (fs w1) inp fmt) as [|f files] eqn:Hfiles; [done|].
  rewrite loop_eq. simpl. done.
Qed.

Lemma process_directory_ok w w1 :
  mkdir B out w = (w1, inr tt) ->
  let files := rglob_fs B (fs w1) inp fmt in
  let w2 := add_lines w1 [found_line (length files) fmt] in
  let atts := iterations files w2 in
  run w = (add_lines (loop_end atts w2)
             [closing_line files (length (succeeded atts))],
           inr (length (succeeded atts))).
Proof. intros Hm. rewrite process_directory_eq, Hm. done. Qed.

Lemma mkdir_ok_inv w w1 :
  mkdir B out w = (w1, inr tt) ->
  mkdir_from B (fs w) [] out = inr (fs w1) /\ stdout w1 = stdout w /\ calls w1 = calls w.
Proof.
  rewrite mkdir_eq. destruct (mkdir_from B (fs w) [] out) as [e|m']; [done|].
  by intros [= <-].
Qed.

(** C6: when the scan (made once the output directory is in place) finds
    nothing, the run returns 0 without raising, after printing the count
    and the "nothing found" line.  No library is called, so nothing is
    loaded or written, and the file system is the one [mkdir] left: it
    differs from the initial one only by directories on the way to the
    output directory, it holds the same regular files, and running
    [mkdir] again changes nothing and does not fail. *)
Theorem empty_scan_returns_zero w w1 :
  mkdir B out w = (w1, inr tt) ->
  rglob_fs B (fs w1) inp fmt = [] ->
  run w = (add_lines w1 [found_line 0 fmt; "No audio files found!"], inr 0) /\
  calls w1 = calls w /\
  (forall q (c : content B), fs w1 !! q = Some (File c) <-> fs w !! q = Some (File c)) /\
  (forall q,
     fs w1 !! q = fs w !! q \/
     (fs w !! q = None /\ fs w1 !! q = Some Dir /\
      exists c pre post, out = pre ++ c :: post /\ q = pre ++ [c])) /\
  mkdir B out w1 = (w1, inr tt).
Proof.
  intros Hm Hscan.
  destruct (mkdir_ok_inv _ _ Hm) as (Hfrom & Hout & Hcalls).
  split_and!.
  - rewrite (process_directory_ok _ _ Hm), Hscan. simpl.
    unfold loop_end, add_lines. simpl. by rewrite <- app_assoc.
  - done.
  - intros q c. by eapply mkdir_from_files.
  - intros q. apply (mkdir_from_lookup B _ _ _ _ Hfrom q).
  - by eapply mkdir_idempotent.
Qed.

(** What the verifier returns. *)
Lemma verify_output_count w :
  (verify_output B self output_dir fmt w).2
  = inr (match lookup_node B (fs w) out with
         | None => 0
         | Some _ => length (rglob_fs B (fs w) out fmt)
         end).
Proof.
  unfold verify_output, exists_, rglob, print, mbind, M_bind, mret, M_ret, get_fs.
  simpl. by destruct (lookup_node B (fs w) out).
Qed.

(** C8: the verifier returns a count and never raises; it leaves the file
    system and the record of library calls as they were and prints one
    line.  When the directory does not exist the count is 0 and the line
    is the warning; otherwise the count is the number of entries (of any
    kind, as [rglob] yields them) that lie at any depth below the
    directory and whose name ends in the extension, each counted once;
    they are all regular files unless a directory carries such a name. *)
Theorem verifier_counts_matches_without_writing w :
  let r := verify_output B self output_dir fmt w in
  let found := rglob_fs B (fs w) out fmt in
  fs r.1 = fs w /\ calls r.1 = calls w /\
  NoDup found /\
  (forall q, q ∈ found <->
     is_dir (lookup_node B (fs w) out) = true /\ is_Some (fs w !! q) /\
     PyPath.below out q = true /\
     PyPath.fnmatch_ext fmt (PyPath.name q) = true) /\
  ((forall q, q ∈ found -> fs w !! q <> Some Dir) ->
   forall q, q ∈ found -> is_file (fs w !! q) = true) /\
  match lookup_node B (fs w) out with
  | None =>
      r.2 = inr 0 /\
      stdout r.1
      = stdout w ++ ["Output directory " +:+ output_dir +:+ " does not exist!"]
  | Some _ =>
      r.2 = inr (length found) /\
      stdout r.1
      = stdout w ++ ["Found " +:+ pretty (length found) +:+ " processed "
                     +:+ PyStr.upper fmt +:+ " files in output directory"]
  end.
Proof.
  intros r found. subst r.
  unfold verify_output, exists_, rglob, print, mbind, M_bind, mret, M_ret, get_fs.
  simpl. fold found.
  split_and!.
  - by destruct (lookup_node B (fs w) out).
  - by destruct (lookup_node B (fs w) out).
  - apply rglob_fs_NoDup.
  - intros q. apply rglob_fs_elem.
  - intros Hnodir q Hq. specialize (Hnodir q Hq).
    apply rglob_fs_elem in Hq as (_ & [n Hn] & _).
    rewrite Hn in *. by destruct n.
  - by destruct (lookup_node B (fs w) out).
Qed.

Lemma error_line_printed (atts : list (attempt B)) a (e : exn) :
  a ∈ atts -> att_result a = inl e ->
  error_line (att_file a) e ∈ error_lines atts.
Proof.
  intros Ha He. unfold error_lines.
  apply list_elem_of_In, in_flat_map. exists a.
  split; [by apply list_elem_of_In|]. rewrite He. by left.
Qed.

Lemma closing_line_last (files : list path) (k : nat) (lines : list string) :
  last (lines ++ [closing_line files k]) = Some (closing_line files k).
Proof. apply last_snoc. Qed.

(** What a run prints, from the first line to the last. *)
Lemma process_directory_stdout w w1 :
  mkdir B out w = (w1, inr tt) ->
  let files := rglob_fs B (fs w1) inp fmt in
  let atts := iterations files (add_lines w1 [found_line (length files) fmt]) in
  stdout (run w).1
  = stdout w ++ [found_line (length files) fmt] ++ error_lines atts
    ++ [closing_line files (length (succeeded atts))].
Proof.
  intros Hm files atts.
  destruct (mkdir_ok_inv _ _ Hm) as (_ & Hout & _).
  rewrite (process_directory_ok _ _ Hm). simpl.
  rewrite loop_stdout. simpl. fold files. fold atts.
  by rewrite Hout, <- !app_assoc.
Qed.

Lemma process_directory_last_line w w1 :
  mkdir B out w = (w1, inr tt) ->
  let files := rglob_fs B (fs w1) inp fmt in
  let atts := iterations files (add_lines w1 [found_line (length files) fmt]) in
  last (stdout (run w).1) = Some (closing_line files (length (succeeded atts))).
Proof.
  intros Hm files atts. rewrite (process_directory_ok _ _ Hm). simpl.
  apply last_snoc.
Qed.

Lemma clean_batch_count (atts : list (attempt B)) :
  failed atts = [] -> length (succeeded atts) = length atts.
Proof.
  intros Hok. pose proof (succeeded_failed_length B atts) as Hcount.
  rewrite Hok in Hcount. simpl in Hcount. lia.
Qed.

Lemma process_directory_fs w w1 :
  mkdir B out w = (w1, inr tt) ->
  let files := rglob_fs B (fs w1) inp fmt in
  let w2 := add_lines w1 [found_line (length files) fmt] in
  fs (run w).1 = fs (loop_end (iterations files w2) w2).
Proof. intros Hm. by rewrite (process_directory_ok _ _ Hm). Qed.

(** C1: once the output directory is in place the batch always returns:
    no outcome of any iteration makes it raise.  Every discovered file is
    tried, in order (and, when the iteration budget converts to an
    integer, loaded).  An iteration whose [try] block raises [e] prints
    "Error processing <name>: <e>" and leaves the counter alone; one whose
    block ends normally has stored the encoded result at the output path,
    where a regular file is still found when the batch ends, with that
    very content unless a later file of the same name was written over
    it.  The value
    returned is the number of iterations that ended normally; with
    exactly one failing file among N this is N-1, and the last line
    printed reports N-1 of N. *)
Theorem per_file_failures_never_abort_the_batch w w1 :
  mkdir B out w = (w1, inr tt) ->
  let files := rglob_fs B (fs w1) inp fmt in
  let atts := iterations files (add_lines w1 [found_line (length files) fmt]) in
  let r := run w in
  r.2 = inr (length (succeeded atts)) /\
  att_file <$> atts = files /\
  (forall (n : Z) f, py_int nfe = inr n -> f ∈ files -> EvLoad f ∈ calls r.1) /\
  length (succeeded atts) + length (failed atts) = length files /\
  stdout r.1
  = stdout w ++ [found_line (length files) fmt] ++ error_lines atts
    ++ [closing_line files (length (succeeded atts))] /\
  (forall a (e : exn), a ∈ atts -> att_result a = inl e ->
     ("Error processing " +:+ PyPath.name (att_file a) +:+ ": " +:+ exn_str e)
     ∈ stdout r.1) /\
  (forall a, a ∈ atts -> att_result a = inr tt ->
     exists data sr c,
       encode B data sr (PyStr.lower fmt) = Written c /\
       fs (att_after a)
       = <[PyPath.joinpath out (PyPath.name (att_file a)) := File c]>
           (fs (att_before a)) /\
       is_file (fs r.1 !! PyPath.joinpath out (PyPath.name (att_file a))) = true /\
       (forall before after : list (attempt B),
          atts = before ++ a :: after ->
          (forall a', a' ∈ after ->
             PyPath.name (att_file a') <> PyPath.name (att_file a)) ->
          fs r.1 !! PyPath.joinpath out (PyPath.name (att_file a))
          = Some (File c))) /\
  (length (failed atts) = 1 ->
     r.2 = inr (length files - 1) /\
     last (stdout r.1)
     = Some ("Successfully processed " +:+ pretty (length files - 1) +:+ "/"
             +:+ pretty (length files) +:+ " audio files")).
Proof.
  intros Hm files atts r.
  pose proof (process_directory_stdout _ _ Hm) as Hstdout.
  pose proof (process_directory_fs _ _ Hm) as Hfs.
  assert (length (succeeded atts) + length (failed atts) = length files) as Hcount.
  { rewrite succeeded_failed_length. apply attempts_length. }
  simpl in Hstdout, Hfs. fold files in Hstdout, Hfs. fold atts in Hstdout, Hfs.
  fold r in Hstdout, Hfs.
  assert (r.2 = inr (length (succeeded atts))) as Hret.
  { unfold r. by rewrite (process_directory_ok _ _ Hm). }
  split_and!; [done|apply attempts_files| |done|done|..].
  - intros n f Hn Hf. unfold r. rewrite (process_directory_ok _ _ Hm). simpl.
    by apply (loop_loads B self out fmt solver nfe tau denoising use_enhanced
                files n).
  - intros a e Ha He. rewrite Hstdout.
    apply elem_of_app. right. apply elem_of_cons. right.
    apply elem_of_app. left. by apply (error_line_printed atts a e).
  - intros a Ha Hok.
    destruct (attempt_written B self out fmt solver nfe tau denoising use_enhanced
                files _ a Ha Hok) as (data & sr & c & _ & Henc & Hstored).
    exists data, sr, c. split_and!; [done|done| |].
    + rewrite Hfs. eapply loop_keeps_outputs; [done|].
      rewrite Hstored. unfold output_filename. by rewrite lookup_insert_eq.
    + intros before after Hsplit Hlater. rewrite Hfs. unfold atts.
      change (PyPath.joinpath out (PyPath.name (att_file a)))
        with (output_filename out (att_file a)) in *.
      rewrite (loop_last_writer B self out fmt solver nfe tau denoising
                 use_enhanced files _ before after a Hsplit Hlater).
      rewrite Hstored. apply lookup_insert_eq.
  - intros Hone.
    assert (length (succeeded atts) = length files - 1) as Hk by lia.
    split; [by rewrite Hret, Hk|].
    unfold r. rewrite (process_directory_last_line _ _ Hm).
    fold files. fold atts. rewrite Hk.
    unfold closing_line. destruct files; [simpl in *; lia|done].
Qed.

(** C5: every write a run asks for names [output_dir / <name>], where
    <name> is the final component of a discovered file; an iteration that
    ends normally has stored its result at exactly that path; and no
    other path of the file system changes.  The directories between the
    input root and the file do not enter the output path: a file found
    at [input/sub/x] goes to [output/x], which is a different path from
    the mirrored [output/sub/x]. *)
Theorem outputs_are_written_by_base_name w w1 :
  mkdir B out w = (w1, inr tt) ->
  let files := rglob_fs B (fs w1) inp fmt in
  let atts := iterations files (add_lines w1 [found_line (length files) fmt]) in
  let r := run w in
  (forall a, a ∈ atts -> att_result a = inr tt ->
     exists data sr c,
       last (calls (att_after a))
       = Some (EvWrite (PyPath.joinpath out (PyPath.name (att_file a)))
                 data sr (PyStr.lower fmt)) /\
       encode B data sr (PyStr.lower fmt) = Written c /\
       fs (att_after a)
       = <[PyPath.joinpath out (PyPath.name (att_file a)) := File c]>
           (fs (att_before a))) /\
  (exists evs : list (event B),
     calls r.1 = calls w ++ evs /\
     forall file data sr fmt',
       EvWrite file data sr fmt' ∈ evs ->
       exists f, f ∈ files /\ file = PyPath.joinpath out (PyPath.name f)) /\
  (forall q,
     (forall f, f ∈ files -> q <> PyPath.joinpath out (PyPath.name f)) ->
     fs r.1 !! q = fs w1 !! q) /\
  (forall (sub : path) (x : string),
     PyPath.joinpath out (PyPath.name (inp ++ sub ++ [x])) = out ++ [x] /\
     (sub <> [] -> out ++ [x] <> out ++ sub ++ [x])).
Proof.
  intros Hm files atts r.
  destruct (mkdir_ok_inv _ _ Hm) as (_ & _ & Hcalls).
  pose proof (process_directory_fs _ _ Hm) as Hfs. simpl in Hfs.
  fold files in Hfs. fold r in Hfs.
  split_and!.
  - intros a Ha Hok.
    by apply (attempt_written B self out fmt solver nfe tau denoising use_enhanced
                files _ a Ha).
  - destruct (loop_calls B self out fmt solver nfe tau denoising use_enhanced files
                (add_lines w1 [found_line (length files) fmt])) as (evs & Hevs & Hwr).
    exists evs. split; [|done].
    unfold r. rewrite (process_directory_ok _ _ Hm). simpl.
    fold files. rewrite Hevs. simpl. by rewrite Hcalls.
  - intros q Hq. rewrite Hfs. by rewrite loop_elsewhere.
  - intros sub x. split.
    + unfold PyPath.joinpath, PyPath.name.
      by rewrite !app_assoc, last_last.
    + intros Hsub Heq. apply (f_equal length) in Heq.
      rewrite !length_app in Heq. simpl in Heq.
      destruct sub; [done|]. simpl in Heq. lia.
Qed.

(** *** What a run leaves alone *)

(** Whatever happens to the files, a run that got its output directory
    returns a count, keeps the file system a tree, and touches no regular
    file outside the output directory: such a file is there afterwards,
    with the same content, exactly when it was there before. *)
Theorem run_only_writes_below_output w w1 :
  mkdir B out w = (w1, inr tt) ->
  (exists k : nat, (run w).2 = inr k) /\
  (tree B (fs w) -> tree B (fs (run w).1)) /\
  (forall q (c : content B),
     PyPath.below out q = false ->
     fs (run w).1 !! q = Some (File c) <-> fs w !! q = Some (File c)).
Proof.
  intros Hm. destruct (mkdir_ok_inv _ _ Hm) as (Hfrom & _ & _).
  split_and!.
  - rewrite (process_directory_ok _ _ Hm). eauto.
  - intros Htree. rewrite (process_directory_fs _ _ Hm).
    apply loop_tree. simpl. by eapply mkdir_from_tree.
  - intros q c Hq. rewrite (process_directory_fs _ _ Hm).
    rewrite loop_elsewhere.
    + simpl. by eapply mkdir_from_files.
    + intros f _ ->. unfold output_filename in Hq.
      by rewrite below_joinpath in Hq.
Qed.

(** A run whose [mkdir] fails raises that error and changes nothing. *)
Theorem run_raises_only_from_mkdir w (e : exn) :
  (mkdir B out w).2 = inl e -> run w = (w, inl e).
Proof.
  rewrite process_directory_eq, mkdir_eq.
  destruct (mkdir_from B (fs w) [] out); simpl; [|done]. by intros [= ->].
Qed.

(** *** Batches without failures *)

(** After a batch in which no iteration failed, run on an output
    directory that held nothing: the entries below the output directory
    are one regular file per name of a discovered file, and the output
    directory is a directory. *)
Lemma clean_batch_entries w w1 :
  mkdir B out w = (w1, inr tt) ->
  ls_below B (fs w) out = [] ->
  let files := rglob_fs B (fs w1) inp fmt in
  let atts := iterations files (add_lines w1 [found_line (length files) fmt]) in
  failed atts = [] ->
  (forall q, q ∈ ls_below B (fs (run w).1) out <->
             exists f, f ∈ files /\ q = PyPath.joinpath out (PyPath.name f)) /\
  (forall f, f ∈ files ->
     is_file (fs (run w).1 !! PyPath.joinpath out (PyPath.name f)) = true) /\
  is_dir (lookup_node B (fs (run w).1) out) = true /\
  (run w).2 = inr (length files).
Proof.
  intros Hm Hfresh files atts Hok.
  destruct (mkdir_ok_inv _ _ Hm) as (Hfrom & _ & _).
  pose proof (process_directory_fs _ _ Hm) as Hfs. simpl in Hfs.
  fold files in Hfs. rewrite Hfs.
  destruct (loop_all_ok_entries B self out fmt solver nfe tau denoising
              use_enhanced files _ Hok) as [Hdom Hfile].
  apply (mkdir_from_below B _ _ _ Hfrom) in Hfresh.
  rewrite ls_below_nil in Hfresh.
  split_and!.
  - intros q. rewrite ls_below_elem, Hdom. split.
    + intros [[Hq|Hq] Hb]; [|done].
      simpl in Hq. rewrite (Hfresh q Hb) in Hq. by destruct Hq.
    + intros (f & Hf & ->). split; [right; eauto|apply below_joinpath].
  - done.
  - assert (fs (loop_end atts (add_lines w1 [found_line (length files) fmt])) !! out
            = fs w1 !! out) as Hsame.
    { change (fs w1) with (fs (add_lines w1 [found_line (length files) fmt])).
      apply loop_elsewhere. intros f _ Heq. symmetry in Heq.
      by apply joinpath_neq in Heq. }
    pose proof (mkdir_from_target B _ _ _ Hfrom) as Hdir.
    unfold lookup_node in *. fold atts. rewrite Hsame. done.
  - rewrite (process_directory_ok _ _ Hm). simpl. fold files. fold atts.
    rewrite (clean_batch_count _ Hok). unfold atts. by rewrite attempts_length.
Qed.

Lemma clean_batch_listing w w1 :
  mkdir B out w = (w1, inr tt) ->
  ls_below B (fs w) out = [] ->
  let files := rglob_fs B (fs w1) inp fmt in
  let atts := iterations files (add_lines w1 [found_line (length files) fmt]) in
  failed atts = [] ->
  ls_below B (fs (run w).1) out
  ≡ₚ PyPath.joinpath out <$> remove_dups (PyPath.name <$> files).
Proof.
  intros Hm Hfresh files atts Hok.
  destruct (clean_batch_entries _ _ Hm Hfresh Hok) as (Hin & _).
  apply NoDup_Permutation.
  - apply ls_below_NoDup.
  - apply NoDup_joinpath, NoDup_remove_dups.
  - intros q. rewrite Hin, list_elem_of_fmap. split.
    + intros (f & Hf & ->). exists (PyPath.name f). split; [done|].
      apply elem_of_remove_dups, list_elem_of_fmap. eauto.
    + intros (x & -> & Hx). apply elem_of_remove_dups, list_elem_of_fmap in Hx.
      destruct Hx as (f & -> & Hf). eauto.
Qed.

(** C2, as the code has it: a batch in which no iteration fails returns
    the number N of discovered files and, when N is not zero, its last
    line reports N of N.  If moreover the output directory held nothing
    before the run and no two discovered files have the same name, the
    entries below the output directory afterwards are exactly N regular
    files, one [output_dir / <name>] per discovered file. *)
Theorem clean_batch_with_distinct_names_writes_one_file_each w w1 :
  mkdir B out w = (w1, inr tt) ->
  ls_below B (fs w) out = [] ->
  let files := rglob_fs B (fs w1) inp fmt in
  let atts := iterations files (add_lines w1 [found_line (length files) fmt]) in
  failed atts = [] ->
  NoDup (PyPath.name <$> files) ->
  let r := run w in
  r.2 = inr (length files) /\
  (files <> [] ->
   last (stdout r.1)
   = Some ("Successfully processed " +:+ pretty (length files) +:+ "/"
           +:+ pretty (length files) +:+ " audio files")) /\
  ls_below B (fs r.1) out
  ≡ₚ (fun f => PyPath.joinpath out (PyPath.name f)) <$> files /\
  length (ls_below B (fs r.1) out) = length files /\
  PyPath.name <$> ls_below B (fs r.1) out ≡ₚ PyPath.name <$> files /\
  (forall q, q ∈ ls_below B (fs r.1) out -> is_file (fs r.1 !! q) = true).
Proof.
  intros Hm Hfresh files atts Hok Hnames r.
  destruct (clean_batch_entries _ _ Hm Hfresh Hok) as (Hin & Hfile & _ & Hret).
  pose proof (clean_batch_listing _ _ Hm Hfresh Hok) as Hperm.
  fold files in Hperm. fold r in Hperm, Hin, Hfile, Hret.
  rewrite (remove_dups_NoDup_id _ Hnames), <- list_fmap_compose in Hperm.
  split_and!; [done| |done|..].
  - intros Hne. unfold r.
    rewrite (process_directory_last_line _ _ Hm). fold files. fold atts.
    rewrite (clean_batch_count _ Hok). unfold atts. rewrite attempts_length.
    unfold closing_line. by destruct files.
  - by rewrite Hperm, length_fmap.
  - rewrite Hperm, <- list_fmap_compose.
    erewrite list_fmap_ext; [done|]. intros ? f _. simpl. apply name_joinpath.
  - intros q (f & Hf & ->)%Hin. by apply Hfile.
Qed.

(** C7, as the code has it: after a batch in which no iteration failed,
    run on an output directory that held nothing and on discovered files
    with pairwise different names, the verifier run on the output
    directory with the same extension returns the number of discovered
    files. *)
Theorem verifier_count_matches_clean_batch w w1 :
  mkdir B out w = (w1, inr tt) ->
  ls_below B (fs w) out = [] ->
  let files := rglob_fs B (fs w1) inp fmt in
  let atts := iterations files (add_lines w1 [found_line (length files) fmt]) in
  failed atts = [] ->
  NoDup (PyPath.name <$> files) ->
  (run w).2 = inr (length files) /\
  (verify_output B self output_dir fmt (run w).1).2 = inr (length files).
Proof.
  intros Hm Hfresh files atts Hok Hnames.
  destruct (clean_batch_entries _ _ Hm Hfresh Hok) as (Hin & _ & Hdir & Hret).
  split; [done|].
  rewrite verify_output_count.
  pose proof (rglob_fs_NoDup B (fs (run w).1) out fmt) as Hnd.
  pose proof (rglob_fs_elem B (fs (run w).1) out fmt) as Hfound.
  destruct (lookup_node B (fs (run w).1) out) as [n|] eqn:Hn; [|done].
  f_equal.
  transitivity (length ((fun f => PyPath.joinpath out (PyPath.name f)) <$> files));
    [|by rewrite length_fmap].
  apply Permutation_length, NoDup_Permutation; [done| |].
  - assert ((fun f => PyPath.joinpath out (PyPath.name f)) <$> files
            = PyPath.joinpath out <$> (PyPath.name <$> files)) as ->
      by (by rewrite <- list_fmap_compose).
    by apply NoDup_joinpath.
  - intros q. rewrite Hfound, list_elem_of_fmap. split.
    + intros (_ & Hq & Hb & _).
      destruct (proj1 (Hin q)) as (f & Hf & ->); [by apply ls_below_elem|eauto].
    + intros (f & -> & Hf).
      assert (PyPath.joinpath out (PyPath.name f) ∈ ls_below B (fs (run w).1) out)
        as [Hq Hb]%ls_below_elem by (apply Hin; eauto).
      split_and!; [done|done|done|].
      rewrite name_joinpath. by apply rglob_fs_elem in Hf as (_ & _ & _ & ?).
Qed.

(** C10: in a batch in which no iteration fails, run on an output
    directory that held nothing, every discovered file advances the
    counter, so the batch returns their number; files with the same name
    are written to the same path, so the output directory ends with one
    entry per distinct name, strictly fewer than the count returned as
    soon as two discovered files share a name; and what each entry holds
    at the end is what the last iteration for that name wrote there. *)
Theorem same_names_share_one_output w w1 :
  mkdir B out w = (w1, inr tt) ->
  ls_below B (fs w) out = [] ->
  let files := rglob_fs B (fs w1) inp fmt in
  let atts := iterations files (add_lines w1 [found_line (length files) fmt]) in
  failed atts = [] ->
  let r := run w in
  r.2 = inr (length files) /\
  (forall f1 f2, PyPath.name f1 = PyPath.name f2 ->
     PyPath.joinpath out (PyPath.name f1) = PyPath.joinpath out (PyPath.name f2)) /\
  ls_below B (fs r.1) out
  ≡ₚ PyPath.joinpath out <$> remove_dups (PyPath.name <$> files) /\
  length (ls_below B (fs r.1) out) <= length files /\
  (~ NoDup (PyPath.name <$> files) ->
   length (ls_below B (fs r.1) out) < length files) /\
  (forall (before after : list (attempt B)) a,
     atts = before ++ a :: after ->
     (forall a', a' ∈ after ->
        PyPath.name (att_file a') <> PyPath.name (att_file a)) ->
     exists data sr c,
       last (calls (att_after a))
       = Some (EvWrite (PyPath.joinpath out (PyPath.name (att_file a)))
                 data sr (PyStr.lower fmt)) /\
       encode B data sr (PyStr.lower fmt) = Written c /\
       fs r.1 !! PyPath.joinpath out (PyPath.name (att_file a)) = Some (File c)).
Proof.
  intros Hm Hfresh files atts Hok r.
  destruct (clean_batch_entries _ _ Hm Hfresh Hok) as (_ & _ & _ & Hret).
  pose proof (clean_batch_listing _ _ Hm Hfresh Hok) as Hperm.
  fold files in Hperm. fold r in Hperm, Hret.
  assert (length (ls_below B (fs r.1) out)
          = length (remove_dups (PyPath.name <$> files))) as Hlen
    by (by rewrite Hperm, length_fmap).
  split_and!; [done|by intros f1 f2 ->|done|..].
  - rewrite Hlen. etrans; [apply remove_dups_length_le|]. by rewrite length_fmap.
  - intros Hdup. rewrite Hlen.
    pose proof (remove_dups_length_lt _ Hdup) as Hlt.
    by rewrite length_fmap in Hlt.
  - intros before after a Hsplit Hlater.
    assert (a ∈ atts) as Ha by (rewrite Hsplit; set_solver).
    apply failed_nil_all_ok in Hok.
    destruct (attempt_written B self out fmt solver nfe tau denoising use_enhanced
                files _ a Ha) as (data & sr & c & Hlast & Henc & Hstored).
    { by apply (proj1 (Forall_forall _ _) Hok). }
    exists data, sr, c. split_and!; [done|done|].
    unfold r. rewrite (process_directory_fs _ _ Hm). fold files.
    change (PyPath.joinpath out (PyPath.name (att_file a)))
      with (output_filename out (att_file a)) in *.
    rewrite (loop_last_writer B self out fmt solver nfe tau denoising use_enhanced
               files _ before after a Hsplit Hlater).
    rewrite Hstored. apply lookup_insert_eq.
Qed.

End Runner.

(** ** The entry point *)

Section EntryPoint.

Variable B : Backend.


End EntryPoint.

(** * The model at work

    The theorems above, applied to the concrete directories of [Stub]. *)

Section Examples.

Import Stub.

Local Open Scope Z_scope.

(** A float budget is truncated, the solver is lower-cased, and with
    [denoising] false the weight is 0.1. *)
Lemma enhance_receives_normalized_parameters_witness :
  calls (denoise_and_enhance backend self ["input"; "a"; "x.wav"] "Midpoint"
           (PyFloat 64.7) 0.7 false (empty_world twins)).1
  = [ EvLoad (B := backend) ["input"; "a"; "x.wav"];
      EvDenoise (B := backend) [6; 5; 6] 16000 "cpu";
      EvEnhance (B := backend) [6; 5; 6] 16000 "cpu" 64 "midpoint" 0.1 0.7 ].
Proof.
  destruct (enhance_receives_normalized_parameters backend self
              ["input"; "a"; "x.wav"] "Midpoint" (PyFloat 64.7) 0.7 false
              (empty_world twins)) as [_ Hreached].
  apply (Hreached 64 [[5; 10; 4]; [7; 0; 8]] 16000 [5; 4; 5] 44100);
    vm_compute; reflexivity.
Defined.

(** Two channels of three frames: frame 1 of the mono buffer is
    (10 + 0) / 2, and both passes are given that buffer. *)
Lemma downmix_then_both_passes_on_same_buffer_witness :
  mean_dim0 backend [[5; 10; 4]; [7; 0; 8]] !! 1%nat = Some 5 /\
  calls (denoise_and_enhance backend self ["input"; "a"; "x.wav"] "Midpoint"
           (PyInt 64) 0.7 true (empty_world twins)).1
  = [ EvLoad (B := backend) ["input"; "a"; "x.wav"];
      EvDenoise (B := backend) [6; 5; 6] 16000 "cpu";
      EvEnhance (B := backend) [6; 5; 6] 16000 "cpu" 64 "midpoint" 0.9 0.7 ].
Proof.
  destruct (downmix_then_both_passes_on_same_buffer backend self
              ["input"; "a"; "x.wav"] "Midpoint" (PyInt 64) 0.7 true
              (empty_world twins) 64 [[5; 10; 4]; [7; 0; 8]] 16000 3%nat)
    as [[Hlen Hat] Hcalls].
  - reflexivity.
  - vm_compute; reflexivity.
  - discriminate.
  - repeat constructor.
  - split; [|exact Hcalls].
    destruct (Hat 1%nat) as (x0 & xs & Hcol & _ & Hmean); [lia|].
    vm_compute in Hcol. injection Hcol as <- <-. exact Hmean.
Defined.

(** The denoiser of [Stub] answers 44100 and its enhancer 48000: both
    halves of the pair say 48000, and so does the write in "denoised
    only" mode. *)
Lemma both_results_carry_enhance_sample_rate_witness :
  (denoise_and_enhance backend self ["input"; "a"; "x.wav"] "Midpoint"
     (PyInt 64) 0.7 true (empty_world twins)).2
  = inr ((48000, [5; 4; 5]), (48000, [70; 69; 70])) /\
  last (calls (try_body backend self ["output"] "wav" "Midpoint" (PyInt 64) 0.7
                 true false ["input"; "a"; "x.wav"] (empty_world twins)).1)
  = Some (EvWrite (B := backend) ["output"; "x.wav"] [5; 4; 5] 48000 "wav").
Proof.
  apply (both_results_carry_enhance_sample_rate backend self
           ["input"; "a"; "x.wav"] ["output"] "wav" "Midpoint" (PyInt 64) 0.7 true
           (empty_world twins) 64 [[5; 10; 4]; [7; 0; 8]] 16000
           [5; 4; 5] [70; 69; 70] 44100 48000);
    vm_compute; reflexivity.
Defined.

(** One file out of three does not decode: the batch reports two of
    three, names the bad file, and goes on to the third. *)
Lemma per_file_failures_never_abort_the_batch_witness :
  (batch mixed).2 = inr 2%nat /\
  stdout (batch mixed).1
  = [ "Found 3 WAV files to process";
      "Error processing b.wav: Error opening file: invalid data";
      "Successfully processed 2/3 audio files" ] /\
  last (stdout (batch mixed).1) = Some "Successfully processed 2/3 audio files".
Proof.
  destruct (per_file_failures_never_abort_the_batch backend self "input" "output"
              "wav" "Midpoint" (PyInt 64) 0.7 true true
              (empty_world mixed) (prepared mixed) eq_refl)
    as (Hret & _ & _ & _ & Hstdout & _ & _ & Hone).
  destruct Hone as [Hret' Hlast]; [vm_compute; reflexivity|].
  revert Hret' Hstdout Hlast. vm_compute. intros Hret' Hstdout Hlast.
  split_and!; [exact Hret'|exact Hstdout|exact Hlast].
Defined.

(** A file two directories down lands directly in the output directory;
    the mirrored path stays empty. *)
Lemma outputs_are_written_by_base_name_witness :
  PyPath.joinpath ["output"] (PyPath.name ["input"; "a"; "b"; "x.wav"])
  = ["output"; "x.wav"] /\
  fs (batch nested).1 !! ["output"; "a"; "b"; "x.wav"] = None /\
  fs (batch nested).1 !! ["output"; "x.wav"] = Some (File "wav@48000:69,68,70").
Proof.
  destruct (outputs_are_written_by_base_name backend self "input" "output"
              "wav" "Midpoint" (PyInt 64) 0.7 true true
              (empty_world nested) (prepared nested) eq_refl)
    as (_ & _ & Helse & Hflat).
  split_and!.
  - exact (proj1 (Hflat ["a"; "b"] "x.wav")).
  - unfold batch. rewrite (Helse ["output"; "a"; "b"; "x.wav"]); [reflexivity|].
    intros f Hf. vm_compute in Hf.
    apply list_elem_of_singleton in Hf as ->. discriminate.
  - vm_compute; reflexivity.
Defined.

(** A directory without audio: nothing but the two lines happens. *)
Lemma empty_scan_returns_zero_witness :
  batch no_audio
  = (add_lines (prepared no_audio)
       ["Found 0 WAV files to process"; "No audio files found!"], inr 0%nat) /\
  calls (batch no_audio).1 = [].
Proof.
  destruct (empty_scan_returns_zero backend self "input" "output" "wav"
              "Midpoint" (PyInt 64) 0.7 true true
              (empty_world no_audio) (prepared no_audio) eq_refl)
    as (Hrun & _); [vm_compute; reflexivity|].
  split; [exact Hrun|]. unfold batch. rewrite Hrun. vm_compute. reflexivity.
Defined.

(** Two files with different names: two outputs. *)
Lemma clean_batch_with_distinct_names_writes_one_file_each_witness :
  (batch distinct).2 = inr 2%nat /\
  last (stdout (batch distinct).1) = Some "Successfully processed 2/2 audio files" /\
  length (ls_below backend (fs (batch distinct).1) ["output"]) = 2%nat.
Proof.
  destruct (clean_batch_with_distinct_names_writes_one_file_each backend self
              "input" "output" "wav" "Midpoint" (PyInt 64) 0.7 true true
              (empty_world distinct) (prepared distinct) eq_refl)
    as (Hret & Hlast & _ & Hlen & _).
  - vm_compute; reflexivity.
  - vm_compute; reflexivity.
  - apply (bool_decide_unpack _). vm_compute. exact I.
  - revert Hret Hlast Hlen. vm_compute. intros Hret Hlast Hlen.
    split_and!; [exact Hret| |exact Hlen].
    apply Hlast. discriminate.
Defined.

(** Two files with the same name and no failure: the batch returns 2 and
    the output directory holds one file.  One file written into an output
    directory that already held another: the batch returns 1 and the
    directory holds two files.  No file at all: the batch returns 0 and
    prints no "0/0" line. *)
Lemma same_name_files_leave_fewer_outputs :
  length (rglob_fs backend (fs (prepared twins)) ["input"] "wav") = 2%nat /\
  ls_below backend twins ["output"] = [] /\
  failed (batch_attempts twins) = [] /\
  (batch twins).2 = inr 2%nat /\
  ls_below backend (fs (batch twins).1) ["output"] = [["output"; "x.wav"]] /\
  failed (batch_attempts stale) = [] /\
  (batch stale).2 = inr 1%nat /\
  ls_below backend (fs (batch stale).1) ["output"]
  = [["output"; "x.wav"]; ["output"; "old.wav"]] /\
  (batch no_audio).2 = inr 0%nat /\
  stdout (batch no_audio).1
  = ["Found 0 WAV files to process"; "No audio files found!"].
Proof. vm_compute. repeat split. Qed.

(** The verifier after two different names: it counts 2. *)
Lemma verifier_count_matches_clean_batch_witness :
  (batch distinct).2 = inr 2%nat /\
  (verify_output backend self "output" "wav" (batch distinct).1).2 = inr 2%nat.
Proof.
  pose proof (verifier_count_matches_clean_batch backend self "input" "output"
                "wav" "Midpoint" (PyInt 64) 0.7 true true
                (empty_world distinct) (prepared distinct) eq_refl) as Hcount.
  revert Hcount. vm_compute. intros Hcount. apply Hcount.
  - reflexivity.
  - reflexivity.
  - apply (bool_decide_unpack _). vm_compute. exact I.
Defined.

(** The verifier after two files with the same name, written without a
    failure into an output directory that did not exist: the batch
    returned 2 and the verifier counts 1. *)
Lemma verifier_undercounts_same_name_batch :
  length (rglob_fs backend (fs (prepared twins)) ["input"] "wav") = 2%nat /\
  ls_below backend twins ["output"] = [] /\
  failed (batch_attempts twins) = [] /\
  (batch twins).2 = inr 2%nat /\
  (verify_output backend self "output" "wav" (batch twins).1).2 = inr 1%nat.
Proof. vm_compute. repeat split. Qed.

(** Two files with the same name: the count returned (2) exceeds the
    number of files in the output directory. *)
Lemma same_names_share_one_output_witness :
  (batch twins).2 = inr 2%nat /\
  (length (ls_below backend (fs (batch twins).1) ["output"]) < 2)%nat /\
  ls_below backend (fs (batch twins).1) ["output"]
  ≡ₚ [["output"; "x.wav"]].
Proof.
  destruct (same_names_share_one_output backend self "input" "output" "wav"
              "Midpoint" (PyInt 64) 0.7 true true
              (empty_world twins) (prepared twins) eq_refl)
    as (Hret & _ & Hperm & _ & Hlt & _).
  - vm_compute; reflexivity.
  - vm_compute; reflexivity.
  - assert (~ NoDup (PyPath.name <$>
                       rglob_fs backend (fs (prepared twins)) (PyPath.Path "input") "wav"))
      as Hdup by (apply (bool_decide_unpack _); vm_compute; exact I).
    specialize (Hlt Hdup). clear Hdup.
    revert Hret Hperm Hlt. vm_compute. intros Hret Hperm Hlt.
    split_and!; [exact Hret|exact Hlt|exact Hperm].
Defined.

(** The file that did not decode is still there, untouched, and the file
    system is still a tree. *)
Lemma run_only_writes_below_output_witness :
  fs (batch mixed).1 !! ["input"; "b.wav"] = Some (File "corrupt") /\
  (exists k : nat, (batch mixed).2 = inr k).
Proof.
  destruct (run_only_writes_below_output backend self "input" "output" "wav"
              "Midpoint" (PyInt 64) 0.7 true true
              (empty_world mixed) (prepared mixed) eq_refl)
    as (Hret & _ & Hframe).
  split; [|exact Hret].
  apply (Hframe ["input"; "b.wav"] "corrupt"); vm_compute; reflexivity.
Defined.

(** A regular file in the place of the output directory: the run raises
    before it scans anything. *)
Lemma run_raises_only_from_mkdir_witness :
  (batch blocked).2 = inl (Exception "File exists: output") /\
  stdout (batch blocked).1 = [].
Proof.
  pose proof (run_raises_only_from_mkdir backend self "input" "output" "wav"
                "Midpoint" (PyInt 64) 0.7 true true (empty_world blocked)
                (Exception "File exists: output")) as Hraise.
  unfold batch. rewrite Hraise; [done|]. vm_compute; reflexivity.
Defined.

(** [main] on a data set of one recording: the batch reports one of one,
    and the verifier finds it. *)
Example main_on_one_recording :
  stdout (main backend false (empty_world dataset)).1
  = [ "Using device: cpu";
      "Found 1 WAV files to process";
      "Successfully processed 1/1 audio files";
      "Found 1 processed WAV files in output directory" ].
Proof. vm_compute. reflexivity. Qed.

End Examples.
(** * Properties of the data set export *)

(** ** Texts *)

Lemma string_app_cons (x : ascii) (a b : string) :
  String x a +:+ b = String x (a +:+ b).
Proof. reflexivity. Qed.

Lemma string_app_nil_l (a : string) : "" +:+ a = a.
Proof. reflexivity. Qed.

Ltac sapp := rewrite ?string_app_cons, ?string_app_nil_l in *.

Lemma string_app_assoc (a b c : string) : (a +:+ b) +:+ c = a +:+ (b +:+ c).
Proof. induction a as [|x a IH]; sapp; [done|]. by f_equal. Qed.

Lemma string_app_nil_r (a : string) : a +:+ "" = a.
Proof. induction a as [|x a IH]; sapp; [done|]. by f_equal. Qed.

Lemma string_app_length (a b : string) :
  String.length (a +:+ b) = String.length a + String.length b.
Proof. induction a as [|x a IH]; sapp; simpl; [done|]. by f_equal. Qed.

Lemma all_chars_app (p : ascii -> bool) (a b : string) :
  all_chars p (a +:+ b) = all_chars p a && all_chars p b.
Proof.
  induction a as [|x a IH]; sapp; simpl; [done|]. by rewrite IH, andb_assoc.
Qed.

(** ** The environment check *)

Lemma missing_vars_filter (environ : gmap string string) :
  missing_vars environ =
  filter (fun var => negb (truthy (environ !! var))) required_env_vars.
Proof.
  unfold missing_vars, required_env_vars. simpl.
  rewrite !filter_cons, filter_nil.
  destruct (truthy (environ !! "AWS_ACCESS_KEY_ID"));
    destruct (truthy (environ !! "AWS_SECRET_ACCESS_KEY"));
    destruct (truthy (environ !! "AWS_ENDPOINT_URL_S3")); reflexivity.
Qed.

Lemma truthy_spec (value : option string) :
  truthy value = true <-> exists v, value = Some v /\ v <> "".
Proof.
  destruct value as [v|]; simpl.
  - rewrite negb_true_iff, String.eqb_neq. split; [eauto|].
    by intros (v' & [= <-] & Hv).
  - split; [done|]. by intros (v & Hv & _).
Qed.

Lemma export_lines_fold (missing : list string) (start : string) :
  fold_left
    (fun error_message var =>
       error_message +:+ "export " +:+ var +:+ "=<your_value>" +:+ newline)
    missing start
  = start +:+ String.concat ""
      ((fun var => "export " +:+ var +:+ "=<your_value>" +:+ newline) <$> missing).
Proof.
  revert start. induction missing as [|var rest IH]; intros start; simpl.
  - by rewrite string_app_nil_r.
  - rewrite IH. destruct rest as [|var' rest]; simpl.
    + by rewrite string_app_nil_r.
    + by rewrite !string_app_assoc.
Qed.

Lemma missing_vars_elem (environ : gmap string string) (var : string) :
  var ∈ missing_vars environ <->
  var ∈ required_env_vars /\
  (environ !! var = None \/ environ !! var = Some "").
Proof.
  rewrite missing_vars_filter, list_elem_of_filter.
  rewrite (comm and). apply and_iff_compat_l.
  rewrite Is_true_true, negb_true_iff, <- not_true_iff_false, truthy_spec.
  destruct (environ !! var) as [v|]; split.
  - intros Hv. right. f_equal. destruct (decide (v = "")); [done|].
    destruct Hv; eauto.
  - intros [|[= ->]] (v' & [= <-] & Hv); done.
  - by left.
  - by intros _ (v & Hv & _).
Qed.

Lemma check_environment_cases (environ : gmap string string) :
  match check_environment environ with
  | inr options =>
      missing_vars environ = [] /\
      environ !! "AWS_ACCESS_KEY_ID" = Some (so_key options) /\
      environ !! "AWS_SECRET_ACCESS_KEY" = Some (so_secret options) /\
      environ !! "AWS_ENDPOINT_URL_S3" = Some (so_endpoint_url options) /\
      so_key options <> "" /\ so_secret options <> "" /\
      so_endpoint_url options <> ""
  | inl e =>
      missing_vars environ <> [] /\
      e = Exception (error_message (missing_vars environ))
  end.
Proof.
  unfold check_environment. cbv zeta.
  destruct (missing_vars environ) as [|var rest] eqn:Hm; [|done].
  assert (forall var, var ∈ required_env_vars ->
            exists v, environ !! var = Some v /\ v <> "") as Hset.
  { intros var Hin. destruct (environ !! var) as [v|] eqn:Hv.
    - exists v. split; [done|]. intros ->.
      assert (var ∈ missing_vars environ) as Hno
        by (apply missing_vars_elem; eauto).
      rewrite Hm in Hno. by apply not_elem_of_nil in Hno.
    - assert (var ∈ missing_vars environ) as Hno
        by (apply missing_vars_elem; eauto).
      rewrite Hm in Hno. by apply not_elem_of_nil in Hno. }
  unfold environ_getitem.
  destruct (Hset "AWS_ACCESS_KEY_ID") as (k & -> & Hk);
    [unfold required_env_vars; set_solver|].
  destruct (Hset "AWS_SECRET_ACCESS_KEY") as (s & -> & Hs);
    [unfold required_env_vars; set_solver|].
  destruct (Hset "AWS_ENDPOINT_URL_S3") as (u & -> & Hu);
    [unfold required_env_vars; set_solver|].
  by simpl.
Qed.

(** The environment check of lines 10-33.  A variable counts as missing
    when it is unset or set to the empty text.  The script gets its
    storage options exactly when none of the three variables is missing,
    and the options are the three values; the look-ups of lines 30-32
    never fail.  Otherwise it raises, and the message names the missing
    variables, in the order of [required_env_vars], followed by the
    instruction line and one [export] line for each of them. *)
Theorem environment_check_outcome (environ : gmap string string) :
  (forall var,
     var ∈ missing_vars environ <->
     var ∈ required_env_vars /\
     (environ !! var = None \/ environ !! var = Some "")) /\
  missing_vars environ `sublist_of` required_env_vars /\
  match check_environment environ with
  | inr options =>
      missing_vars environ = [] /\
      environ !! "AWS_ACCESS_KEY_ID" = Some (so_key options) /\
      environ !! "AWS_SECRET_ACCESS_KEY" = Some (so_secret options) /\
      environ !! "AWS_ENDPOINT_URL_S3" = Some (so_endpoint_url options) /\
      so_key options <> "" /\ so_secret options <> "" /\
      so_endpoint_url options <> ""
  | inl e =>
      missing_vars environ <> [] /\
      exn_str e =
        "Missing required environment variables: "
        +:+ String.concat ", " (missing_vars environ) +:+ newline
        +:+ "Please export these variables before running the script:"
        +:+ newline
        +:+ String.concat ""
              ((fun var => "export " +:+ var +:+ "=<your_value>" +:+ newline)
                 <$> missing_vars environ)
  end.
Proof.
  split; [apply missing_vars_elem|]. split.
  { rewrite missing_vars_filter. apply sublist_filter. }
  pose proof (check_environment_cases environ) as Hcases.
  destruct (check_environment environ) as [e|options]; [|done].
  destruct Hcases as [Hne ->]. split; [done|].
  simpl exn_str. unfold error_message.
  rewrite export_lines_fold. by rewrite !string_app_assoc.
Qed.

(** ** The text of a sample *)

#[local] Arguments in_class : simpl never.

Lemma classes_disjoint (a : ascii) :
  in_class Whitespace a = true -> in_class Digits a = false.
Proof. destruct a as [[] [] [] [] [] [] [] []]; by vm_compute. Qed.

Lemma re_match_one_class (c : char_class) (s : string) :
  re_match_plus s [c] = None <-> starts_in c s = false.
Proof.
  destruct s as [|a s]; simpl; [done|].
  destruct (in_class c a); [|done].
  destruct (re_match_plus s [c]); [|destruct s]; done.
Qed.

Lemma re_match_run (c : char_class) (run rest : string) :
  run <> "" -> all_chars (in_class c) run = true -> starts_in c rest = false ->
  re_match_plus (run +:+ rest) [c] = Some rest.
Proof.
  induction run as [|a run IH]; [done|]. intros _ Hall Hrest.
  simpl in Hall. apply andb_true_iff in Hall as [Ha Hall].
  sapp; cbn [re_match_plus]. rewrite Ha.
  destruct run as [|b run].
  - sapp. apply re_match_one_class in Hrest. rewrite Hrest. by destruct rest.
  - by rewrite IH.
Qed.

Lemma re_match_run_inv (c : char_class) (s after : string) :
  re_match_plus s [c] = Some after ->
  exists run, run <> "" /\ all_chars (in_class c) run = true /\
              s = run +:+ after /\ starts_in c after = false.
Proof.
  revert after. induction s as [|a s IH]; intros after; [done|].
  cbn [re_match_plus]. destruct (in_class c a) eqn:Ha; [|done].
  destruct (re_match_plus s [c]) as [after'|] eqn:Hs.
  - intros [= ->]. destruct (IH _ eq_refl) as (run & Hne & Hall & -> & Hafter).
    exists (String a run). simpl. by rewrite Ha, Hall.
  - apply re_match_one_class in Hs. destruct s; intros [= <-];
      exists (String a ""); simpl; by rewrite Ha.
Qed.

Lemma re_match_number (ds ws rest : string) :
  ds <> "" -> all_chars (in_class Digits) ds = true ->
  ws <> "" -> all_chars (in_class Whitespace) ws = true ->
  starts_in Whitespace rest = false ->
  re_match_plus (ds +:+ ws +:+ rest) [Digits; Whitespace] = Some rest.
Proof.
  intros Hds Hall Hws Hwall Hrest.
  induction ds as [|a ds IH]; [done|].
  simpl in Hall. apply andb_true_iff in Hall as [Ha Hall].
  sapp; cbn [re_match_plus]. rewrite Ha.
  destruct ds as [|b ds].
  - sapp.
    assert (re_match_plus (ws +:+ rest) [Digits; Whitespace] = None) as ->.
    { destruct ws as [|x ws]; [done|]. simpl in Hwall.
      apply andb_true_iff in Hwall as [Hx _].
      sapp; cbn [re_match_plus]. by rewrite (classes_disjoint _ Hx). }
    by apply re_match_run.
  - by rewrite IH.
Qed.

Lemma re_match_number_inv (s after : string) :
  re_match_plus s [Digits; Whitespace] = Some after ->
  exists ds ws,
    ds <> "" /\ all_chars (in_class Digits) ds = true /\
    ws <> "" /\ all_chars (in_class Whitespace) ws = true /\
    s = ds +:+ ws +:+ after /\ starts_in Whitespace after = false.
Proof.
  revert after. induction s as [|a s IH]; intros after; [done|].
  cbn [re_match_plus]. destruct (in_class Digits a) eqn:Ha; [|done].
  destruct (re_match_plus s [Digits; Whitespace]) as [after'|] eqn:Hs.
  - intros [= ->].
    destruct (IH _ eq_refl) as (ds & ws & Hds & Hall & Hws & Hwall & -> & Hafter).
    exists (String a ds), ws. simpl. by rewrite Ha, Hall.
  - intros (ws & Hws & Hwall & -> & Hafter)%re_match_run_inv.
    exists (String a ""), ws. simpl. by rewrite Ha.
Qed.

(** [re.sub(r'^\d+\s+', '', text)] on a text that starts with a
    number: for digits [ds] and white space [ws], both non-empty, and a
    [rest] that does not start with white space, the text [ds ws rest]
    becomes [rest].  The whole run of digits and the whole run of white
    space go, and nothing else. *)
Theorem clean_text_removes_leading_number (ds ws rest : string) :
  ds <> "" -> all_chars (in_class Digits) ds = true ->
  ws <> "" -> all_chars (in_class Whitespace) ws = true ->
  starts_in Whitespace rest = false ->
  clean_text (ds +:+ ws +:+ rest) = rest.
Proof.
  intros. unfold clean_text. by rewrite re_match_number.
Qed.

(** Every other text is left as it is: [clean_text] either returns
    its argument, or the argument is a non-empty run of digits, a
    non-empty run of white space and the result, and the result does not
    start with white space.  So the result is always an end piece of the
    text, a text that does not start with a digit is unchanged, and so is
    a number that no white space follows. *)
Theorem clean_text_keeps_other_text (text : string) :
  (clean_text text = text \/
   exists ds ws,
     ds <> "" /\ all_chars (in_class Digits) ds = true /\
     ws <> "" /\ all_chars (in_class Whitespace) ws = true /\
     text = ds +:+ ws +:+ clean_text text /\
     starts_in Whitespace (clean_text text) = false) /\
  (exists removed, text = removed +:+ clean_text text) /\
  (starts_in Digits text = false -> clean_text text = text) /\
  (all_chars (in_class Digits) text = true -> clean_text text = text).
Proof.
  unfold clean_text.
  destruct (re_match_plus text [Digits; Whitespace]) as [after|] eqn:Hm.
  - destruct (re_match_number_inv _ _ Hm)
      as (ds & ws & Hds & Hall & Hws & Hwall & -> & Hafter).
    split_and!.
    + right. by exists ds, ws.
    + exists (ds +:+ ws). by rewrite string_app_assoc.
    + destruct ds as [|a ds]; [done|]. simpl in *.
      apply andb_true_iff in Hall as [-> _]. done.
    + rewrite !all_chars_app. intros [_ [Hw _]%andb_true_iff]%andb_true_iff.
      destruct ws as [|x ws]; [done|]. simpl in Hw, Hwall.
      apply andb_true_iff in Hw as [Hx _].
      apply andb_true_iff in Hwall as [Hx' _].
      by rewrite (classes_disjoint _ Hx') in Hx.
  - split_and!; [by left|by exists ""|done..].
Qed.








(** ** File names *)

Lemma zeros_length (n : nat) : String.length (zeros n) = n.
Proof. induction n as [|n IH]; simpl; congruence. Qed.

Lemma zeros_digits (n : nat) : all_chars (in_class Digits) (zeros n) = true.
Proof. induction n as [|n IH]; simpl; [done|]. by rewrite IH. Qed.

Lemma decimal_zeros (n : nat) (s : string) : decimal (zeros n +:+ s) = decimal s.
Proof. induction n as [|n IH]; simpl; sapp; [done|]. simpl. by rewrite IH. Qed.

Lemma pretty_N_char_digit (d : N) :
  (d < 10)%N ->
  digit_value (pretty_N_char d) = d /\ in_class Digits (pretty_N_char d) = true.
Proof.
  intros Hd.
  assert (d = 0 \/ d = 1 \/ d = 2 \/ d = 3 \/ d = 4 \/ d = 5 \/ d = 6 \/ d = 7
          \/ d = 8 \/ d = 9)%N as Hcases by lia.
  by repeat (destruct Hcases as [->|Hcases]; [by vm_compute|]); subst.
Qed.

Lemma pretty_N_go_spec (x : N) : forall s,
  decimal (pretty_N_go x s) = (x * 10 ^ N.of_nat (String.length s) + decimal s)%N /\
  (all_chars (in_class Digits) s = true ->
   all_chars (in_class Digits) (pretty_N_go x s) = true) /\
  String.length s <= String.length (pretty_N_go x s).
Proof.
  induction (N.lt_wf_0 x) as [x _ IH]. intros s.
  assert (x = 0 \/ 0 < x)%N as [->|Hx] by lia.
  { rewrite pretty_N_go_0. split_and!; [lia|done|lia]. }
  rewrite pretty_N_go_step by done.
  destruct (IH (x / 10)%N (N.div_lt x 10 Hx eq_refl)
              (String (pretty_N_char (x mod 10)) s)) as (Hval & Hdig & Hlen).
  destruct (pretty_N_char_digit (x mod 10)%N) as [Hd Hc];
    [by apply N.mod_lt|].
  split_and!.
  - rewrite Hval. cbn [decimal String.length]. rewrite Hd.
    rewrite Nat2N.inj_succ, N.pow_succ_r'.
    pose proof (N.div_mod x 10 ltac:(done)) as Hdm.
    set (p := (10 ^ N.of_nat (String.length s))%N). nia.
  - intros Hs. apply Hdig. simpl. by rewrite Hc, Hs.
  - simpl in Hlen. lia.
Qed.

Lemma pretty_N_go_short (k : nat) : forall (x : N) s,
  (x < 10 ^ N.of_nat k)%N ->
  String.length (pretty_N_go x s) <= String.length s + k.
Proof.
  induction k as [|k IH]; intros x s Hx.
  - assert (x = 0%N) as -> by (simpl in Hx; lia). rewrite pretty_N_go_0. lia.
  - assert (x = 0 \/ 0 < x)%N as [->|Hpos] by lia.
    { rewrite pretty_N_go_0. lia. }
    rewrite pretty_N_go_step by done.
    etrans; [apply IH|simpl; lia].
    rewrite Nat2N.inj_succ, N.pow_succ_r' in Hx.
    apply N.Div0.div_lt_upper_bound. lia.
Qed.

Lemma pretty_nat_spec (i : nat) :
  decimal (pretty i) = N.of_nat i /\
  all_chars (in_class Digits) (pretty i) = true /\
  1 <= String.length (pretty i) /\
  (i < 10 ^ 6 -> String.length (pretty i) <= 6).
Proof.
  unfold pretty, pretty_nat, pretty, pretty_N.
  destruct (decide (N.of_nat i = 0%N)) as [Hz|Hnz].
  { rewrite Hz. split_and!; [done|done|simpl; lia|intros _; simpl; lia]. }
  destruct (pretty_N_go_spec (N.of_nat i) "") as (Hval & Hdig & _).
  split_and!.
  - rewrite Hval. simpl. lia.
  - by apply Hdig.
  - rewrite pretty_N_go_step by lia.
    destruct (pretty_N_go_spec (N.of_nat i / 10)
                (String (pretty_N_char (N.of_nat i mod 10)) "")) as (_ & _ & Hlen).
    simpl in Hlen. lia.
  - intros Hi. apply (pretty_N_go_short 6 _ "").
    assert (N.of_nat i < N.of_nat (10 ^ 6))%N as Hlt by lia.
    by rewrite Nat2N.inj_pow in Hlt.
Qed.

Lemma format_06d_decimal (i : nat) : decimal (format_06d i) = N.of_nat i.
Proof.
  unfold format_06d. cbv zeta. rewrite decimal_zeros. apply pretty_nat_spec.
Qed.

Lemma format_06d_inj (i j : nat) : format_06d i = format_06d j -> i = j.
Proof.
  intros H. apply (f_equal decimal) in H. rewrite !format_06d_decimal in H. lia.
Qed.

Lemma string_app_inv_r (a b c : string) : a +:+ c = b +:+ c -> a = b.
Proof.
  revert b. induction a as [|x a IH]; intros [|y b]; sapp; try done.
  - intros H. apply (f_equal String.length) in H. simpl in H.
    rewrite string_app_length in H. lia.
  - intros H. apply (f_equal String.length) in H. simpl in H.
    rewrite string_app_length in H. lia.
  - intros [= -> H]. f_equal. by apply IH.
Qed.

Lemma wav_path_inj (i j : nat) : wav_path i = wav_path j -> i = j.
Proof.
  unfold wav_path, wav_filename. intros H%joinpath_inj.
  by apply format_06d_inj, (string_app_inv_r _ _ ".wav").
Qed.

Lemma substring_suffix (a b : string) :
  String.substring (String.length a) (String.length b) (a +:+ b) = b.
Proof.
  induction a as [|x a IH]; sapp; simpl; [|done].
  induction b as [|y b IH]; simpl; [done|]. by f_equal.
Qed.

Lemma endswith_app (a b : string) : PyStr.endswith (a +:+ b) b = true.
Proof.
  unfold PyStr.endswith. cbv zeta. rewrite string_app_length.
  replace (String.length a + String.length b - String.length b)
    with (String.length a) by lia.
  rewrite substring_suffix, String.eqb_refl, andb_true_r.
  apply Nat.leb_le. lia.
Qed.

Lemma wav_filename_matches (i : nat) : PyPath.fnmatch_ext "wav" (wav_filename i) = true.
Proof. exact (endswith_app (format_06d i) ".wav"). Qed.

(** The file name [f"{i:06d}.wav"]: the six (or more) characters
    before the extension are decimal digits that read back as [i], there
    are exactly six of them for an index below a million, the name
    matches the pattern [*.wav] the enhancer scans for, and two indices
    never share a WAV path. *)
Theorem wav_names_identify_the_index (i j : nat) :
  decimal (format_06d i) = N.of_nat i /\
  all_chars (in_class Digits) (format_06d i) = true /\
  6 <= String.length (format_06d i) /\
  (i < 10 ^ 6 -> String.length (format_06d i) = 6) /\
  PyPath.name (wav_path i) = format_06d i +:+ ".wav" /\
  PyPath.fnmatch_ext "wav" (PyPath.name (wav_path i)) = true /\
  (wav_path i = wav_path j -> i = j).
Proof.
  destruct (pretty_nat_spec i) as (_ & Hdig & Hpos & Hshort).
  split_and!.
  - apply format_06d_decimal.
  - unfold format_06d. cbv zeta. by rewrite all_chars_app, zeros_digits, Hdig.
  - unfold format_06d. cbv zeta. rewrite string_app_length, zeros_length. lia.
  - intros Hi. specialize (Hshort Hi).
    unfold format_06d. cbv zeta. rewrite string_app_length, zeros_length. lia.
  - unfold wav_path. by rewrite name_joinpath.
  - unfold wav_path. rewrite name_joinpath. apply wav_filename_matches.
  - apply wav_path_inj.
Qed.

(** ** The export loop *)

Section ExportData.

Variable B : Backend.
Variable L : DataLib B.

Implicit Types (w : world B) (m : gmap path (node (content B))) (p q : path).
Implicit Types (todo dataset : list (result (ds_sample (audio L)))).
Implicit Types (x : result (ds_sample (audio L))).

Ltac xrun :=
  unfold mbind, M_bind, mret, M_ret, raise, lift, print, get_fs, put_fs;
  cbn beta iota zeta delta [fst snd fs stdout calls].

Lemma lookup_node_joinpath m p (c : string) :
  lookup_node B m (PyPath.joinpath p c) = m !! PyPath.joinpath p c.
Proof. unfold PyPath.joinpath. by destruct p. Qed.

Lemma dirs_below_nil m (root : path) :
  dirs_below B m root = [] <->
  forall q, PyPath.below root q = true -> is_dir (m !! q) = false.
Proof.
  unfold dirs_below. split.
  - intros Hnil q Hb. destruct (is_dir (m !! q)) eqn:Hd; [|done].
    assert (q ∈ filter (fun q : path => is_dir (m !! q)) (ls_below B m root))
      as Hin.
    { apply list_elem_of_filter. split; [by rewrite Hd|].
      apply ls_below_elem. split; [|done]. by destruct (m !! q). }
    rewrite Hnil in Hin. by apply not_elem_of_nil in Hin.
  - intros Hnone.
    destruct (filter (fun q : path => is_dir (m !! q)) (ls_below B m root))
      as [|q l] eqn:Hl; [done|].
    assert (q ∈ filter (fun q : path => is_dir (m !! q)) (ls_below B m root))
      as Hin by (rewrite Hl; left).
    apply list_elem_of_filter in Hin as [Hd Hin].
    apply ls_below_elem in Hin as [_ Hb]. rewrite (Hnone q Hb) in Hd. done.
Qed.

Lemma wavs_ready_spec m :
  wavs_ready B m = true <->
  is_dir (lookup_node B m wavs_dir) = true /\
  forall q, PyPath.below wavs_dir q = true -> is_dir (m !! q) = false.
Proof.
  unfold wavs_ready. rewrite andb_true_iff, <- dirs_below_nil.
  destruct (dirs_below B m wavs_dir); naive_solver.
Qed.

Lemma wavs_ready_insert_file m q (c : content B) :
  q <> wavs_dir -> wavs_ready B m = true ->
  wavs_ready B (<[q := File c]> m) = true.
Proof.
  rewrite !wavs_ready_spec. intros Hq [Hd Hnone]. split.
  - unfold wavs_dir in *. rewrite lookup_node_joinpath in *.
    by rewrite lookup_insert_ne.
  - intros p Hb. destruct (decide (p = q)) as [->|Hne].
    + by rewrite lookup_insert_eq.
    + rewrite lookup_insert_ne by done. auto.
Qed.

Lemma wav_path_parent (i : nat) : removelast (wav_path i) = wavs_dir.
Proof. apply removelast_joinpath. Qed.

Lemma wav_path_below (i : nat) : PyPath.below wavs_dir (wav_path i) = true.
Proof. apply below_joinpath. Qed.

Lemma wav_path_not_wavs_dir (i : nat) : wav_path i <> wavs_dir.
Proof. apply joinpath_neq. Qed.

Lemma wavs_ready_wav m (i : nat) :
  wavs_ready B m = true -> is_dir (lookup_node B m (wav_path i)) = false.
Proof.
  intros [_ Hnone]%wavs_ready_spec. unfold wav_path.
  rewrite lookup_node_joinpath. apply Hnone, below_joinpath.
Qed.

Lemma store_wav (i : nat) (c : content B) w :
  wavs_ready B (fs w) = true ->
  store B (wav_path i) c w
  = (World (<[wav_path i := File c]> (fs w)) (stdout w) (calls w), inr tt).
Proof.
  intros Hr. rewrite store_eq, wav_path_parent, (wavs_ready_wav _ _ Hr).
  apply wavs_ready_spec in Hr as [-> _]. done.
Qed.

(** *** One sample *)

Lemma export_sample_eq (i : nat) x w :
  export_sample L i x w =
  match x with
  | inl e => (w, inl e)
  | inr sample =>
      let speaker := speaker_tag (ds_speaker_name sample) in
      let w1 := add_lines w [speaker] in
      match np_float32 L (ds_audio_array sample) with
      | inl e => (w1, inl e)
      | inr data =>
          match scipy_write L (wav_path i) (ds_sampling_rate sample) data w1 with
          | (w2, inl e) => (w2, inl e)
          | (w2, inr _) =>
              (add_lines w2 [speaker; "Exported " +:+ pretty i],
               inr (csv_row L i sample))
          end
      end
  end.
Proof.
  unfold export_sample. xrun. destruct x as [e|sample]; [done|]. xrun.
  fold (add_lines w [speaker_tag (ds_speaker_name sample)]).
  destruct (np_float32 L (ds_audio_array sample)) as [e|data]; [done|].
  change (PyPath.joinpath wavs_dir (wav_filename i)) with (wav_path i).
  destruct (scipy_write L (wav_path i) (ds_sampling_rate sample) data _)
    as [w2 [e|[]]]; [done|].
  unfold add_lines. xrun. by rewrite <- app_assoc.
Qed.

Lemma scipy_write_eq (i : nat) (rate : Z) (data : wave L) w :
  wavs_ready B (fs w) = true ->
  scipy_write L (wav_path i) rate data w =
  match wavfile_write L rate data with
  | Written c =>
      (World (<[wav_path i := File c]> (fs w)) (stdout w) (calls w), inr tt)
  | Refused e => (w, inl e)
  | Interrupted c e =>
      (World (<[wav_path i := File c]> (fs w)) (stdout w) (calls w), inl e)
  end.
Proof.
  intros Hr. unfold scipy_write.
  destruct (wavfile_write L rate data) as [c|e|c e]; [by apply store_wav|done|].
  xrun. by rewrite (store_wav _ _ _ Hr).
Qed.

Lemma iteration_eq (i : nat) x (rows : list (list string)) w :
  wavs_ready B (fs w) = true ->
  export_iteration L i x rows w =
  (World
     match wav_after L x with
     | Some c => <[wav_path i := File c]> (fs w)
     | None => fs w
     end
     (stdout w ++ sample_lines L i x) (calls w),
   inr (rows ++ match converted L x with
                | inr (sample, _) => [csv_row L i sample]
                | inl _ => []
                end)).
Proof.
  intros Hr. unfold export_iteration, try_except. xrun. rewrite export_sample_eq.
  unfold sample_lines, converted, wav_after.
  destruct x as [e|sample].
  { xrun. by rewrite app_nil_r. }
  cbv zeta. destruct (np_float32 L (ds_audio_array sample)) as [e|data].
  { unfold add_lines. xrun. by rewrite <- app_assoc, app_nil_r. }
  rewrite scipy_write_eq by done.
  destruct (wavfile_write L (ds_sampling_rate sample) data) as [c|e|c e];
    unfold add_lines; xrun; by rewrite <- ?app_assoc, ?app_nil_r.
Qed.

(** Whatever the file system looks like, an iteration ends normally,
    names at most one more row, prints at least one line and touches the
    file system at its own WAV path only. *)
Lemma iteration_any (i : nat) x (rows : list (list string)) w :
  exists w' more,
    export_iteration L i x rows w = (w', inr (rows ++ more)) /\
    length more <= 1 /\
    calls w' = calls w /\
    (exists lines, stdout w' = stdout w ++ lines /\ 1 <= length lines) /\
    forall q, q <> wav_path i -> fs w' !! q = fs w !! q.
Proof.
  unfold export_iteration, try_except. xrun. rewrite export_sample_eq.
  destruct x as [e|sample].
  { xrun. exists (add_lines w ["Skipped " +:+ pretty i +:+ "  : " +:+ exn_str e]), [].
    rewrite app_nil_r. split_and!; [done|simpl; lia|done| |done].
    eexists. split; [done|]. simpl. lia. }
  cbv zeta. destruct (np_float32 L (ds_audio_array sample)) as [e|data].
  { xrun. eexists (World _ _ _), []. rewrite app_nil_r.
    split_and!; [done|simpl; lia|done| |done].
    simpl. rewrite <- app_assoc. eexists. split; [done|]. simpl. lia. }
  unfold scipy_write.
  assert (forall (c : content B) w0,
            calls (store B (wav_path i) c w0).1 = calls w0 /\
            stdout (store B (wav_path i) c w0).1 = stdout w0 /\
            forall q, q <> wav_path i ->
                      fs (store B (wav_path i) c w0).1 !! q = fs w0 !! q) as Hstore.
  { intros c w0. destruct (store_effect B (wav_path i) c w0) as [[-> _]|[-> _]];
      [done|]. simpl. split_and!; [done..|].
    intros q Hq. by rewrite lookup_insert_ne. }
  destruct (wavfile_write L (ds_sampling_rate sample) data) as [c|e|c e].
  - destruct (Hstore c (add_lines w [speaker_tag (ds_speaker_name sample)]))
      as (Hc & Ho & Hf).
    destruct (store B (wav_path i) c _) as [w2 [e|[]]]; simpl in *.
    + xrun. eexists (World _ _ _), []. rewrite app_nil_r.
      split_and!; [done|simpl; lia|done| |done].
      simpl. rewrite Ho, <- app_assoc. eexists. split; [done|]. simpl. lia.
    + eexists (World _ _ _), [_].
      split_and!; [done|simpl; lia|done| |done].
      simpl. rewrite Ho, <- app_assoc. eexists. split; [done|]. simpl. lia.
  - xrun. eexists (World _ _ _), []. rewrite app_nil_r.
    split_and!; [done|simpl; lia|done| |done].
    simpl. rewrite <- app_assoc. eexists. split; [done|]. simpl. lia.
  - xrun.
    destruct (Hstore c (add_lines w [speaker_tag (ds_speaker_name sample)]))
      as (Hc & Ho & Hf).
    destruct (store B (wav_path i) c _) as [w2 [e'|[]]]; simpl in *.
    + xrun. eexists (World _ _ _), []. rewrite app_nil_r.
      split_and!; [done|simpl; lia|done| |done].
      simpl. rewrite Ho, <- app_assoc. eexists. split; [done|]. simpl. lia.
    + xrun. eexists (World _ _ _), []. rewrite app_nil_r.
      split_and!; [done|simpl; lia|done| |done].
      simpl. rewrite Ho, <- app_assoc. eexists. split; [done|]. simpl. lia.
Qed.

(** *** The loop *)

Lemma export_loop_eq todo : forall (i : nat) (rows : list (list string)) w,
  wavs_ready B (fs w) = true ->
  export_loop L todo i rows w =
  (World (wavs_from L todo i (fs w)) (stdout w ++ lines_from L todo i) (calls w),
   inr (rows ++ rows_from L todo i)).
Proof.
  induction todo as [|x rest IH]; intros i rows w Hr.
  - simpl. xrun. rewrite !app_nil_r. by destruct w.
  - cbn [export_loop wavs_from lines_from rows_from]. xrun.
    rewrite iteration_eq by done. rewrite IH.
    + xrun. rewrite <- !app_assoc.
      by destruct (converted L x) as [e|[sample c]].
    + xrun. destruct (wav_after L x) as [c|]; [|done].
      apply wavs_ready_insert_file; [apply wav_path_not_wavs_dir|done].
Qed.

Lemma export_loop_any todo : forall (i : nat) (rows : list (list string)) w,
  exists w' more,
    export_loop L todo i rows w = (w', inr (rows ++ more)) /\
    length more <= length todo /\
    calls w' = calls w /\
    (exists lines, stdout w' = stdout w ++ lines /\ length todo <= length lines) /\
    forall q, (forall k, i <= k < i + length todo -> q <> wav_path k) ->
              fs w' !! q = fs w !! q.
Proof.
  induction todo as [|x rest IH]; intros i rows w.
  - exists w, []. simpl. xrun. rewrite app_nil_r.
    split_and!; [done..| |done]. exists []. by rewrite app_nil_r.
  - cbn [export_loop]. xrun.
    destruct (iteration_any i x rows w)
      as (w1 & more1 & -> & Hlen1 & Hc1 & (lines1 & Ho1 & Hl1) & Hf1).
    destruct (IH (S i) (rows ++ more1) w1)
      as (w2 & more2 & -> & Hlen2 & Hc2 & (lines2 & Ho2 & Hl2) & Hf2).
    exists w2, (more1 ++ more2). rewrite <- app_assoc.
    split_and!; [done| |congruence| |].
    + rewrite length_app. simpl. lia.
    + exists (lines1 ++ lines2). rewrite Ho2, Ho1, <- app_assoc.
      split; [done|]. rewrite length_app. simpl. lia.
    + intros q Hq. rewrite Hf2, Hf1; [done| |].
      * apply Hq. simpl. lia.
      * intros k Hk. apply Hq. simpl. lia.
Qed.

Lemma wavs_from_other todo : forall (i : nat) m q,
  (forall k, i <= k < i + length todo -> q <> wav_path k) ->
  wavs_from L todo i m !! q = m !! q.
Proof.
  induction todo as [|x rest IH]; intros i m q Hq; [done|].
  cbn [wavs_from]. rewrite IH.
  - destruct (wav_after L x) as [c|]; [|done].
    rewrite lookup_insert_ne; [done|]. intros Heq. apply (Hq i); [simpl; lia|done].
  - intros k Hk. apply Hq. simpl. lia.
Qed.

Lemma wavs_from_lookup todo : forall (i k : nat) m x,
  todo !! k = Some x ->
  wavs_from L todo i m !! wav_path (i + k) =
  match wav_after L x with
  | Some c => Some (File c)
  | None => m !! wav_path (i + k)
  end.
Proof.
  induction todo as [|y rest IH]; intros i k m x Hk; [done|].
  cbn [wavs_from]. destruct k as [|k]; simpl in Hk.
  - injection Hk as ->. rewrite Nat.add_0_r, wavs_from_other.
    + destruct (wav_after L x) as [c|]; [|done]. by rewrite lookup_insert_eq.
    + intros k Hk Heq%wav_path_inj. lia.
  - replace (i + S k) with (S i + k) by lia. rewrite (IH _ _ _ _ Hk).
    destruct (wav_after L x) as [c|]; [done|].
    destruct (wav_after L y) as [c'|]; [|done].
    rewrite lookup_insert_ne; [done|]. intros Heq%wav_path_inj. lia.
Qed.

Lemma wavs_from_ready todo : forall (i : nat) m,
  wavs_ready B m = true -> wavs_ready B (wavs_from L todo i m) = true.
Proof.
  induction todo as [|x rest IH]; intros i m Hr; [done|].
  cbn [wavs_from]. apply IH. destruct (wav_after L x) as [c|]; [|done].
  apply wavs_ready_insert_file; [apply wav_path_not_wavs_dir|done].
Qed.

Lemma wavs_from_tree todo : forall (i : nat) m,
  wavs_ready B m = true -> tree B m -> tree B (wavs_from L todo i m).
Proof.
  induction todo as [|x rest IH]; intros i m Hr Ht; [done|].
  cbn [wavs_from]. destruct (wav_after L x) as [c|]; [|by apply IH].
  apply IH.
  - apply wavs_ready_insert_file; [apply wav_path_not_wavs_dir|done].
  - apply store_tree; [apply joinpath_nonempty| |by apply wavs_ready_wav|done].
    rewrite wav_path_parent. by apply wavs_ready_spec in Hr as [? _].
Qed.

(** *** The rows *)

Lemma converted_wav_after x (sample : ds_sample (audio L)) (c : content B) :
  converted L x = inr (sample, c) -> x = inr sample /\ wav_after L x = Some c.
Proof.
  unfold converted, wav_after. destruct x as [e|s]; [done|].
  destruct (np_float32 L (ds_audio_array s)) as [e|data]; [done|].
  destruct (wavfile_write L (ds_sampling_rate s) data); naive_solver.
Qed.

Lemma rows_from_elem todo : forall (i : nat) (row : list string),
  row ∈ rows_from L todo i <->
  exists k x sample c,
    todo !! k = Some x /\ converted L x = inr (sample, c) /\
    row = csv_row L (i + k) sample.
Proof.
  induction todo as [|y rest IH]; intros i row.
  - simpl. split; [by intros ?%not_elem_of_nil|]. by intros (k & x & s & c & ? & _).
  - cbn [rows_from]. split.
    + intros Hin.
      assert (row ∈ rows_from L rest (S i) \/
              exists sample c, converted L y = inr (sample, c) /\
                               row = csv_row L i sample) as [Hrest|Hhead].
      { destruct (converted L y) as [e|[sample c]]; [by left|].
        apply elem_of_cons in Hin as [->|Hin]; [right; eauto|by left]. }
      * apply IH in Hrest as (k & x & s & c & Hk & Hx & ->).
        exists (S k), x, s, c. split_and!; [done..|]. f_equal. lia.
      * destruct Hhead as (s & c & Hy & ->).
        exists 0, y, s, c. by rewrite Nat.add_0_r.
    + intros (k & x & s & c & Hk & Hx & ->). destruct k as [|k]; simpl in Hk.
      * injection Hk as ->. rewrite Hx, Nat.add_0_r. left.
      * assert (csv_row L (i + S k) s ∈ rows_from L rest (S i)) as Hin.
        { apply IH. exists k, x, s, c. split_and!; [done..|]. f_equal. lia. }
        destruct (converted L y) as [e|[s' c']]; [done|by right].
Qed.

Lemma audio_file_inj (i j : nat) :
  "wavs/" +:+ wav_filename i = "wavs/" +:+ wav_filename j -> i = j.
Proof.
  intros H%(inj (String.append "wavs/")).
  by apply format_06d_inj, (string_app_inv_r _ _ ".wav").
Qed.

Lemma rows_from_length todo : forall (i : nat),
  length (rows_from L todo i) <= length todo.
Proof.
  induction todo as [|y rest IH]; intros i; [done|]. cbn [rows_from].
  specialize (IH (S i)). destruct (converted L y) as [e|[s c]]; simpl; lia.
Qed.

Lemma rows_from_NoDup todo : forall (i : nat),
  NoDup (hd "" <$> rows_from L todo i).
Proof.
  induction todo as [|y rest IH]; intros i; [constructor|].
  cbn [rows_from]. destruct (converted L y) as [e|[s c]]; [apply IH|].
  rewrite fmap_cons. constructor; [|apply IH].
  intros (row & Hhd & Hin)%list_elem_of_fmap.
  apply rows_from_elem in Hin as (k & x & s' & c' & _ & _ & ->).
  simpl in Hhd. apply audio_file_inj in Hhd. lia.
Qed.

(** *** [export_data] *)

Lemma can_open_store (csv_path : path) (c : content B) w :
  can_open B (fs w) csv_path = true ->
  store B csv_path c w
  = (World (<[csv_path := File c]> (fs w)) (stdout w) (calls w), inr tt).
Proof.
  unfold can_open. intros [Hp Ht%negb_true_iff]%andb_true_iff.
  by rewrite store_eq, Hp, Ht.
Qed.

Lemma export_data_eq (ds : string -> option (list (result (ds_sample (audio L)))))
    (split : string) (csv_path : path) dataset w :
  ds split = Some dataset ->
  wavs_ready B (fs w) = true ->
  can_open B (fs w) csv_path = true ->
  PyPath.below wavs_dir csv_path = false ->
  export_data L ds split csv_path w =
  (World
     (<[csv_path := File (csv_encode L (header :: rows_from L dataset 0))]>
        (wavs_from L dataset 0 (<[csv_path := File (csv_encode L [])]> (fs w))))
     (stdout w ++ lines_from L dataset 0) (calls w),
   inr tt).
Proof.
  intros Hds Hr Hopen Hb. unfold export_data. xrun.
  rewrite can_open_store by done. rewrite Hds. xrun.
  rewrite export_loop_eq; [done|]. xrun.
  apply wavs_ready_insert_file; [|done].
  intros ->. apply andb_true_iff in Hopen as [_ Hn%negb_true_iff].
  apply wavs_ready_spec in Hr as [Hd _]. congruence.
Qed.

Lemma export_data_frame
    (ds : string -> option (list (result (ds_sample (audio L)))))
    (split : string) (csv_path : path) w q :
  q <> csv_path -> (forall k, q <> wav_path k) ->
  fs (export_data L ds split csv_path w).1 !! q = fs w !! q.
Proof.
  intros Hq Hk. unfold export_data, close_csv. xrun.
  destruct (store_effect B csv_path (csv_encode L []) w)
    as [[Hw (e & He)]|[-> _]].
  { destruct (store B csv_path (csv_encode L []) w) as [w' [e'|u]];
      simpl in *; congruence. }
  xrun. destruct (ds split) as [dataset|].
  - destruct (export_loop_any dataset 0 [["audio_file"; "text"; "speaker_name"]]
                (World (<[csv_path := File (csv_encode L [])]> (fs w))
                   (stdout w) (calls w)))
      as (w1 & more & -> & _ & _ & _ & Hf).
    xrun. rewrite lookup_insert_ne by done.
    rewrite Hf by (intros k _; apply Hk). simpl. by rewrite lookup_insert_ne.
  - xrun. by rewrite !lookup_insert_ne.
Qed.

(** What [export_data] can end with.  If the CSV file cannot be
    opened, that error is raised and nothing has happened.  If [ds] has
    no such split, the [KeyError] is raised, nothing is printed, and the
    CSV file holds the header row alone.  Otherwise the call returns,
    whatever happens to the samples and whatever the state of the
    [wavs] directory: the CSV file holds the header and at most one row
    per sample, at least one line per sample has been printed, and
    apart from the CSV file only the WAV paths of the indices below
    [len(dataset)] can have changed. *)
Theorem export_data_outcome
    (ds : string -> option (list (result (ds_sample (audio L)))))
    (split : string) (csv_path : path) w :
  let r := export_data L ds split csv_path w in
  match (store B csv_path (csv_encode L []) w).2 with
  | inl e => r = (w, inl e)
  | inr _ =>
      calls r.1 = calls w /\
      match ds split with
      | None =>
          r.2 = inl (Exception ("'" +:+ split +:+ "'")) /\
          stdout r.1 = stdout w /\
          fs r.1 = <[csv_path := File (csv_encode L [header])]> (fs w)
      | Some dataset =>
          r.2 = inr tt /\
          (exists rows,
             length rows <= length dataset /\
             fs r.1 !! csv_path = Some (File (csv_encode L (header :: rows)))) /\
          (exists lines,
             stdout r.1 = stdout w ++ lines /\ length dataset <= length lines) /\
          forall q,
            q <> csv_path -> (forall k, k < length dataset -> q <> wav_path k) ->
            fs r.1 !! q = fs w !! q
      end
  end.
Proof.
  intros r. subst r. unfold export_data. xrun.
  destruct (store_effect B csv_path (csv_encode L []) w)
    as [[Hw (e & He)]|[-> _]].
  { rewrite He. destruct (store B csv_path (csv_encode L []) w) as [w' [e'|u]];
      simpl in *; congruence. }
  xrun. change ["audio_file"; "text"; "speaker_name"] with header.
  destruct (ds split) as [dataset|].
  - destruct (export_loop_any dataset 0 [header]
                (World (<[csv_path := File (csv_encode L [])]> (fs w))
                   (stdout w) (calls w)))
      as (w1 & more & -> & Hlen & Hc & (lines & Ho & Hl) & Hf).
    xrun. simpl in *. split_and!; [done|done| |by eauto|].
    + exists more. split; [done|]. by rewrite lookup_insert_eq.
    + intros q Hq Hk. rewrite lookup_insert_ne by done.
      rewrite Hf; [by rewrite lookup_insert_ne|]. intros k Hlt. apply Hk. lia.
  - unfold close_csv. xrun. split_and!; [done..|]. by rewrite insert_insert_eq.
Qed.

(** When the [wavs] directory is in place and holds no directory,
    and the CSV file can be opened outside it, the metadata and the
    recordings of one call agree: the CSV file holds the header and one
    row for every sample that converted, a row names the WAV file of
    its sample's index, that file holds the sample's encoded audio, no
    WAV file is named twice, and a sample that was skipped before its
    file was opened leaves whatever was at its path. *)
Theorem metadata_matches_recordings
    (ds : string -> option (list (result (ds_sample (audio L)))))
    (split : string) (csv_path : path) dataset w :
  ds split = Some dataset ->
  wavs_ready B (fs w) = true ->
  can_open B (fs w) csv_path = true ->
  PyPath.below wavs_dir csv_path = false ->
  let r := export_data L ds split csv_path w in
  let rows := rows_from L dataset 0 in
  r.2 = inr tt /\
  stdout r.1 = stdout w ++ lines_from L dataset 0 /\
  fs r.1 !! csv_path = Some (File (csv_encode L (header :: rows))) /\
  (forall k x sample c,
     dataset !! k = Some x -> converted L x = inr (sample, c) ->
     csv_row L k sample ∈ rows /\ fs r.1 !! wav_path k = Some (File c)) /\
  (forall row, row ∈ rows ->
     exists k x sample c,
       dataset !! k = Some x /\ converted L x = inr (sample, c) /\
       row = csv_row L k sample) /\
  NoDup (hd "" <$> rows) /\
  (forall k x,
     dataset !! k = Some x -> wav_after L x = None ->
     fs r.1 !! wav_path k = fs w !! wav_path k) /\
  wavs_ready B (fs r.1) = true.
Proof.
  intros Hds Hr Hopen Hb r rows. subst r rows.
  rewrite (export_data_eq _ _ _ _ _ Hds Hr Hopen Hb). xrun.
  assert (forall k, csv_path <> wav_path k) as Hcsv.
  { intros k ->. by rewrite wav_path_below in Hb. }
  assert (csv_path <> wavs_dir) as Hnw.
  { intros ->. apply andb_true_iff in Hopen as [_ Hn%negb_true_iff].
    apply wavs_ready_spec in Hr as [Hd _]. congruence. }
  split_and!; [done|done|by rewrite lookup_insert_eq| | | | |].
  - intros k x s c Hk Hx. split.
    + apply rows_from_elem. by exists k, x, s, c.
    + rewrite lookup_insert_ne by done.
      rewrite (wavs_from_lookup dataset 0 k _ x Hk).
      by destruct (converted_wav_after _ _ _ Hx) as [_ ->].
  - intros row Hin. by apply rows_from_elem in Hin.
  - apply rows_from_NoDup.
  - intros k x Hk Hx. rewrite lookup_insert_ne by done.
    rewrite (wavs_from_lookup dataset 0 k _ x Hk), Hx.
    by rewrite lookup_insert_ne.
  - apply wavs_ready_insert_file; [done|]. apply wavs_from_ready.
    by apply wavs_ready_insert_file.
Qed.

End ExportData.

(** ** The script *)

Lemma output_dir_parts : output_dir = ["dataset"].
Proof. reflexivity. Qed.

Lemma wavs_dir_parts : wavs_dir = ["dataset"; "wavs"].
Proof. reflexivity. Qed.

Lemma enhancer_input_is_wavs_dir : PyPath.Path "./dataset/wavs" = wavs_dir.
Proof. reflexivity. Qed.

Section Script.

Variable B : Backend.
Variable L : DataLib B.

Implicit Types (w : world B) (m : gmap path (node (content B))) (p q : path).
Implicit Types (train test : list (result (ds_sample (audio L)))).

Ltac xrun :=
  unfold mbind, M_bind, mret, M_ret, raise, lift, print, get_fs, put_fs;
  cbn beta iota zeta delta [fst snd fs stdout calls].

(** The file system after [export_data], in closed form. *)
Local Abbreviation exported dataset csv_path m :=
  (<[csv_path := File (csv_encode L (header :: rows_from L dataset 0))]>
     (wavs_from L dataset 0 (<[csv_path := File (csv_encode L [])]> m))).

Lemma exported_other dataset (csv_path : path) m q :
  q <> csv_path -> (forall k, q <> wav_path k) ->
  exported dataset csv_path m !! q = m !! q.
Proof.
  intros Hq Hk. rewrite lookup_insert_ne by done.
  rewrite wavs_from_other by (intros k _; apply Hk).
  by rewrite lookup_insert_ne.
Qed.

Lemma can_open_not_wavs_dir m (csv_path : path) :
  wavs_ready B m = true -> can_open B m csv_path = true -> csv_path <> wavs_dir.
Proof.
  intros [Hd _]%wavs_ready_spec [_ Hn%negb_true_iff]%andb_true_iff ->.
  congruence.
Qed.

Lemma exported_ready dataset (csv_path : path) m :
  wavs_ready B m = true -> can_open B m csv_path = true ->
  wavs_ready B (exported dataset csv_path m) = true.
Proof.
  intros Hr Hopen. pose proof (can_open_not_wavs_dir _ _ Hr Hopen) as Hne.
  apply wavs_ready_insert_file; [done|]. apply wavs_from_ready.
  by apply wavs_ready_insert_file.
Qed.

Lemma is_dir_insert_file m q (c : content B) p :
  is_dir (lookup_node B m p) = true -> p <> q ->
  is_dir (lookup_node B (<[q := File c]> m) p) = true.
Proof.
  intros Hd Hne. apply (lookup_node_keeps_dir B m); [|done].
  by rewrite lookup_insert_ne.
Qed.

Lemma exported_tree dataset (csv_path : path) m :
  wavs_ready B m = true -> can_open B m csv_path = true ->
  PyPath.below wavs_dir csv_path = false -> csv_path <> [] ->
  tree B m -> tree B (exported dataset csv_path m).
Proof.
  intros Hr Hopen Hb Hne Ht.
  pose proof (can_open_not_wavs_dir _ _ Hr Hopen) as Hnw.
  apply andb_true_iff in Hopen as [Hp Hn%negb_true_iff].
  assert (tree B (<[csv_path := File (csv_encode L [])]> m)) as Ht1
    by by apply store_tree.
  assert (wavs_ready B (<[csv_path := File (csv_encode L [])]> m) = true) as Hr1
    by by apply wavs_ready_insert_file.
  pose proof (wavs_from_tree B L dataset 0 _ Hr1 Ht1) as Ht2.
  assert (forall q, (forall k, q <> wav_path k) ->
            wavs_from L dataset 0 (<[csv_path := File (csv_encode L [])]> m) !! q
            = <[csv_path := File (csv_encode L [])]> m !! q) as Hsame.
  { intros q Hq. apply wavs_from_other. intros k _. apply Hq. }
  assert (forall q k, PyPath.below wavs_dir q = false -> q <> wav_path k) as Hout.
  { intros q k Hq ->. by rewrite wav_path_below in Hq. }
  apply store_tree; [done| | |done].
  - destruct (removelast csv_path) as [|a rest] eqn:Hrl; [done|].
    simpl in *. rewrite Hsame.
    + rewrite lookup_insert_ne; [done|]. intros Heq.
      apply (f_equal length) in Heq.
      destruct csv_path as [|z l] using rev_ind; [done|].
      rewrite removelast_last in Hrl. rewrite <- Hrl, length_app in Heq.
      simpl in Heq. lia.
    + intros k Heq. destruct (m !! (a :: rest)) as [[?|]|] eqn:Hm; try done.
      apply wavs_ready_spec in Hr as [_ Hnone].
      specialize (Hnone (wav_path k) (wav_path_below k)).
      by rewrite <- Heq, Hm in Hnone.
  - destruct csv_path as [|a rest]; [done|]. simpl.
    rewrite Hsame by (intros k; by apply Hout).
    by rewrite lookup_insert_eq.
Qed.

Lemma wavs_from_keeps
    (todo : list (result (ds_sample (audio L)))) : forall (i : nat) m q,
  is_Some (m !! q) -> is_Some (wavs_from L todo i m !! q).
Proof.
  induction todo as [|x rest IH]; intros i m q Hq; [done|].
  cbn [wavs_from]. apply IH. destruct (wav_after L x) as [c|]; [|done].
  destruct (decide (q = wav_path i)) as [->|Hne].
  - rewrite lookup_insert_eq. eauto.
  - by rewrite lookup_insert_ne.
Qed.

(** In a tree in which [wavs] holds no directory, everything below
    [wavs] sits directly in it. *)
Lemma flat_when_ready m q :
  tree B m -> wavs_ready B m = true ->
  PyPath.below wavs_dir q = true -> is_Some (m !! q) ->
  removelast q = wavs_dir.
Proof.
  intros Ht [_ Hnone]%wavs_ready_spec (c & rest & ->)%below_spec Hq.
  destruct rest as [|z rest _] using rev_ind.
  { apply (removelast_last wavs_dir c). }
  rewrite app_comm_cons, app_assoc in Hq. apply Ht in Hq.
  assert (PyPath.below wavs_dir (wavs_dir ++ c :: rest) = true) as Hb
    by (apply below_spec; eauto).
  specialize (Hnone _ Hb).
  destruct (wavs_dir ++ c :: rest) as [|a l] eqn:Hl.
  { by destruct wavs_dir. }
  simpl in Hq. congruence.
Qed.

Lemma generate_data_eq (environ : gmap string string) w :
  generate_data L environ w =
  match check_environment environ with
  | inl e => (w, inl e)
  | inr options =>
      match load_from_disk L "s3://burkimbia/audios/final_dataset" options with
      | inl e => (w, inl e)
      | inr d =>
          match train_test_split L d 0.002%float 42%Z with
          | inl e => (w, inl e)
          | inr ds =>
              match mkdir_from B (fs w) [] wavs_dir with
              | inl e => (w, inl e)
              | inr m1 =>
                  (export_data L ds "train" metadata_train_path;;
                   export_data L ds "test" metadata_eval_path)
                    (World m1 (stdout w) (calls w))
              end
          end
      end
  end.
Proof.
  unfold generate_data. xrun.
  destruct (check_environment environ) as [e|options]; [done|].
  destruct (load_from_disk L _ options) as [e|d]; [done|].
  destruct (train_test_split L d 0.002%float 42%Z) as [e|ds]; [done|].
  rewrite mkdir_eq. by destruct (mkdir_from B (fs w) [] wavs_dir).
Qed.

(** What a successful [os.makedirs(wavs_dir)] leaves. *)
Lemma makedirs_ready m m1 :
  mkdir_from B m [] wavs_dir = inr m1 ->
  dirs_below B m wavs_dir = [] ->
  wavs_ready B m1 = true /\
  is_dir (lookup_node B m1 output_dir) = true /\
  forall q, q <> output_dir -> q <> wavs_dir -> m1 !! q = m !! q.
Proof.
  intros Hm Hnone. split_and!.
  - apply wavs_ready_spec. split; [by eapply mkdir_from_target|].
    intros q Hb.
    destruct (mkdir_from_lookup B _ _ _ _ Hm q)
      as [->|(_ & _ & c & pre & post & Hw & ->)].
    { by apply (dirs_below_nil B m wavs_dir). }
    apply below_length in Hb. rewrite Hw in Hb.
    rewrite !length_app in Hb. simpl in Hb. lia.
  - pose proof (mkdir_from_creates B _ _ _ _ Hm "dataset" [] ["wavs"] eq_refl) as Hd.
    simpl in Hd. rewrite output_dir_parts. simpl. by rewrite Hd.
  - intros q Ho Hw.
    destruct (mkdir_from_lookup B _ _ _ _ Hm q)
      as [->|(_ & _ & c & pre & post & Hparts & ->)]; [done|].
    rewrite wavs_dir_parts in Hparts.
    destruct pre as [|a [|b [|? ?]]]; simplify_eq/=; done.
Qed.

(** The script raises before it has written anything when the
    environment check fails (exactly when a variable is missing), when
    the data set cannot be loaded or split, or when [os.makedirs] fails:
    nothing is printed and the file system is unchanged.  In every other
    case the [wavs] directory exists when the script ends, however the
    two exports go. *)
Theorem generate_data_fails_before_writing (environ : gmap string string) w :
  let r := generate_data L environ w in
  match check_environment environ with
  | inl e => missing_vars environ <> [] /\ r = (w, inl e)
  | inr options =>
      missing_vars environ = [] /\
      match load_from_disk L "s3://burkimbia/audios/final_dataset" options with
      | inl e => r = (w, inl e)
      | inr d =>
          match train_test_split L d 0.002%float 42%Z with
          | inl e => r = (w, inl e)
          | inr _ =>
              match (mkdir B wavs_dir w).2 with
              | inl e => r = (w, inl e)
              | inr _ => is_dir (lookup_node B (fs r.1) wavs_dir) = true
              end
          end
      end
  end.
Proof.
  intros r. subst r. rewrite generate_data_eq, mkdir_eq.
  pose proof (check_environment_cases environ) as Hcases.
  destruct (check_environment environ) as [e|options]; [by destruct Hcases|].
  split; [by destruct Hcases|]. clear Hcases.
  destruct (load_from_disk L _ options) as [e|d]; [done|].
  destruct (train_test_split L d 0.002%float 42%Z) as [e|ds]; [done|].
  destruct (mkdir_from B (fs w) [] wavs_dir) as [e|m1] eqn:Hm; [done|].
  cbv zeta. xrun. simpl.
  pose proof (mkdir_from_target B _ _ _ Hm) as Hdir.
  set (w1 := World m1 (stdout w) (calls w)).
  assert (forall w', fs w' !! wavs_dir = Some Dir ->
            is_dir (lookup_node B (fs w') wavs_dir) = true) as Hlook.
  { intros w' Hw'. rewrite wavs_dir_parts in *. simpl. by rewrite Hw'. }
  assert (fs w1 !! wavs_dir = Some Dir) as H1.
  { rewrite wavs_dir_parts in *. simpl in *.
    by destruct (m1 !! ["dataset"; "wavs"]) as [[?|]|]. }
  assert (forall csv_path w',
            csv_path <> wavs_dir -> fs w' !! wavs_dir = Some Dir ->
            fs (export_data L ds "train" csv_path w').1 !! wavs_dir = Some Dir /\
            fs (export_data L ds "test" csv_path w').1 !! wavs_dir = Some Dir)
    as Hkeep.
  { intros csv_path w' Hne Hw'.
    rewrite !export_data_frame; [done|done| |done|].
    all: intros k Heq; symmetry in Heq; by apply wav_path_not_wavs_dir in Heq. }
  destruct (Hkeep metadata_train_path w1 ltac:(done) H1) as [H2 _].
  destruct (export_data L ds "train" metadata_train_path w1) as [w2 [e|[]]];
    simpl in *; [by apply Hlook|].
  destruct (Hkeep metadata_eval_path w2 ltac:(done) H2) as [_ H3].
  destruct (export_data L ds "test" metadata_eval_path w2) as [w3 [e|[]]];
    by apply Hlook.
Qed.

Section Run.

Variables (environ : gmap string string) (w : world B).
Variables (options : storage_options) (d : dataset L).
Variable ds : string -> option (list (result (ds_sample (audio L)))).
Variables (train test : list (result (ds_sample (audio L)))).

Hypothesis Henv : check_environment environ = inr options.
Hypothesis Hload :
  load_from_disk L "s3://burkimbia/audios/final_dataset" options = inr d.
Hypothesis Hsplit : train_test_split L d 0.002%float 42%Z = inr ds.
Hypothesis Htrain : ds "train" = Some train.
Hypothesis Htest : ds "test" = Some test.
Hypothesis Hmk : (mkdir B wavs_dir w).2 = inr tt.
Hypothesis Hnodirs : dirs_below B (fs w) wavs_dir = [].
Hypothesis Hcsv1 : is_dir (fs w !! metadata_train_path) = false.
Hypothesis Hcsv2 : is_dir (fs w !! metadata_eval_path) = false.

(** The whole run in closed form. *)
Lemma generate_data_run :
  exists m1,
    mkdir_from B (fs w) [] wavs_dir = inr m1 /\
    wavs_ready B m1 = true /\
    can_open B m1 metadata_train_path = true /\
    wavs_ready B (exported train metadata_train_path m1) = true /\
    can_open B (exported train metadata_train_path m1) metadata_eval_path = true /\
    generate_data L environ w =
    (World
       (exported test metadata_eval_path (exported train metadata_train_path m1))
       ((stdout w ++ lines_from L train 0) ++ lines_from L test 0) (calls w),
     inr tt).
Proof.
  rewrite generate_data_eq, Henv, Hload, Hsplit.
  rewrite mkdir_eq in Hmk.
  destruct (mkdir_from B (fs w) [] wavs_dir) as [e|m1] eqn:Hm; [done|].
  destruct (makedirs_ready _ _ Hm Hnodirs) as (Hr1 & Hout & Hsame).
  exists m1.
  assert (can_open B m1 metadata_train_path = true) as Hopen1.
  { unfold can_open, metadata_train_path.
    rewrite removelast_joinpath, Hout, lookup_node_joinpath. simpl.
    fold metadata_train_path. rewrite Hsame by done. by rewrite Hcsv1. }
  pose proof (exported_ready train _ _ Hr1 Hopen1) as Hr2.
  assert (can_open B (exported train metadata_train_path m1) metadata_eval_path
          = true) as Hopen2.
  { unfold can_open. apply andb_true_iff. split.
    - unfold metadata_eval_path at 1. rewrite removelast_joinpath.
      rewrite output_dir_parts in *. simpl in *.
      rewrite exported_other; [done|done|].
      intros k Heq. apply (f_equal length) in Heq. done.
    - apply negb_true_iff. unfold metadata_eval_path at 1.
      rewrite lookup_node_joinpath. fold metadata_eval_path.
      rewrite exported_other; [|done|].
      + rewrite Hsame by done. by rewrite Hcsv2.
      + intros k Heq. assert (PyPath.below wavs_dir metadata_eval_path = true)
          as Hb by (rewrite Heq; apply wav_path_below). done. }
  split_and!; [done..|].
  cbv zeta. xrun.
  rewrite (export_data_eq B L _ _ _ train) by done. xrun.
  by rewrite (export_data_eq B L _ _ _ test).
Qed.

(** One numbering for both splits: the export of the test split starts
    at index 0 again and writes into the same directory.  When sample
    [k] of the train split and sample [k] of the test split both
    convert, both CSV files list their sample under the same file name,
    and the file holds the recording of the test sample: the row of the
    train sample has lost its audio. *)
Theorem test_export_overwrites_train_recordings (k : nat)
    (x y : result (ds_sample (audio L)))
    (sample sample' : ds_sample (audio L)) (c c' : content B) :
  train !! k = Some x -> test !! k = Some y ->
  converted L x = inr (sample, c) -> converted L y = inr (sample', c') ->
  let r := generate_data L environ w in
  r.2 = inr tt /\
  fs r.1 !! metadata_train_path
    = Some (File (csv_encode L (header :: rows_from L train 0))) /\
  fs r.1 !! metadata_eval_path
    = Some (File (csv_encode L (header :: rows_from L test 0))) /\
  csv_row L k sample ∈ rows_from L train 0 /\
  csv_row L k sample' ∈ rows_from L test 0 /\
  hd "" (csv_row L k sample) = "wavs/" +:+ wav_filename k /\
  hd "" (csv_row L k sample') = "wavs/" +:+ wav_filename k /\
  fs r.1 !! wav_path k = Some (File c').
Proof.
  intros Hx Hy Hcx Hcy r. subst r.
  destruct generate_data_run as (m1 & _ & _ & _ & _ & _ & ->). xrun.
  assert (forall k, metadata_eval_path <> wav_path k) as Hne.
  { intros j Heq.
    assert (PyPath.below wavs_dir metadata_eval_path = true) as Hb
      by (rewrite Heq; apply wav_path_below). done. }
  split_and!; [done| |by rewrite lookup_insert_eq| | |done|done|].
  - rewrite exported_other; [by rewrite lookup_insert_eq|done|].
    intros j Heq.
    assert (PyPath.below wavs_dir metadata_train_path = true) as Hb
      by (rewrite Heq; apply wav_path_below). done.
  - apply rows_from_elem. by exists k, x, sample, c.
  - apply rows_from_elem. by exists k, y, sample', c'.
  - rewrite lookup_insert_ne by done.
    rewrite (wavs_from_lookup B L test 0 k _ y Hy).
    by destruct (converted_wav_after B L _ _ _ Hcy) as [_ ->].
Qed.

(** The directory the export leaves is the one the enhancer scans
    ([./dataset/wavs]), and it is flat: when the file system was a tree
    and [wavs] held no directory, it is still a tree afterwards, every
    entry the enhancer's scan finds sits directly in [wavs], every WAV
    file the export opened is found, and no two files found share a
    base name, which is what the enhancer needs to write one output for
    each. *)
Theorem exported_recordings_have_distinct_names :
  tree B (fs w) ->
  let r := generate_data L environ w in
  let files := rglob_fs B (fs r.1) (PyPath.Path "./dataset/wavs") "wav" in
  tree B (fs r.1) /\
  (forall k x,
     train !! k = Some x \/ test !! k = Some x ->
     wav_after L x <> None -> wav_path k ∈ files) /\
  (forall q, q ∈ files -> removelast q = PyPath.Path "./dataset/wavs") /\
  NoDup (PyPath.name <$> files).
Proof.
  intros Ht r files. subst r files. rewrite enhancer_input_is_wavs_dir.
  destruct generate_data_run as (m1 & Hm & Hr1 & Ho1 & Hr2 & Ho2 & ->). xrun.
  set (m2 := exported train metadata_train_path m1) in *.
  set (m3 := exported test metadata_eval_path m2).
  assert (tree B m3) as Ht3.
  { apply exported_tree; [done..|].
    apply exported_tree; [done..|]. by eapply mkdir_from_tree. }
  assert (wavs_ready B m3 = true) as Hr3 by by apply exported_ready.
  assert (forall q, q ∈ rglob_fs B m3 wavs_dir "wav" -> removelast q = wavs_dir)
    as Hflat.
  { intros q (_ & Hq & Hb & _)%rglob_fs_elem.
    by apply (flat_when_ready m3). }
  split_and!; [done| |done|].
  - intros k x Hk Hx. apply rglob_fs_elem.
    split_and!; [by apply wavs_ready_spec in Hr3 as [? _]| |apply wav_path_below|].
    + assert (forall j, metadata_eval_path <> wav_path j) as Hne.
      { intros j Heq.
        assert (PyPath.below wavs_dir metadata_eval_path = true) as Hb
          by (rewrite Heq; apply wav_path_below). done. }
      assert (forall j, metadata_train_path <> wav_path j) as Hne'.
      { intros j Heq.
        assert (PyPath.below wavs_dir metadata_train_path = true) as Hb
          by (rewrite Heq; apply wav_path_below). done. }
      assert (is_Some (m2 !! wav_path k) -> is_Some (m3 !! wav_path k)) as Hstay.
      { intros Hs. unfold m3. rewrite lookup_insert_ne by done.
        apply wavs_from_keeps. by rewrite lookup_insert_ne. }
      destruct (wav_after L x) as [c|] eqn:Hc; [|done].
      destruct Hk as [Hk|Hk].
      * apply Hstay. unfold m2. rewrite lookup_insert_ne by done.
        rewrite (wavs_from_lookup B L train 0 k _ x Hk), Hc. eauto.
      * unfold m3. rewrite lookup_insert_ne by done.
        rewrite (wavs_from_lookup B L test 0 k _ x Hk), Hc. eauto.
    + unfold wav_path. rewrite name_joinpath. apply wav_filename_matches.
  - apply NoDup_fmap_2_strong; [|apply rglob_fs_NoDup].
    intros q1 q2 Hq1 Hq2 Hname.
    pose proof (Hflat _ Hq1) as Hp1. pose proof (Hflat _ Hq2) as Hp2.
    apply rglob_fs_elem in Hq1 as (_ & _ & Hb1%below_length & _).
    apply rglob_fs_elem in Hq2 as (_ & _ & Hb2%below_length & _).
    rewrite (app_removelast_last "" (l := q1)) by (by destruct q1).
    rewrite (app_removelast_last "" (l := q2)) by (by destruct q2).
    unfold PyPath.name in Hname. by rewrite Hp1, Hp2, Hname.
Qed.

End Run.

End Script.

(** ** An input directory that is not there *)

Section MissingInput.

Variable B : Backend.
Variables (self : AudioEnhancer) (input_dir output_dir fmt solver : string).
Variables (nfe : pynum) (tau : float) (denoising use_enhanced : bool).

(** [process_directory] does not tell a missing input directory from an
    empty one: when the input path is no directory (and is neither the
    output directory nor above it, so that [mkdir] does not create it),
    the run still makes the output directory, prints that it found 0
    files and that there are none, and returns 0 without raising;
    [verify_output], in contrast, reports a missing directory. *)
Theorem missing_input_is_not_an_error (w : world B) :
  is_dir (lookup_node B (fs w) (PyPath.Path input_dir)) = false ->
  PyPath.below (PyPath.Path input_dir) (PyPath.Path output_dir) = false ->
  PyPath.Path input_dir <> PyPath.Path output_dir ->
  (mkdir B (PyPath.Path output_dir) w).2 = inr tt ->
  let r := process_directory B self input_dir output_dir fmt solver nfe tau
             denoising use_enhanced w in
  r.2 = inr 0 /\
  stdout r.1 = stdout w ++ [found_line 0 fmt; "No audio files found!"] /\
  calls r.1 = calls w /\
  is_dir (lookup_node B (fs r.1) (PyPath.Path output_dir)) = true /\
  is_dir (lookup_node B (fs r.1) (PyPath.Path input_dir)) = false.
Proof.
  intros Hin Hb Hne Hmk r. subst r.
  rewrite process_directory_eq. rewrite mkdir_eq in *.
  destruct (mkdir_from B (fs w) [] (PyPath.Path output_dir)) as [e|m1] eqn:Hm;
    [done|].
  assert (is_dir (lookup_node B m1 (PyPath.Path input_dir)) = false) as Hin1.
  { destruct (PyPath.Path input_dir) as [|a inp] eqn:Hinp; [done|].
    rewrite ?Hinp in *. simpl in Hin |- *.
    destruct (mkdir_from_lookup B _ _ _ _ Hm (a :: inp))
      as [->|(_ & _ & c & pre & post & Hout & Hq)]; [done|].
    simpl in Hq. destruct post as [|c' post].
    - by rewrite Hout, Hq in Hne.
    - assert (PyPath.below (a :: inp) (PyPath.Path output_dir) = true) as Hbelow.
      { apply below_spec. exists c', post.
        by rewrite Hq, Hout, <- app_assoc. }
      congruence. }
  cbv zeta. unfold rglob_fs. simpl fs. rewrite Hin1. simpl.
  unfold loop_end, add_lines. simpl. rewrite <- app_assoc.
  split_and!; [done..| |done]. by eapply mkdir_from_target.
Qed.

End MissingInput.


(** ** What the enhancer leaves of its inputs *)

Lemma below_joinpath_inv (p q : path) (c : string) :
  PyPath.below p (PyPath.joinpath q c) = true -> p = q \/ PyPath.below p q = true.
Proof.
  intros (c' & rest & Heq)%below_spec. unfold PyPath.joinpath in Heq.
  destruct rest as [|z rest _] using rev_ind.
  - left. by apply app_inj_tail in Heq as [-> _].
  - right. rewrite app_comm_cons, app_assoc in Heq.
    apply app_inj_tail in Heq as [-> _]. apply below_spec. eauto.
Qed.

Section Inputs.

Variable B : Backend.
Variables (self : AudioEnhancer) (input_dir output_dir fmt solver : string).
Variables (nfe : pynum) (tau : float) (denoising use_enhanced : bool).

Implicit Types (w : world B) (f q : path).

Local Abbreviation out := (PyPath.Path output_dir).
Local Abbreviation inp := (PyPath.Path input_dir).
Local Abbreviation run :=
  (process_directory B self input_dir output_dir fmt solver nfe tau
     denoising use_enhanced).
Local Abbreviation iterations :=
  (attempts B self out fmt solver nfe tau denoising use_enhanced).

(** The single-file processor reads: it leaves the file system and the
    standard output as they are and asks for no write.  It calls the
    libraries at most three times, the load first, and a budget [nfe]
    that does not convert to an integer is refused before the file is
    even loaded. *)
Theorem single_file_processor_only_reads (p : path) w :
  let r := denoise_and_enhance B self p solver nfe tau denoising w in
  fs r.1 = fs w /\
  stdout r.1 = stdout w /\
  (exists evs : list (event B),
     calls r.1 = calls w ++ evs /\
     length evs <= 3 /\
     (evs <> [] -> head evs = Some (EvLoad p)) /\
     forall file data sr fmt', EvWrite file data sr fmt' ∉ evs) /\
  (forall e, py_int nfe = inl e -> r = (w, inl e)).
Proof.
  intros r. subst r. rewrite denoise_and_enhance_eq.
  destruct (py_int nfe) as [e|n].
  { split_and!; [done..| |by intros ? [= ->]].
    exists []. rewrite app_nil_r. split_and!; [done|simpl; lia|done|].
    intros ? ? ? ? ?%not_elem_of_nil. done. }
  assert (forall (evs : list (event B)) (x : result ((Z * list (sample B)) * (Z * list (sample B)))),
            length evs <= 3 -> head evs = Some (EvLoad p) ->
            (forall file data sr fmt', EvWrite file data sr fmt' ∉ evs) ->
            fs (add_calls w evs, x).1 = fs w /\
            stdout (add_calls w evs, x).1 = stdout w /\
            (exists evs0 : list (event B),
               calls (add_calls w evs, x).1 = calls w ++ evs0 /\
               length evs0 <= 3 /\
               (evs0 <> [] -> head evs0 = Some (EvLoad p)) /\
               forall file data sr fmt', EvWrite file data sr fmt' ∉ evs0) /\
            (forall e, @inr exn Z n = inl e -> (add_calls w evs, x) = (w, inl e)))
    as Hshape.
  { intros evs x Hlen Hhd Hnw. split_and!; [done..| |done]. by exists evs. }
  destruct (read_audio B (fs w) p) as [e|[dwav sr]].
  { apply Hshape; [simpl; lia|done|].
    intros ? ? ? ? [=]%list_elem_of_singleton. }
  cbv zeta.
  destruct (denoise_model B _ sr (device self)) as [e|[wav_denoised new_sr]].
  { apply Hshape; [simpl; lia|done|].
    intros ? ? ? ? Hin. repeat (apply elem_of_cons in Hin as [[=]|Hin]).
    by apply not_elem_of_nil in Hin. }
  destruct (enhance_model B _ sr (device self) n _ _ tau) as [e|[wav_enhanced sre]];
    (apply Hshape; [simpl; lia|done|]);
    intros ? ? ? ? Hin; repeat (apply elem_of_cons in Hin as [[=]|Hin]);
    by apply not_elem_of_nil in Hin.
Qed.

Lemma try_body_is_dir f w q :
  is_dir (lookup_node B
            (fs (try_body B self out fmt solver nfe tau denoising use_enhanced
                   f w).1) q)
  = is_dir (lookup_node B (fs w) q).
Proof.
  destruct (try_body_effect B self out fmt solver nfe tau denoising use_enhanced
              f w) as (evs & m' & -> & _ & [->|(c & -> & _ & Htarget)] & _);
    [done|]. simpl.
  destruct q as [|a q]; [done|]. simpl.
  destruct (decide (output_filename out f = a :: q)) as [Heq|Hne].
  - rewrite Heq, lookup_insert_eq. rewrite Heq in Htarget. simpl in Htarget.
    by rewrite Htarget.
  - by rewrite lookup_insert_ne.
Qed.

Lemma loop_is_dir (files : list path) q : forall w,
  is_dir (lookup_node B (fs (loop_end (iterations files w) w)) q)
  = is_dir (lookup_node B (fs w) q).
Proof.
  induction files as [|f files IH]; intros w; [done|].
  rewrite attempts_cons, loop_end_cons. simpl att_next.
  rewrite IH. unfold lookup_node. rewrite next_world_fs.
  apply try_body_is_dir.
Qed.

(** A run does not touch its inputs.  When the output directory is
    neither the input directory nor inside it, every path below the
    input directory holds after the run what it held before, and a scan
    of the input directory finds the same files: running the batch
    again processes the same inputs, and none of its own outputs. *)
Theorem inputs_survive_the_run w :
  PyPath.below inp out = false ->
  inp <> out ->
  (mkdir B out w).2 = inr tt ->
  (forall q, PyPath.below inp q = true -> fs (run w).1 !! q = fs w !! q) /\
  (forall q, q ∈ rglob_fs B (fs (run w).1) inp fmt <-> q ∈ rglob_fs B (fs w) inp fmt).
Proof.
  intros Hb Hne Hmk.
  destruct (mkdir B out w) as [w1 [e|[]]] eqn:Hm; [done|]. clear Hmk.
  destruct (mkdir_ok_inv B output_dir _ _ Hm) as (Hfrom & _ & _).
  assert (forall q, PyPath.below inp q = true \/ q = inp ->
            fs w1 !! q = fs w !! q) as Hmkdir.
  { intros q Hq.
    destruct (mkdir_from_lookup B _ _ _ _ Hfrom q)
      as [->|(_ & _ & c & pre & post & Hout & ->)]; [done|].
    simpl in Hq. exfalso.
    destruct Hq as [Hq|Hq].
    - assert (PyPath.below inp out = true) as Hbelow; [|congruence].
      apply below_joinpath_inv in Hq as [Heq|(c' & rest & ->)%below_spec];
        apply below_spec.
      + exists c, post. by rewrite Hout, Heq.
      + exists c', (rest ++ c :: post). by rewrite Hout, <- app_assoc.
    - destruct post as [|c' post]; [by rewrite Hout, <- Hq in Hne|].
      assert (PyPath.below inp out = true) as Hbelow; [|congruence].
      apply below_spec. exists c', post.
      by rewrite Hout, <- Hq, <- app_assoc. }
  assert (forall q, PyPath.below inp q = true ->
            fs (run w).1 !! q = fs w !! q) as Hframe.
  { intros q Hq.
    rewrite (process_directory_fs B self input_dir output_dir fmt solver nfe tau
               denoising use_enhanced _ _ Hm).
    rewrite loop_elsewhere.
    - simpl. apply Hmkdir. by left.
    - intros f _ ->. unfold output_filename in Hq.
      apply below_joinpath_inv in Hq as [Heq|Hbelow]; congruence. }
  split; [done|].
  intros q. rewrite !rglob_fs_elem.
  assert (is_dir (lookup_node B (fs (run w).1) inp)
          = is_dir (lookup_node B (fs w) inp)) as ->.
  { rewrite (process_directory_fs B self input_dir output_dir fmt solver nfe tau
               denoising use_enhanced _ _ Hm).
    rewrite loop_is_dir. simpl.
    destruct inp as [|a l] eqn:Hinp; [done|]. simpl.
    rewrite Hmkdir; [done|by right]. }
  split; intros (Hd & Hq & Hbq & Hm'); split_and!; try done.
  - by rewrite <- Hframe.
  - by rewrite Hframe.
Qed.

End Inputs.

(** * The scripts at work

    The export run on the small data library, and the enhancer on the
    small backend. *)

Section ExportExamples.

Import Stub StubData.

Local Open Scope Z_scope.

(** A leading sentence number goes, with all the white space after it. *)
Lemma clean_text_removes_leading_number_witness :
  clean_text ("12" +:+ "  " +:+ "ne y windga") = "ne y windga".
Proof.
  apply clean_text_removes_leading_number; vm_compute; congruence.
Defined.

(** The train split of the corpus, exported into an existing
    [dataset/wavs]: the first sample is listed and its recording
    written; the recording that did not fit is on the disk, cut short,
    and is not listed. *)
Lemma metadata_matches_recordings_witness :
  (export_data lib splits "train" metadata_train_path ready).2 = inr tt /\
  csv_row lib 0 greeting ∈ rows_from lib train 0 /\
  fs (export_data lib splits "train" metadata_train_path ready).1 !! wav_path 0
    = Some (File "RIFF@16000:1,2,3") /\
  length (rows_from lib train 0) = 1%nat /\
  wav_after lib (inr too_long) = Some "RIFF".
Proof.
  destruct (metadata_matches_recordings backend lib splits "train"
              metadata_train_path train ready
              eq_refl ltac:(vm_compute; reflexivity)
              ltac:(vm_compute; reflexivity) eq_refl)
    as (Hret & _ & _ & Hrec & _).
  destruct (Hrec 0%nat (inr greeting) greeting "RIFF@16000:1,2,3"
              eq_refl eq_refl) as [Hrow Hwav].
  split_and!; [exact Hret|exact Hrow|exact Hwav|reflexivity|reflexivity].
Defined.

(** The whole script in an empty working directory: the first sample of
    the train split and the first sample of the test split are both
    listed as [wavs/000000.wav]; the file holds the test recording, not
    the one the train row describes. *)
Lemma test_export_overwrites_train_recordings_witness :
  (generate_data lib environ fresh).2 = inr tt /\
  csv_row lib 0 greeting ∈ rows_from lib train 0 /\
  converted lib (inr greeting) = inr (greeting, "RIFF@16000:1,2,3") /\
  fs (generate_data lib environ fresh).1 !! wav_path 0
    = Some (File "RIFF@22050:9").
Proof.
  destruct (test_export_overwrites_train_recordings backend lib environ fresh
              options corpus splits train test
              eq_refl eq_refl eq_refl eq_refl eq_refl
              ltac:(vm_compute; reflexivity) ltac:(vm_compute; reflexivity)
              eq_refl eq_refl
              0%nat (inr greeting) (inr held_out) greeting held_out
              "RIFF@16000:1,2,3" "RIFF@22050:9"
              eq_refl eq_refl eq_refl eq_refl)
    as (Hret & _ & _ & Hrow & _ & _ & _ & Hwav).
  split_and!; [exact Hret|exact Hrow|reflexivity|exact Hwav].
Defined.

Lemma fresh_is_a_tree : tree backend (fs fresh).
Proof.
  intros p c [n Hn]. unfold fresh, empty_world in Hn. simpl in Hn.
  by rewrite lookup_empty in Hn.
Qed.

(** After the script the enhancer's scan of [./dataset/wavs] finds the
    recording of index 0 and the file cut short at index 3, under
    distinct names. *)
Lemma exported_recordings_have_distinct_names_witness :
  wav_path 0 ∈ rglob_fs backend (fs (generate_data lib environ fresh).1)
                 (PyPath.Path "./dataset/wavs") "wav" /\
  wav_path 3 ∈ rglob_fs backend (fs (generate_data lib environ fresh).1)
                 (PyPath.Path "./dataset/wavs") "wav" /\
  NoDup (PyPath.name <$>
         rglob_fs backend (fs (generate_data lib environ fresh).1)
           (PyPath.Path "./dataset/wavs") "wav").
Proof.
  destruct (exported_recordings_have_distinct_names backend lib environ fresh
              options corpus splits train test
              eq_refl eq_refl eq_refl eq_refl eq_refl
              ltac:(vm_compute; reflexivity) ltac:(vm_compute; reflexivity)
              eq_refl eq_refl fresh_is_a_tree)
    as (_ & Hfound & _ & Hnames).
  split_and!; [| |exact Hnames].
  - apply (Hfound 0%nat (inr greeting)); [by left|by vm_compute].
  - apply (Hfound 3%nat (inr too_long)); [by left|by vm_compute].
Defined.

(** No [input] directory: the enhancer makes [output], reports 0 files
    and returns 0. *)
Lemma missing_input_is_not_an_error_witness :
  (process_directory backend self "input" "output" "wav" "Midpoint" (PyInt 64)
     0.7 true true fresh).2 = inr 0%nat /\
  is_dir (lookup_node backend
            (fs (process_directory backend self "input" "output" "wav"
                   "Midpoint" (PyInt 64) 0.7 true true fresh).1)
            (PyPath.Path "output")) = true.
Proof.
  destruct (missing_input_is_not_an_error backend self "input" "output" "wav"
              "Midpoint" (PyInt 64) 0.7 true true fresh
              eq_refl eq_refl ltac:(vm_compute; congruence)
              ltac:(vm_compute; reflexivity))
    as (Hret & _ & _ & Hout & _).
  split; [exact Hret|exact Hout].
Defined.

(** The recordings of the batch [mixed] are where they were after the
    run, and a second scan finds the same three. *)
Lemma inputs_survive_the_run_witness :
  fs (batch mixed).1 !! ["input"; "a.wav"]
    = fs (empty_world mixed) !! ["input"; "a.wav"] /\
  (["input"; "sub"; "c.wav"]
     ∈ rglob_fs backend (fs (batch mixed).1) (PyPath.Path "input") "wav").
Proof.
  destruct (inputs_survive_the_run backend self "input" "output" "wav"
              "Midpoint" (PyInt 64) 0.7 true true (empty_world mixed)
              eq_refl ltac:(vm_compute; congruence)
              ltac:(vm_compute; reflexivity))
    as [Hframe Hscan].
  split.
  - exact (Hframe ["input"; "a.wav"] eq_refl).
  - apply (Hscan ["input"; "sub"; "c.wav"]). vm_compute.
    repeat constructor.
Defined.

(** With the output directory inside the input directory the outputs of
    one run are inputs of the next: the scan grows from three files to
    five. *)
Example outputs_inside_the_input_are_scanned_again :
  let first_run :=
    process_directory backend self "input" "input/out" "wav" "Midpoint"
      (PyInt 64) 0.7 true true (empty_world mixed) in
  length (rglob_fs backend mixed (PyPath.Path "input") "wav") = 3%nat /\
  first_run.2 = inr 2%nat /\
  length (rglob_fs backend (fs first_run.1) (PyPath.Path "input") "wav") = 5%nat.
Proof. vm_compute. done. Qed.

(** What the script prints for the corpus: index 0 is exported twice,
    once for each split. *)
Example export_of_the_corpus :
  stdout (generate_data lib environ fresh).1
  = [ "@AWASAWADOGO"; "@AWASAWADOGO"; "Exported 0";
      "Skipped 1  : Error decoding audio";
      "@ISSA"; "Skipped 2  : argument out of range";
      "@AWASAWADOGO"; "Skipped 3  : No space left on device";
      "@ISSA"; "@ISSA"; "Exported 0" ]%string.
Proof. vm_compute. reflexivity. Qed.

(** With one variable unset and one empty the script stops at the
    check. *)
Example export_without_credentials :
  missing_vars partial_environ = ["AWS_SECRET_ACCESS_KEY"; "AWS_ENDPOINT_URL_S3"]%string
  /\ stdout (generate_data lib partial_environ fresh).1 = []
  /\ map_to_list (fs (generate_data lib partial_environ fresh).1) = [].
Proof. vm_compute. done. Qed.

End ExportExamples.
